(** * ms-365-mcp-server: scope aggregation, catalog load, tool registration,
      request translation, pagination and token management

    A shallow embedding of
    - [buildScopesFromEndpoints] and [SCOPE_HIERARCHY]   (src/dist/auth.js),
    - the [Zodios] constructor                            (src/dist/index.js, second part),
    - [registerGraphTools] and the handler it registers   (src/dist/graph-tools.js),
    - the class [AuthManager]                             (src/dist/auth.js),
    - [verifyAccessToken] of [MicrosoftOAuthProvider]     (src/unnamed/part_000),
    followed by the properties of the specification that concern them, and
    by further properties of the code.

    Conventions.  A JavaScript string is a [string]: the sequence of the
    bytes of its UTF-8 encoding, a lone surrogate being the three bytes of
    the generalized encoding (ED, a byte from A0 to BF, a continuation
    byte).  A computation that may throw yields a [string + A]: the message
    of the Error thrown, or its value.
    A JavaScript object used as a map is an association list in the order
    [Object.entries] enumerates it.  What the language runtime brings and
    the repository does not define (number formatting, Unicode case mapping,
    [JSON.parse], [JSON.stringify], [new URL], [new RegExp]) is the interface
    [Builtins]; the transport [graphClient.graphRequest] and the host's
    [server.tool] are collaborators, modelled by the calls made to them. *)

From Stdlib Require Import String Ascii List ZArith NArith Bool Arith Lia.
From Stdlib Require Import DecimalString.
Import ListNotations.
Set Warnings "-register-all".
Open Scope list_scope.
Open Scope string_scope.

(* ===================================================================== *)
(** * Part I.  The program                                                *)
(* ===================================================================== *)

(** ** JavaScript strings *)
Module JSString.

(** [s.startsWith(p)] *)
Definition startsWith (p s : string) : bool := String.prefix p s.

(** [s.includes(p)] *)
Fixpoint includes (p s : string) : bool :=
  startsWith p s ||
  match s with
  | EmptyString => false
  | String _ s' => includes p s'
  end.

(** The suffix of [s] from position [n]. *)
Fixpoint drop (n : nat) (s : string) : string :=
  match n, s with
  | O, _ => s
  | S n', String _ s' => drop n' s'
  | S _, EmptyString => EmptyString
  end.

(** [s.endsWith(p)] *)
Definition endsWith (p s : string) : bool :=
  Nat.leb (String.length p) (String.length s) &&
  String.eqb (drop (String.length s - String.length p) s) p.

(** [s.replace(p, r)] for a string pattern [p]: the FIRST occurrence of
    [p] only.  [r] is taken literally: the handler only passes the empty
    string or an output of [encodeURIComponent], which holds no [$]. *)
Fixpoint replace (p r s : string) : string :=
  if startsWith p s then r ++ drop (String.length p) s
  else match s with
       | EmptyString => EmptyString
       | String c s' => String c (replace p r s')
       end.

(** [s.replace(/[$_]+/g, '')]: every [$] and [_] is removed. *)
Fixpoint strip_markers (s : string) : string :=
  match s with
  | EmptyString => EmptyString
  | String c s' =>
      if (Ascii.eqb c "$" || Ascii.eqb c "_")%char then strip_markers s'
      else String c (strip_markers s')
  end.

(** Character classes. *)
Definition in_range (lo hi c : ascii) : bool :=
  Nat.leb (nat_of_ascii lo) (nat_of_ascii c) && Nat.leb (nat_of_ascii c) (nat_of_ascii hi).
Definition is_digit (c : ascii) : bool := in_range "0" "9" c.
Definition is_upper (c : ascii) : bool := in_range "A" "Z" c.
Definition is_lower (c : ascii) : bool := in_range "a" "z" c.
(** the class [[a-zA-Z0-9]] *)
Definition is_alnum (c : ascii) : bool := is_lower c || is_upper c || is_digit c.

(** The escaping of [encodeURIComponent]: the characters
    [A-Z a-z 0-9 - _ . ! ~ * ' ( )] are kept, every other byte of the
    UTF-8 encoding becomes [%XX]. *)
Definition unreserved (c : ascii) : bool :=
  is_alnum c ||
  existsb (Ascii.eqb c) ["-"; "_"; "."; "!"; "~"; "*"; "'"; "("; ")"]%char.

(** The characters an encoded string is made of. *)
Definition literal_char (c : ascii) : bool := unreserved c || Ascii.eqb c "%".

Definition hex_digit (n : nat) : ascii :=
  nth n ["0"; "1"; "2"; "3"; "4"; "5"; "6"; "7"; "8"; "9";
         "A"; "B"; "C"; "D"; "E"; "F"]%char "0"%char.

Definition percent (c : ascii) : string :=
  let n := nat_of_ascii c in
  String "%" (String (hex_digit (n / 16)) (String (hex_digit (n mod 16)) EmptyString)).

Fixpoint encode (s : string) : string :=
  match s with
  | EmptyString => EmptyString
  | String c s' =>
      (if unreserved c then String c EmptyString else percent c)
      ++ encode s'
  end.

(** A surrogate that is not part of a pair: the byte ED followed by a byte
    from A0 to BF (a pair is the four bytes of one code point). *)
Fixpoint lone_surrogate (s : string) : bool :=
  match s with
  | EmptyString => false
  | String c s' =>
      (Nat.eqb (nat_of_ascii c) 237
       && match s' with
          | String d _ => Nat.leb 160 (nat_of_ascii d) && Nat.leb (nat_of_ascii d) 191
          | EmptyString => false
          end)
      || lone_surrogate s'
  end.

(** [encodeURIComponent(s)] throws a URIError on a lone surrogate. *)
Definition encodeURIComponent (s : string) : string + string :=
  if lone_surrogate s then inl "URI malformed" else inr (encode s).

(** [xs.join(sep)] on strings *)
Fixpoint join (sep : string) (xs : list string) : string :=
  match xs with
  | [] => EmptyString
  | [x] => x
  | x :: rest => x ++ sep ++ join sep rest
  end.

(** How many times a character occurs in a string. *)
Fixpoint occurrences (c : ascii) (s : string) : nat :=
  match s with
  | EmptyString => 0
  | String a s' => (if Ascii.eqb a c then 1 else 0) + occurrences c s'
  end.


End JSString.

(** ** JavaScript [Set] of strings: insertion order, no duplicate *)
Module JSSet.

Definition t := list string.

Definition empty : t := [].

Definition has (x : string) (s : t) : bool := existsb (String.eqb x) s.

(** [s.add(x)]: appended unless already there. *)
Definition add (x : string) (s : t) : t := if has x s then s else (s ++ [x])%list.

(** [s.delete(x)] *)
Definition delete (x : string) (s : t) : t :=
  filter (fun y => negb (String.eqb x y)) s.

(** [Array.from(s)] *)
Definition to_array (s : t) : list string := s.

End JSSet.

(** ** src/dist/auth.js *)
Module Auth.

(** An entry of [endpoints.json], as far as [buildScopesFromEndpoints]
    reads it.  [scopes] is [None] when the field is absent or not an
    array. *)
Record endpoint := {
  requiresWorkAccount : bool;
  scopes : option (list string)
}.

Definition hierarchy := list (string * list string).

Definition SCOPE_HIERARCHY : hierarchy :=
  [ ("Mail.ReadWrite", ["Mail.Read"]);
    ("Calendars.ReadWrite", ["Calendars.Read"]);
    ("Files.ReadWrite", ["Files.Read"]);
    ("Tasks.ReadWrite", ["Tasks.Read"]);
    ("Contacts.ReadWrite", ["Contacts.Read"]) ].

(** The body of the first [forEach]. *)
Definition collect_endpoint (includeWorkAccountScopes : bool)
           (scopesSet : JSSet.t) (e : endpoint) : JSSet.t :=
  if requiresWorkAccount e && negb includeWorkAccountScopes then scopesSet
  else match scopes e with
       | Some l => fold_left (fun s scope => JSSet.add scope s) l scopesSet
       | None => scopesSet
       end.

Definition collect (endpoints : list endpoint) (includeWorkAccountScopes : bool)
  : JSSet.t :=
  fold_left (collect_endpoint includeWorkAccountScopes) endpoints JSSet.empty.

(** The body of the second [forEach]. *)
Definition collapse_entry (scopesSet : JSSet.t) (entry : string * list string)
  : JSSet.t :=
  let '(higherScope, lowerScopes) := entry in
  if forallb (fun scope => JSSet.has scope scopesSet) lowerScopes
  then JSSet.add higherScope
         (fold_left (fun s scope => JSSet.delete scope s) lowerScopes scopesSet)
  else scopesSet.

Definition collapse (h : hierarchy) (scopesSet : JSSet.t) : JSSet.t :=
  fold_left collapse_entry h scopesSet.

(** [buildScopesFromEndpoints], with the table and the catalog it closes
    over as arguments. *)
Definition buildScopesFrom (h : hierarchy) (endpoints : list endpoint)
           (includeWorkAccountScopes : bool) : list string :=
  JSSet.to_array (collapse h (collect endpoints includeWorkAccountScopes)).

Definition buildScopesFromEndpoints (endpoints : list endpoint)
           (includeWorkAccountScopes : bool) : list string :=
  buildScopesFrom SCOPE_HIERARCHY endpoints includeWorkAccountScopes.

(** The catalog grants [x] under the flag: some endpoint that is not
    skipped lists it. *)
Definition grants (endpoints : list endpoint) (includeWorkAccountScopes : bool)
           (x : string) : Prop :=
  exists e l, In e endpoints /\
              requiresWorkAccount e && negb includeWorkAccountScopes = false /\
              scopes e = Some l /\ In x l.

(** The names an entry of the table mentions. *)
Definition mentions (entry : string * list string) : list string :=
  fst entry :: snd entry.

(** No name occurs twice in the table (in one entry or in two). *)
Definition separated (h : hierarchy) : Prop := NoDup (flat_map mentions h).

End Auth.

(** ** JavaScript objects used as maps *)
Module JSObject.

(** The own properties, in the order [Object.keys], [Object.entries] and
    [JSON.stringify] enumerate them: array-index keys first, by value,
    then the other keys by insertion.  Keys are ordinary property names
    (the accessor [__proto__] is not one). *)
Definition t (A : Type) := list (string * A).

(** A key is an array index when it is the canonical decimal form of an
    integer below 2^32 - 1. *)
Definition array_index (k : string) : option N :=
  match NilEmpty.uint_of_string k with
  | Some d =>
      let n := N.of_uint d in
      if String.eqb (NilZero.string_of_uint (N.to_uint n)) k
         && (n <? 4294967295)%N
      then Some n else None
  | None => None
  end.

(** [o[k]]; [None] is [undefined]. *)
Fixpoint get {A} (k : string) (o : t A) : option A :=
  match o with
  | [] => None
  | (k', v) :: rest => if String.eqb k k' then Some v else get k rest
  end.

Definition has {A} (k : string) (o : t A) : bool :=
  match get k o with Some _ => true | None => false end.

(** Where a new array-index key [n] goes: before the first key that is
    not an array index or is a larger one. *)
Fixpoint insert_index {A} (n : N) (k : string) (v : A) (o : t A) : t A :=
  match o with
  | [] => [(k, v)]
  | (k', v') :: rest =>
      match array_index k' with
      | Some n' =>
          if (n <? n')%N then (k, v) :: o
          else (k', v') :: insert_index n k v rest
      | None => (k, v) :: o
      end
  end.

(** The value of an existing key changes in place. *)
Fixpoint update {A} (k : string) (v : A) (o : t A) : t A :=
  match o with
  | [] => []
  | (k', v') :: rest =>
      if String.eqb k k' then (k', v) :: rest else (k', v') :: update k v rest
  end.

(** [o[k] = v] *)
Definition set {A} (k : string) (v : A) (o : t A) : t A :=
  if has k o then update k v o
  else match array_index k with
       | Some n => insert_index n k v o
       | None => (o ++ [(k, v)])%list
       end.

(** [delete o[k]] *)
Definition delete {A} (k : string) (o : t A) : t A :=
  filter (fun kv => negb (String.eqb k (fst kv))) o.

Definition keys {A} (o : t A) : list string := map fst o.

End JSObject.

(** ** JavaScript numbers

    JSON numbers are IEEE doubles.  The code reads a number in three ways
    only, which is all the interface asks for. *)
Class JSNumber := {
  number : Type;
(** the Number that is the length of an array or a string *)
number_of_length : nat -> number;
(** [ToBoolean]: neither zero nor NaN *)
number_truthy : number -> bool;
(** [Number::toString] *)
Number_toString : number -> string
}.

(** ** JSON values *)
Module JSON.
Section Values.
Context {Num : JSNumber}.

Inductive json : Type :=
| JNull
| JBool (b : bool)
| JNum (n : number)
| JStr (s : string)
| JArr (items : list json)
| JObj (fields : JSObject.t json).

(** [ToBoolean] *)
Definition truthy (v : json) : bool :=
  match v with
  | JNull => false
  | JBool b => b
  | JNum n => number_truthy n
  | JStr s => negb (String.eqb s "")
  | JArr _ | JObj _ => true
  end.

(** [ToBoolean] of a value that may be [undefined] *)
Definition truthy_opt (v : option json) : bool :=
  match v with Some v => truthy v | None => false end.

(** [ToString], as a template literal, [encodeURIComponent], [new URL] and
    [String.prototype.concat] apply it.  An array is its elements joined
    by commas, [null] elements being empty.  An object has the methods of
    [Object.prototype] unless a property of its own hides them: with a
    [toString] of its own -- no function, in a JSON value -- neither
    [toString] nor [valueOf] gives a primitive, and the conversion throws a
    TypeError. *)
Fixpoint ToString (v : json) : string + string :=
  match v with
  | JNull => inr "null"
  | JBool true => inr "true"
  | JBool false => inr "false"
  | JNum n => inr (Number_toString n)
  | JStr s => inr s
  | JArr items =>
      (fix join (l : list json) : string + string :=
         match l with
         | [] => inr ""
         | x :: rest =>
             match (match x with JNull => inr "" | _ => ToString x end) with
             | inl message => inl message
             | inr first =>
                 match rest with
                 | [] => inr first
                 | _ :: _ =>
                     match join rest with
                     | inl message => inl message
                     | inr others => inr (first ++ "," ++ others)
                     end
                 end
             end
         end) items
  | JObj fields =>
      if JSObject.has "toString" fields
      then inl "Cannot convert object to primitive value"
      else inr "[object Object]"
  end.

(** The number of UTF-16 code units of a string given by its UTF-8 bytes:
    one for each byte that is not a continuation byte, and one more for
    each lead byte of a four-byte sequence. *)
Fixpoint utf16_length (s : string) : nat :=
  match s with
  | EmptyString => 0
  | String c s' =>
      let b := nat_of_ascii c in
      (if (128 <=? b)%nat && (b <? 192)%nat then 0
       else if (240 <=? b)%nat then 2 else 1) + utf16_length s'
  end.

End Values.
End JSON.
Export JSON.

(** ** What the runtime provides *)
Record URL := { pathname : string; searchParams : list (string * string) }.

Class Builtins {Num : JSNumber} := {
(** [String.prototype.toLowerCase], [toUpperCase] *)
toLowerCase : string -> string;
toUpperCase : string -> string;
(** [JSON.parse]; [None] when it throws a SyntaxError *)
JSON_parse : string -> option json;
(** [JSON.stringify] of a JSON value *)
JSON_stringify : json -> string;
(** [new URL(s)] with its [pathname] and the entries of its
    [searchParams]; [None] when it throws a TypeError *)
URL_parse : string -> option URL;
(** [new RegExp(pattern, flags)], [None] when it throws a SyntaxError,
    and [r.test(s)] for a regular expression without the [g] or [y]
    flag *)
regexp : Type;
RegExp_new : string -> string -> option regexp;
RegExp_test : regexp -> string -> bool
}.

(** ** The endpoint catalog (the objects of [generated/client.js]) *)
Module Catalog.

(** A zod schema.  The schemas of the generated client are opaque. *)
Inductive zod : Type :=
| ZGenerated (id : string)
| ZString (description : string)      (* z.string().describe(d) *)
| ZAny                                (* z.any() *)
| ZUnionString (s : zod)              (* z.union([z.string(), s]) *)
| ZOptionalBoolean (description : string). (* z.boolean().describe(d).optional() *)

Record parameter := {
  name : string;
  type : string;
  schema : option zod;
  description : option string
}.

Record error_def := { error_description : string }.

Record endpoint := {
  method : string;
  path : string;
  alias : string;
  endpoint_description : option string;
  parameters : option (list parameter);
  errors : option (list error_def)
}.

End Catalog.

(** ** src/dist/index.js, second part: the [Zodios] constructor *)
Module Hack.
Import Catalog JSString.

(** The longest prefix in [[a-zA-Z0-9]*]. *)
Fixpoint alnum_prefix (s : string) : string :=
  match s with
  | EmptyString => EmptyString
  | String c s' => if is_alnum c then String c (alnum_prefix s') else EmptyString
  end.

(** The captures of the successive matches of [/:([a-zA-Z0-9]+)/g]: a
    match starts at a [:] followed by at least one alphanumeric and takes
    the whole run.  The next search starts after the run; as no match
    starts inside a run, scanning on from the character after the [:]
    finds the same matches. *)
Fixpoint pathParams (s : string) : list string :=
  match s with
  | EmptyString => []
  | String c s' =>
      if Ascii.eqb c ":" && negb (String.eqb (alnum_prefix s') "")
      then alnum_prefix s' :: pathParams s'
      else pathParams s'
  end.

(** [parameter.name = parameter.name.replace(/[$_]+/g, '')] *)
Definition sanitize (p : parameter) : parameter :=
  {| name := strip_markers (name p); type := type p;
     schema := schema p; description := description p |}.

Definition newParam (pathParam : string) : parameter :=
  {| name := pathParam;
     type := "Path";
     schema := Some (ZString ("Path parameter: " ++ pathParam));
     description := Some ("Path parameter: " ++ pathParam) |}.

(** One turn of [for (const pathParam of pathParams)]. *)
Definition ensure_param (params : list parameter) (pathParam : string)
  : list parameter :=
  let paramExists :=
    existsb (fun param => String.eqb (name param) pathParam
                          || String.eqb (name param) (strip_markers pathParam))
            params in
  if paramExists then params else (params ++ [newParam pathParam])%list.

(** The function mapped over the endpoints. *)
Definition load_endpoint (e : endpoint) : endpoint :=
  let params0 := match parameters e with Some l => l | None => [] end in
  let params1 := map sanitize params0 in
  let params2 := fold_left ensure_param (pathParams (path e)) params1 in
  {| method := method e; path := path e; alias := alias e;
     endpoint_description := endpoint_description e;
     parameters := Some params2; errors := errors e |}.

(** [new Zodios(baseUrlOrEndpoints)]: the [endpoints] field of the new
    object, or the message of the Error thrown. *)
Definition Zodios (baseUrlOrEndpoints : string + list endpoint)
  : string + list endpoint :=
  match baseUrlOrEndpoints with
  | inl _ => inl "No such hack"
  | inr endpoints => inr (map load_endpoint endpoints)
  end.

End Hack.

(** ** src/dist/graph-tools.js *)
Module GraphTools.
Import Catalog JSString.

Section Runtime.
Context {Num : JSNumber} {B : Builtins}.

(** *** The collaborators *)

(** The second argument of [graphClient.graphRequest]. *)
Record options := {
  opt_method : string;
  opt_headers : JSObject.t string;
  opt_body : option string;
  opt_rawResponse : bool;                       (* [true] or absent *)
  opt_queryParams : option (JSObject.t string)
}.

Record content_item := { item_type : string; text : string }.

(** What [graphRequest] resolves to.  [content] is [None] when the field
    is missing. *)
Record McpResponse := {
  content : option (list content_item);
  _meta : option json;
  isError : option bool
}.

(** A call of [graphRequest] throws an Error with a message, or returns
    a response, [None] being [undefined]. *)
Inductive outcome : Type :=
| Throws (message : string)
| Returns (response : option McpResponse).

(** The transport: any state machine answering requests. *)
Record GraphClient := {
  client_state : Type;
  graphRequest : client_state -> string -> options -> outcome * client_state
}.

(** A transport for tests: the k-th request, whatever it is, gets the k-th
    answer of a script; past the script, the transport throws. *)
Definition scripted (answers : list outcome) : GraphClient :=
  {| client_state := nat;
     graphRequest := fun n _ _ => (nth n answers (Throws "no more answers"), S n) |}.

(** A transport that gives every request the same answer. *)
Definition constant (answer : outcome) : GraphClient :=
  {| client_state := unit;
     graphRequest := fun _ _ _ => (answer, tt) |}.

(** The answer of the transport that carries one text. *)
Definition text_response (s : string) : outcome :=
  Returns (Some {| content := Some [ {| item_type := "text"; text := s |} ];
                   _meta := None; isError := None |}).

(** [new URL(nextLink)]: [None] when the string conversion of the cursor
    or the constructor throws. *)
Definition new_URL (nextLink : json) : option URL :=
  match ToString nextLink with
  | inr s => URL_parse s
  | inl _ => None
  end.

(** The documents are the pages of a collection, with all their items:
    each is an object whose [value] is an array; each but the last has a
    cursor that can be followed, the last has none. *)
Inductive collection : list json -> list json -> Prop :=
| collection_last fields items :
    JSObject.get "value" fields = Some (JArr items) ->
    JSObject.get "@odata.nextLink" fields = None ->
    collection [JObj fields] items
| collection_more fields items link url pages more :
    JSObject.get "value" fields = Some (JArr items) ->
    JSObject.get "@odata.nextLink" fields = Some link ->
    truthy link = true ->
    new_URL link = Some url ->
    collection pages more ->
    collection (JObj fields :: pages) (items ++ more)%list.

(** What the handler returns to the host. *)
Record CallToolResult := {
  result_content : list content_item;
  result_meta : option json;
  result_isError : option bool
}.

(** What [server.tool] is called with; the handler is [handler] below at
    [reg_tool]. *)
Record registration := {
  reg_name : string;
  reg_description : string;
  reg_paramSchema : JSObject.t zod;
  reg_title : string;
  reg_readOnlyHint : bool;
  reg_tool : endpoint
}.

(** *** Registration *)

Definition isGET (tool : endpoint) : bool :=
  String.eqb (toUpperCase (method tool)) "GET".

(** [enabledToolsRegex] after the first [if]: a pattern that is absent
    or empty is falsy; one that does not compile leaves the variable
    [undefined]. *)
Definition enabledToolsRegex (enabledToolsPattern : option string) : option regexp :=
  match enabledToolsPattern with
  | Some p => if String.eqb p "" then None else RegExp_new p "i"
  | None => None
  end.

(** The two [continue] tests. *)
Definition skipped (readOnly : bool) (re : option regexp) (tool : endpoint) : bool :=
  if readOnly && negb (isGET tool) then true
  else match re with
       | Some r => negb (RegExp_test r (alias tool))
       | None => false
       end.

Definition param_schema (param : parameter) : zod :=
  match schema param with
  | Some s => if String.eqb (type param) "Body" then ZUnionString s else s
  | None => ZAny
  end.

Definition paramSchema (tool : endpoint) : JSObject.t zod :=
  let declared :=
    match parameters tool with
    | Some l => fold_left (fun acc param =>
                             JSObject.set (name param) (param_schema param) acc) l []
    | None => []
    end in
  if isGET tool && includes "/" (path tool)
  then JSObject.set "fetchAllPages"
         (ZOptionalBoolean "Automatically fetch all pages of results") declared
  else declared.

Definition register (tool : endpoint) : registration :=
  {| reg_name := alias tool;
     reg_description := match endpoint_description tool with
                        | Some d => d | None => "" end;
     reg_paramSchema := paramSchema tool;
     reg_title := alias tool;
     reg_readOnlyHint := isGET tool;
     reg_tool := tool |}.

(** [registerGraphTools(server, graphClient, readOnly, enabledToolsPattern)]
    over the catalog [api.endpoints]: the calls of [server.tool], in
    order. *)
Definition registerGraphTools (endpoints : list endpoint) (readOnly : bool)
           (enabledToolsPattern : option string) : list registration :=
  let re := enabledToolsRegex enabledToolsPattern in
  map register (filter (fun tool => negb (skipped readOnly re tool)) endpoints).

(** *** Request translation *)

Definition odataParams : list string :=
  ["filter"; "select"; "expand"; "orderby"; "skip"; "top"; "count";
   "search"; "format"].

Definition fixedParamName (paramName : string) : string :=
  if existsb (String.eqb (toLowerCase paramName)) odataParams
  then "$" ++ toLowerCase paramName
  else paramName.

(** The locals [path], [queryParams], [headers] and [body]. *)
Record translation := {
  t_path : string;
  t_queryParams : JSObject.t string;
  t_headers : JSObject.t string;
  t_body : json
}.

(** A string is parsed as JSON and kept as it is when that fails. *)
Definition body_of (paramValue : json) : json :=
  match paramValue with
  | JStr s => match JSON_parse s with Some v => v | None => JStr s end
  | v => v
  end.

(** One turn of [for (let [paramName, paramValue] of Object.entries(params))]:
    the locals after it, or the message of the Error thrown.  Both calls of
    [encodeURIComponent(paramValue)] are evaluated, whether the path holds
    a placeholder or not. *)
Definition translate_param (parameterDefinitions : list parameter)
           (t : translation) (entry : string * json) : string + translation :=
  let '(paramName, paramValue) := entry in
  if String.eqb paramName "fetchAllPages" then inr t
  else
    match find (fun p => String.eqb (name p) paramName) parameterDefinitions with
    | Some paramDef =>
        if String.eqb (type paramDef) "Path" then
          match ToString paramValue with
          | inl message => inl message
          | inr s =>
              match encodeURIComponent s with
              | inl message => inl message
              | inr v =>
                  inr {| t_path := replace (":" ++ paramName) v
                                     (replace ("{" ++ paramName ++ "}") v (t_path t));
                         t_queryParams := t_queryParams t;
                         t_headers := t_headers t; t_body := t_body t |}
              end
          end
        else if String.eqb (type paramDef) "Query" then
          match ToString paramValue with
          | inl message => inl message
          | inr s =>
              inr {| t_path := t_path t;
                     t_queryParams := JSObject.set (fixedParamName paramName) s
                                        (t_queryParams t);
                     t_headers := t_headers t; t_body := t_body t |}
          end
        else if String.eqb (type paramDef) "Body" then
          inr {| t_path := t_path t; t_queryParams := t_queryParams t;
                 t_headers := t_headers t; t_body := body_of paramValue |}
        else if String.eqb (type paramDef) "Header" then
          match ToString paramValue with
          | inl message => inl message
          | inr s =>
              inr {| t_path := t_path t; t_queryParams := t_queryParams t;
                     t_headers := JSObject.set (fixedParamName paramName) s
                                    (t_headers t);
                     t_body := t_body t |}
          end
        else inr t
    | None =>
        if String.eqb paramName "body" then
          inr {| t_path := t_path t; t_queryParams := t_queryParams t;
                 t_headers := t_headers t; t_body := body_of paramValue |}
        else inr t
    end.

(** The kind under which the loop routes a parameter of the bag: that of
    the first definition of that name; none for [fetchAllPages] and for a
    name without a definition. *)
Definition kind_of (parameterDefinitions : list parameter) (paramName : string)
  : option string :=
  if String.eqb paramName "fetchAllPages" then None
  else match find (fun p => String.eqb (name p) paramName) parameterDefinitions with
       | Some paramDef => Some (type paramDef)
       | None => None
       end.

(** The loop assigns [body] for a parameter of the bag: its definition is
    of kind [Body], or it has none and is named [body]. *)
Definition routes_body (parameterDefinitions : list parameter) (paramName : string)
  : bool :=
  if String.eqb paramName "fetchAllPages" then false
  else match find (fun p => String.eqb (name p) paramName) parameterDefinitions with
       | Some paramDef =>
           negb (String.eqb (type paramDef) "Path")
           && negb (String.eqb (type paramDef) "Query")
           && String.eqb (type paramDef) "Body"
       | None => String.eqb paramName "body"
       end.


Definition definitions (tool : endpoint) : list parameter :=
  match parameters tool with Some l => l | None => [] end.

(** The loop from the locals [t]: it stops at the first Error. *)
Fixpoint translate_loop (parameterDefinitions : list parameter)
         (params : JSObject.t json) (t : translation) : string + translation :=
  match params with
  | [] => inr t
  | entry :: rest =>
      match translate_param parameterDefinitions t entry with
      | inl message => inl message
      | inr t' => translate_loop parameterDefinitions rest t'
      end
  end.

Definition translate (tool : endpoint) (params : JSObject.t json)
  : string + translation :=
  let parameterDefinitions :=
    match parameters tool with Some l => l | None => [] end in
  translate_loop parameterDefinitions params
    {| t_path := path tool; t_queryParams := []; t_headers := [];
       t_body := JNull |}.

(** [Object.entries(queryParams).map(([key, value]) => ...)] *)
Fixpoint encoded_entries (queryParams : JSObject.t string) : string + list string :=
  match queryParams with
  | [] => inr []
  | (key, value) :: rest =>
      match encodeURIComponent key with
      | inl message => inl message
      | inr k =>
          match encodeURIComponent value with
          | inl message => inl message
          | inr v =>
              match encoded_entries rest with
              | inl message => inl message
              | inr l => inr ((k ++ "=" ++ v) :: l)
              end
          end
      end
  end.

Definition queryString (queryParams : JSObject.t string) : string + string :=
  match encoded_entries queryParams with
  | inl message => inl message
  | inr l => inr (join "&" l)
  end.

(** [path] after the query string is appended. *)
Definition request_path (t : translation) : string + string :=
  match t_queryParams t with
  | [] => inr (t_path t)
  | _ :: _ =>
      match queryString (t_queryParams t) with
      | inl message => inl message
      | inr q =>
          inr (t_path t ++ (if includes "?" (t_path t) then "&" else "?") ++ q)
      end
  end.

Definition isProbablyMediaContent (tool : endpoint) (path : string) : bool :=
  match errors tool with
  | Some l => existsb (fun error =>
                String.eqb (error_description error) "Retrieved media content") l
  | None => false
  end || endsWith "/content" path.

(** [options], for the locals of the loop and the [path] of the
    request. *)
Definition request_options (tool : endpoint) (t : translation) (path : string)
  : options :=
  let method := toUpperCase (method tool) in
  {| opt_method := method;
     opt_headers := t_headers t;
     opt_body :=
       if negb (String.eqb method "GET") && truthy (t_body t)
       then Some (match t_body t with
                  | JStr s => s
                  | b => JSON_stringify b
                  end)
       else None;
     opt_rawResponse := isProbablyMediaContent tool path;
     opt_queryParams := None |}.

(** The statements of the [try] before the first request: the path and
    the options of that request, or the message of the Error thrown. *)
Definition prepare (tool : endpoint) (params : JSObject.t json)
  : string + (string * options) :=
  match translate tool params with
  | inl message => inl message
  | inr t =>
      match request_path t with
      | inl message => inl message
      | inr path => inr (path, request_options tool t path)
      end
  end.

(** *** The handler *)

(** [r && r.content && r.content.length > 0], with the first item. *)
Definition first_item (r : option McpResponse)
  : option (McpResponse * content_item * list content_item) :=
  match r with
  | Some r => match content r with
              | Some (item :: rest) => Some (r, item, rest)
              | _ => None
              end
  | None => None
  end.

(** [v[k]] for one of the keys [value], [@odata.nextLink], [@odata.count],
    which only an object can have: [None] when it throws ([v] is
    [null]), [Some None] when it is [undefined]. *)
Definition prop (k : string) (v : json) : option (option json) :=
  match v with
  | JNull => None
  | JObj o => Some (JSObject.get k o)
  | _ => Some None
  end.

(** [allItems.concat(items)] for an array [items]; [None] when it throws
    ([concat] is not a function of numbers, booleans and JSON objects; that
    of a string converts [items] to a string). *)
Definition concat (allItems : json) (items : list json) : option json :=
  match allItems with
  | JArr l => Some (JArr (l ++ items)%list)
  | JStr s => match ToString (JArr items) with
              | inr joined => Some (JStr (s ++ joined))
              | inl _ => None
              end
  | _ => None
  end.

(** [allItems.length] *)
Definition length_of (allItems : json) : option json :=
  match allItems with
  | JArr l => Some (JNum (number_of_length (List.length l)))
  | JStr s => Some (JNum (number_of_length (utf16_length s)))
  | JObj o => JSObject.get "length" o
  | _ => None
  end.

(** The four statements after the loop, up to [JSON.stringify]: the new
    [combinedResponse] as [JSON.stringify] sees it, [None] when the
    assignment to [value] throws (the module is strict code and
    [combinedResponse] a string, a number or a boolean).  A property of
    an array that is not an index is not serialized; neither is a
    property set to [undefined]. *)
Definition finish (combinedResponse allItems : json) : option json :=
  match combinedResponse with
  | JObj o =>
      let o1 := JSObject.set "value" allItems o in
      let o2 :=
        if truthy_opt (JSObject.get "@odata.count" o1)
        then match length_of allItems with
             | Some n => JSObject.set "@odata.count" n o1
             | None => JSObject.delete "@odata.count" o1
             end
        else o1 in
      Some (JObj (JSObject.delete "@odata.nextLink" o2))
  | JArr l => Some (JArr l)
  | _ => None
  end.

(** How the [while] loop ends. *)
Inductive loop_end : Type :=
| Completed (allItems : json) (pageCount : nat)
| Thrown
| Exhausted.

Definition with_queryParams (o : options) (q : JSObject.t string) : options :=
  {| opt_method := opt_method o; opt_headers := opt_headers o;
     opt_body := opt_body o; opt_rawResponse := opt_rawResponse o;
     opt_queryParams := Some q |}.

(** A request that differs from [o] in its query
    parameters (and path) only. *)
Definition follows (o : options) (req : string * options) : Prop :=
  exists q, snd req = with_queryParams o q.

Definition nextQueryParams (url : URL) : JSObject.t string :=
  fold_left (fun o kv => JSObject.set (fst kv) (snd kv) o) (searchParams url) [].

Section WithClient.
Variable graphClient : GraphClient.

(** The state of the transport and the requests issued so far. *)
Definition world : Type := client_state graphClient * list (string * options).

(** [await graphClient.graphRequest(path, options)] *)
Definition request (path : string) (o : options) (w : world) : outcome * world :=
  let '(r, st) := graphRequest graphClient (fst w) path o in
  (r, (st, (snd w ++ [(path, o)])%list)).

(** [while (nextLink) { ... }].  Every turn that goes on raises
    [pageCount], and the loop leaves above 100: [fuel] only makes the
    recursion structural (see [fetch_pages_total]). *)
Fixpoint fetch_pages (fuel : nat) (o : options) (allItems : json)
         (nextLink : option json) (pageCount : nat) (w : world)
  : loop_end * world :=
  match nextLink with
  | None => (Completed allItems pageCount, w)
  | Some link =>
      if negb (truthy link) then (Completed allItems pageCount, w)
      else
        match fuel with
        | O => (Exhausted, w)
        | S fuel' =>
            match new_URL link with
            | None => (Thrown, w)
            | Some url =>
                let nextPath := replace "/v1.0" "" (pathname url) in
                let nextOptions := with_queryParams o (nextQueryParams url) in
                match request nextPath nextOptions w with
                | (Throws _, w') => (Thrown, w')
                | (Returns nextResponse, w') =>
                    match first_item nextResponse with
                    | None => (Completed allItems pageCount, w')
                    | Some (_, item, _) =>
                        match JSON_parse (text item) with
                        | None => (Thrown, w')
                        | Some nextJsonResponse =>
                            match prop "value" nextJsonResponse,
                                  prop "@odata.nextLink" nextJsonResponse with
                            | Some value, Some nextLink' =>
                                match (match value with
                                       | Some (JArr items) => concat allItems items
                                       | _ => Some allItems
                                       end) with
                                | None => (Thrown, w')
                                | Some allItems' =>
                                    let pageCount' := S pageCount in
                                    if (100 <? pageCount')%nat
                                    then (Completed allItems' pageCount', w')
                                    else fetch_pages fuel' o allItems' nextLink'
                                           pageCount' w'
                                end
                            | _, _ => (Thrown, w')
                            end
                        end
                    end
                end
            end
        end
  end.

(** The cursor a page carries, if the page is not [null]. *)
Definition cursor_of (page : json) : option json :=
  match prop "@odata.nextLink" page with
  | Some nextLink => nextLink
  | None => None
  end.

(** From the cursor [nextLink], with [pageCount] pages read and below the
    cap, some follow-up fetch fails: the transport throws, or the text it
    returns is not JSON -- at once, or after further pages were fetched and
    parsed. *)
Inductive pagination_fails (o : options)
  : option json -> nat -> world -> Prop :=
| fails_transport link pageCount w url message w' :
    truthy link = true ->
    new_URL link = Some url ->
    request (replace "/v1.0" "" (pathname url))
            (with_queryParams o (nextQueryParams url)) w = (Throws message, w') ->
    pagination_fails o (Some link) pageCount w
| fails_parse link pageCount w url r item rest response w' :
    truthy link = true ->
    new_URL link = Some url ->
    request (replace "/v1.0" "" (pathname url))
            (with_queryParams o (nextQueryParams url)) w = (Returns response, w') ->
    first_item response = Some (r, item, rest) ->
    JSON_parse (text item) = None ->
    pagination_fails o (Some link) pageCount w
| fails_later link pageCount w url r item rest response w' page :
    truthy link = true ->
    new_URL link = Some url ->
    request (replace "/v1.0" "" (pathname url))
            (with_queryParams o (nextQueryParams url)) w = (Returns response, w') ->
    first_item response = Some (r, item, rest) ->
    JSON_parse (text item) = Some page ->
    S pageCount <= 100 ->
    pagination_fails o (cursor_of page) (S pageCount) w' ->
    pagination_fails o (Some link) pageCount w.

(** An answer of the transport that is a page of a collection with a
    cursor that can be followed. *)
Definition page_with_cursor (answer : outcome) : Prop :=
  exists r item rest fields link url,
    answer = Returns (Some r) /\
    content r = Some (item :: rest) /\
    JSON_parse (text item) = Some (JObj fields) /\
    (JSObject.get "value" fields = None \/
     exists items, JSObject.get "value" fields = Some (JArr items)) /\
    JSObject.get "@odata.nextLink" fields = Some link /\
    truthy link = true /\
    new_URL link = Some url.

(** The body of the inner [try]: the response with the text of its
    first item replaced, or [None] when something throws. *)
Definition paginate (o : options) (r : McpResponse) (item : content_item)
           (rest : list content_item) (w : world)
  : option McpResponse * world :=
  match JSON_parse (text item) with
  | None => (None, w)
  | Some combinedResponse =>
      match prop "value" combinedResponse,
            prop "@odata.nextLink" combinedResponse with
      | Some value, Some nextLink =>
          let allItems := if truthy_opt value
                          then match value with Some v => v | None => JArr [] end
                          else JArr [] in
          match fetch_pages 100 o allItems nextLink 1 w with
          | (Completed allItems' _, w') =>
              match finish combinedResponse allItems' with
              | Some c =>
                  (Some {| content :=
                             Some ({| item_type := item_type item;
                                      text := JSON_stringify c |} :: rest);
                           _meta := _meta r; isError := isError r |}, w')
              | None => (None, w')
              end
          | (_, w') => (None, w')
          end
      | _, _ => (None, w)
      end
  end.

(** [response] after the pagination block: the inner [catch] only logs. *)
Definition after_pagination (params : JSObject.t json) (o : options)
           (response : option McpResponse) (w : world)
  : option McpResponse * world :=
  match JSObject.get "fetchAllPages" params with
  | Some (JBool true) =>
      match first_item response with
      | Some (r, item, rest) =>
          match paginate o r item rest w with
          | (Some r', w') => (Some r', w')
          | (None, w') => (response, w')
          end
      | None => (response, w)
      end
  | _ => (response, w)
  end.

(** [response.content.map(...)], then the result; the message of the
    TypeError (as Node words it) when there is nothing to map. *)
Definition assemble (response : option McpResponse) : string + CallToolResult :=
  match response with
  | None => inl "Cannot read properties of undefined (reading 'content')"
  | Some r =>
      match content r with
      | None => inl "Cannot read properties of undefined (reading 'map')"
      | Some items =>
          inr {| result_content :=
                   map (fun item => {| item_type := "text"; text := text item |}) items;
                 result_meta := _meta r;
                 result_isError := isError r |}
      end
  end.

(** The body of the outer [try]: the result, or the message of the
    Error thrown.  (The logging statements, and the block that only
    logs a preview of the response inside its own [try], have no
    effect on it; the one statement before the [try] logs
    [JSON.stringify(params)], which does not throw on a bag of JSON
    values.) *)
Definition try_body (tool : endpoint) (params : JSObject.t json) (w : world)
  : (string + CallToolResult) * world :=
  match prepare tool params with
  | inl message => (inl message, w)
  | inr (path, o) =>
      match request path o w with
      | (Throws message, w') => (inl message, w')
      | (Returns response, w') =>
          let '(response', w'') := after_pagination params o response w' in
          (assemble response', w'')
      end
  end.

Definition error_result (tool : endpoint) (message : string) : CallToolResult :=
  {| result_content :=
       [ {| item_type := "text";
            text := JSON_stringify
                      (JObj [("error",
                              JStr ("Error in tool " ++ alias tool ++ ": "
                                    ++ message))]) |} ];
     result_meta := None;
     result_isError := Some true |}.

(** The handler registered for [tool]. *)
Definition handler (tool : endpoint) (params : JSObject.t json) (w : world)
  : CallToolResult * world :=
  match try_body tool params w with
  | (inr result, w') => (result, w')
  | (inl message, w') => (error_result tool message, w')
  end.

(** An invocation from a state of the transport: the result and the
    requests issued, in order. *)
Definition invoke (tool : endpoint) (params : JSObject.t json)
           (st : client_state graphClient)
  : CallToolResult * list (string * options) :=
  let '(result, w) := handler tool params (st, []) in (result, snd w).

End WithClient.

End Runtime.
End GraphTools.

(** ** src/dist/auth.js: the class [AuthManager]

    The identity library ([msalApp] and its token cache), the keychain
    ([keytar]), the file system, the clock and [fetch] are collaborators:
    a [System] answers their calls from a state of its own, and the calls
    made are recorded in order.  An [await] is a call; logging has no
    effect.  Times are milliseconds since the epoch (an [expiresOn] that
    is present is a valid date). *)
Module AuthManager.

(** A value, or the message of the Error thrown. *)
Definition result (A : Type) : Type := (string + A)%type.

Record account := { username : string }.

(** What [acquireTokenSilent] resolves to. *)
Record AuthenticationResult := {
  auth_accessToken : string;
  auth_expiresOn : option Z
}.

(** The fields of the object. *)
Record manager := {
  scopes : list string;
  accessToken : option string;
  tokenExpiry : option Z;
  oauthToken : option string;
  isOAuthMode : bool
}.

(** The calls that reach a collaborator. *)
Inductive call : Type :=
| GetAllAccounts
| AcquireTokenSilent (requested : list string) (a : account)
| RemoveAccount (a : account)
| Serialize
| Deserialize (cacheData : string)
| GetPassword
| SetPassword (cacheData : string)
| DeletePassword
| ReadFile
| WriteFile (cacheData : string)
| Unlink
| Fetch (token : string).

Section WithSystem.
Context {Num : JSNumber}.

(** What [fetch] resolves to: [ok], [status], and what [json()] and
    [text()] resolve to. *)
Record http_response := {
  ok : bool;
  status : nat;
  body_json : result json;
  body_text : result string
}.

Record System := {
  sys_state : Type;
  Date_now : sys_state -> Z;
  getAllAccounts : sys_state -> result (list account) * sys_state;
  (* [None] is a [null] response *)
  acquireTokenSilent :
    list string -> account -> sys_state -> result (option AuthenticationResult) * sys_state;
  removeAccount : account -> sys_state -> result unit * sys_state;
  serialize : sys_state -> result string * sys_state;
  deserialize : string -> sys_state -> result unit * sys_state;
  (* [None] is [null] *)
  getPassword : sys_state -> result (option string) * sys_state;
  setPassword : string -> sys_state -> result unit * sys_state;
  deletePassword : sys_state -> result bool * sys_state;
  existsSync : sys_state -> bool;
  readFileSync : sys_state -> result string * sys_state;
  writeFileSync : string -> sys_state -> result unit * sys_state;
  unlinkSync : sys_state -> result unit * sys_state;
  (* [fetch('https://graph.microsoft.com/v1.0/me')] with the bearer token *)
  fetch_me : string -> sys_state -> result http_response * sys_state
}.

Variable system : System.

Record world := {
  this : manager;
  sys : sys_state system;
  calls : list call
}.

(** Computations that read and change the object, call collaborators and
    may throw. *)
Definition M (A : Type) : Type := world -> result A * world.

Definition ret {A} (a : A) : M A := fun w => (inr a, w).

Definition throw {A} (message : string) : M A := fun w => (inl message, w).

Definition bind {A C} (m : M A) (k : A -> M C) : M C :=
  fun w => match m w with
           | (inr a, w') => k a w'
           | (inl message, w') => (inl message, w')
           end.

(** [try { m } catch (error) { handler(error.message) }] *)
Definition try_catch {A} (m : M A) (handler : string -> M A) : M A :=
  fun w => match m w with
           | (inr a, w') => (inr a, w')
           | (inl message, w') => handler message w'
           end.

Definition self : M manager := fun w => (inr (this w), w).

Definition assign (f : manager -> manager) : M unit :=
  fun w => (inr tt, {| this := f (this w); sys := sys w; calls := calls w |}).

(** A call of a collaborator, recorded. *)
Definition await {A} (c : call) (f : sys_state system -> result A * sys_state system)
  : M A :=
  fun w => let '(r, s) := f (sys w) in
           (r, {| this := this w; sys := s; calls := (calls w ++ [c])%list |}).

Definition read {A} (f : sys_state system -> A) : M A := fun w => (inr (f (sys w)), w).

Notation "x <- m ;; k" := (bind m (fun x => k))
  (at level 61, m at next level, right associativity).
Notation "m ;;; k" := (bind m (fun _ => k))
  (at level 61, right associativity).

(** A string that is truthy. *)
Definition nonempty (s : option string) : option string :=
  match s with
  | Some x => if String.eqb x "" then None else Some x
  | None => None
  end.

(** [new AuthManager(config, scopes)], given the variable
    [MS365_MCP_OAUTH_TOKEN] of the environment. *)
Definition constructor (scopes : list string) (oauthTokenFromEnv : option string)
  : manager :=
  {| scopes := scopes;
     accessToken := None;
     tokenExpiry := None;
     oauthToken := oauthTokenFromEnv;
     isOAuthMode := match oauthTokenFromEnv with Some _ => true | None => false end |}.

Definition setOAuthToken (token : string) : M unit :=
  assign (fun m => {| scopes := scopes m; accessToken := accessToken m;
                      tokenExpiry := tokenExpiry m;
                      oauthToken := Some token; isOAuthMode := true |}).

(** [this.accessToken && this.tokenExpiry && this.tokenExpiry > Date.now()
    && !forceRefresh], with the token. *)
Definition cached (m : manager) (now : Z) (forceRefresh : bool) : option string :=
  match nonempty (accessToken m), tokenExpiry m with
  | Some token, Some expiry =>
      if negb (Z.eqb expiry 0) && Z.ltb now expiry && negb forceRefresh
      then Some token else None
  | _, _ => None
  end.

Definition store (r : AuthenticationResult) : M unit :=
  assign (fun m => {| scopes := scopes m;
                      accessToken := Some (auth_accessToken r);
                      tokenExpiry := auth_expiresOn r;
                      oauthToken := oauthToken m; isOAuthMode := isOAuthMode m |}).

Definition getToken (forceRefresh : bool) : M string :=
  m <- self ;;
  match (if isOAuthMode m then nonempty (oauthToken m) else None) with
  | Some token => ret token
  | None =>
      now <- read (Date_now system) ;;
      match cached m now forceRefresh with
      | Some token => ret token
      | None =>
          accounts <- await GetAllAccounts (getAllAccounts system) ;;
          match accounts with
          | a :: _ =>
              try_catch
                (response <- await (AcquireTokenSilent (scopes m) a)
                                   (acquireTokenSilent system (scopes m) a) ;;
                 match response with
                 | Some r => store r ;;; ret (auth_accessToken r)
                 | None => throw "Cannot read properties of null (reading 'accessToken')"
                 end)
                (fun _ => throw "Silent token acquisition failed")
          | [] => throw "No valid token found"
          end
      end
  end.

Definition clear : M unit :=
  assign (fun m => {| scopes := scopes m; accessToken := None; tokenExpiry := None;
                      oauthToken := oauthToken m; isOAuthMode := isOAuthMode m |}).

(** [for (const account of accounts) await removeAccount(account)] *)
Fixpoint remove_all (accounts : list account) : M unit :=
  match accounts with
  | [] => ret tt
  | a :: rest => await (RemoveAccount a) (removeAccount system a) ;;; remove_all rest
  end.

(** The outer [catch] of [logout] logs and throws the error again. *)
Definition logout : M bool :=
  accounts <- await GetAllAccounts (getAllAccounts system) ;;
  remove_all accounts ;;;
  clear ;;;
  try_catch (await DeletePassword (deletePassword system) ;;; ret tt)
            (fun _ => ret tt) ;;;
  present <- read (existsSync system) ;;
  (if present then await Unlink (unlinkSync system) else ret tt) ;;;
  ret true.

Definition loadTokenCache : M unit :=
  try_catch
    (fromKeychain <- try_catch
                       (cachedData <- await GetPassword (getPassword system) ;;
                        ret (nonempty cachedData))
                       (fun _ => ret None) ;;
     cacheData <- match fromKeychain with
                  | Some d => ret (Some d)
                  | None =>
                      present <- read (existsSync system) ;;
                      if present
                      then d <- await ReadFile (readFileSync system) ;; ret (Some d)
                      else ret None
                  end ;;
     match nonempty cacheData with
     | Some d => await (Deserialize d) (deserialize system d)
     | None => ret tt
     end)
    (fun _ => ret tt).

Definition saveTokenCache : M unit :=
  try_catch
    (cacheData <- await Serialize (serialize system) ;;
     try_catch (await (SetPassword cacheData) (setPassword system cacheData))
               (fun _ => await (WriteFile cacheData) (writeFileSync system cacheData)))
    (fun _ => ret tt).

(** [endpoints.default.filter((e) => e.requiresWorkAccount)
    .flatMap((e) => e.scopes || [])], for a catalog whose [scopes], where
    present, are arrays. *)
Definition workScopes (endpoints : list Auth.endpoint) : list string :=
  flat_map (fun e => match Auth.scopes e with Some l => l | None => [] end)
           (filter Auth.requiresWorkAccount endpoints).

Definition hasWorkAccountPermissions (endpoints : list Auth.endpoint) : M bool :=
  try_catch
    (accounts <- await GetAllAccounts (getAllAccounts system) ;;
     match accounts with
     | [] => ret false
     | a :: _ =>
         try_catch
           (await (AcquireTokenSilent (firstn 1 (workScopes endpoints)) a)
                  (acquireTokenSilent system (firstn 1 (workScopes endpoints)) a) ;;;
            ret true)
           (fun _ => ret false)
     end)
    (fun _ => ret false).

(** A Promise already settled, awaited. *)
Definition settled {A} (r : result A) : M A := fun w => (r, w).

(** [userData.name] inside a template or an object literal: [null] has no
    properties. *)
Definition member (k : string) (userData : json) : M (option json) :=
  match userData with
  | JNull => throw ("Cannot read properties of null (reading '" ++ k ++ "')")
  | JObj fields => ret (JSObject.get k fields)
  | _ => ret None
  end.

(** The decimal form of a status code. *)
Definition decimal (n : nat) : string := NilZero.string_of_uint (Nat.to_uint n).

Record login_result := {
  success : bool;
  message : string;
  userData : option (option json * option json)  (* displayName, userPrincipalName *)
}.

Definition testLogin : M login_result :=
  try_catch
    (token <- getToken false ;;
     if String.eqb token ""
     then ret {| success := false; message := "Login failed - no token received";
                 userData := None |}
     else
       try_catch
         (response <- await (Fetch token) (fetch_me system token) ;;
          if ok response
          then
            data <- settled (body_json response) ;;
            displayName <- member "displayName" data ;;
            userPrincipalName <- member "userPrincipalName" data ;;
            ret {| success := true; message := "Login successful";
                   userData := Some (displayName, userPrincipalName) |}
          else
            settled (body_text response) ;;;
            ret {| success := false;
                   message := "Login successful but Graph API access failed: "
                              ++ decimal (status response);
                   userData := None |})
         (fun graphError =>
            ret {| success := false;
                   message := "Login successful but Graph API access failed: "
                              ++ graphError;
                   userData := None |}))
    (fun error =>
       ret {| success := false; message := "Login failed: " ++ error;
              userData := None |}).

(** *** [MicrosoftOAuthProvider] (the provider built over an
    [AuthManager]) *)

Record AuthInfo := {
  info_token : string;
  info_clientId : string;
  info_scopes : list string
}.

(** [process.env.NAME || fallback] *)
Definition env_or (value : option string) (fallback : string) : string :=
  match nonempty value with Some v => v | None => fallback end.

Definition clientId (MS365_MCP_CLIENT_ID : option string) : string :=
  env_or MS365_MCP_CLIENT_ID "084a3e9f-a9f4-43f7-89f9-d229cf97853e".

(** [verifyAccessToken]; its [catch] logs and throws the error again. *)
Definition verifyAccessToken (MS365_MCP_CLIENT_ID : option string) (token : string)
  : M AuthInfo :=
  response <- await (Fetch token) (fetch_me system token) ;;
  if ok response
  then
    data <- settled (body_json response) ;;
    member "userPrincipalName" data ;;;
    setOAuthToken token ;;;
    ret {| info_token := token; info_clientId := clientId MS365_MCP_CLIENT_ID;
           info_scopes := [] |}
  else throw ("Token verification failed: " ++ decimal (status response)).


(** [buildAllScopes()] over the catalog. *)
Definition buildAllScopes (endpoints : list Auth.endpoint) : list string :=
  Auth.buildScopesFromEndpoints endpoints true.

End WithSystem.

Arguments this {Num system} w.
Arguments sys {Num system} w.
Arguments calls {Num system} w.

End AuthManager.


(** ** A fragment of the Node runtime, to run the examples

    Numbers are the integers.  Case mapping is that of ASCII.
    [JSON.stringify] prints compactly and escapes the double quote and the
    backslash (the strings of the examples hold no control character);
    [JSON.parse] reads back the documents of a given table.  [new URL]
    accepts [https://host/path?k=v&...] without escapes.  A pattern of
    letters, digits and hyphens is a regular expression that matches as a
    substring; under the flag [i], whatever the case; [(] is not a
    regular expression.  Nothing else is used below. *)
Module Fragment.
Import JSString.

Definition Z_toString (z : Z) : string := NilEmpty.string_of_int (Z.to_int z).

#[export] Instance Z_number : JSNumber := {|
  number := Z;
  number_of_length := Z.of_nat;
  number_truthy := fun z => negb (Z.eqb z 0);
  Number_toString := Z_toString
|}.

Definition lower_char (c : ascii) : ascii :=
  if is_upper c then ascii_of_nat (nat_of_ascii c + 32) else c.

Definition upper_char (c : ascii) : ascii :=
  if is_lower c then ascii_of_nat (nat_of_ascii c - 32) else c.

Fixpoint map_string (f : ascii -> ascii) (s : string) : string :=
  match s with
  | EmptyString => EmptyString
  | String c s' => String (f c) (map_string f s')
  end.

Definition dquote : string := String (ascii_of_nat 34) EmptyString.

Fixpoint escape (s : string) : string :=
  match s with
  | EmptyString => EmptyString
  | String c s' =>
      (if (Ascii.eqb c (ascii_of_nat 34) || Ascii.eqb c "\")%char
       then String "\" (String c EmptyString)
       else String c EmptyString) ++ escape s'
  end.

Definition quote (s : string) : string := dquote ++ escape s ++ dquote.

Fixpoint stringify (v : json) : string :=
  match v with
  | JNull => "null"
  | JBool true => "true"
  | JBool false => "false"
  | JNum n => Z_toString n
  | JStr s => quote s
  | JArr items =>
      "[" ++ (fix elements (l : list json) : string :=
                match l with
                | [] => ""
                | x :: rest =>
                    stringify x
                    ++ match rest with [] => "" | _ :: _ => "," ++ elements rest end
                end) items ++ "]"
  | JObj fields =>
      "{" ++ (fix members (l : list (string * json)) : string :=
                match l with
                | [] => ""
                | (k, x) :: rest =>
                    quote k ++ ":" ++ stringify x
                    ++ match rest with [] => "" | _ :: _ => "," ++ members rest end
                end) fields ++ "}"
  end.

Definition parse (documents : list json) (s : string) : option json :=
  find (fun d => String.eqb (stringify d) s) documents.

(** The part of [s] before the first [c], and the part after it if any. *)
Fixpoint break_at (c : ascii) (s : string) : string * option string :=
  match s with
  | EmptyString => (EmptyString, None)
  | String a s' =>
      if Ascii.eqb a c then (EmptyString, Some s')
      else let '(before, after) := break_at c s' in (String a before, after)
  end.

Fixpoint split_on (c : ascii) (s : string) : list string :=
  match s with
  | EmptyString => [EmptyString]
  | String a s' =>
      if Ascii.eqb a c then EmptyString :: split_on c s'
      else match split_on c s' with
           | x :: rest => String a x :: rest
           | [] => [String a EmptyString]
           end
  end.

Definition parse_url (s : string) : option URL :=
  if startsWith "https://" s then
    match break_at "/" (drop 8 s) with
    | (EmptyString, _) => None
    | (_, None) => Some {| pathname := "/"; searchParams := [] |}
    | (_, Some rest) =>
        let '(p, q) := break_at "?" rest in
        Some {| pathname := "/" ++ p;
                searchParams :=
                  match q with
                  | None => []
                  | Some qs =>
                      map (fun kv => let '(k, v) := break_at "=" kv in
                                     (k, match v with Some v => v | None => "" end))
                          (filter (fun kv => negb (String.eqb kv "")) (split_on "&" qs))
                  end |}
    end
  else None.

Definition literal_pattern (p : string) : bool :=
  forallb (fun c => is_alnum c || Ascii.eqb c "-") (list_ascii_of_string p).

Definition node (documents : list json) : Builtins := {|
  toLowerCase := map_string lower_char;
  toUpperCase := map_string upper_char;
  JSON_parse := parse documents;
  JSON_stringify := stringify;
  URL_parse := parse_url;
  regexp := string;
  RegExp_new := fun p _ => if literal_pattern p then Some p else None;
  RegExp_test := fun r s =>
    includes (map_string lower_char r) (map_string lower_char s)
|}.

End Fragment.

(** ** Concrete inputs used in the examples *)
Module Examples.
Import Catalog.

(** A catalog whose only endpoint asks for [Mail.Read]. *)
Definition read_only_catalog : list Auth.endpoint :=
  [ {| Auth.requiresWorkAccount := false; Auth.scopes := Some ["Mail.Read"] |} ].

(** An endpoint whose path has a placeholder in braces and no declared
    parameter. *)
Definition brace_endpoint : endpoint :=
  {| method := "get"; path := "/users/{id}"; alias := "get-user";
     endpoint_description := None; parameters := None; errors := None |}.

(** An endpoint whose path has a placeholder after a colon and no
    declared parameter. *)
Definition colon_endpoint : endpoint :=
  {| method := "get"; path := "/users/:id/messages"; alias := "list-user-messages";
     endpoint_description := None; parameters := None; errors := None |}.

(** An endpoint with two placeholders after a colon, the first declared. *)
Definition two_placeholders : endpoint :=
  {| method := "get"; path := "/users/:id/messages/:messageId";
     alias := "get-user-message"; endpoint_description := None;
     parameters :=
       Some [ {| name := "id"; type := "Path"; schema := None; description := None |} ];
     errors := None |}.

(** An endpoint whose placeholder bears the name of a declared query
    parameter. *)
Definition query_id_endpoint : endpoint :=
  {| method := "get"; path := "/users/:id"; alias := "get-user-by-id";
     endpoint_description := None;
     parameters :=
       Some [ {| name := "id"; type := "Query"; schema := None; description := None |} ];
     errors := None |}.

(** Three read endpoints and two write endpoints. *)
Definition simple_endpoint (m p a : string) : endpoint :=
  {| method := m; path := p; alias := a; endpoint_description := None;
     parameters := Some []; errors := None |}.

Definition five_endpoints : list endpoint :=
  [ simple_endpoint "get" "/me/messages" "list-mail-messages";
    simple_endpoint "post" "/me/sendMail" "send-mail";
    simple_endpoint "get" "/me/events" "list-calendar-events";
    simple_endpoint "post" "/me/events" "create-calendar-event";
    simple_endpoint "get" "/me/drive" "get-drive" ].

(** *** Invocations *)
Import Fragment GraphTools.

Definition link (skip : string) : json :=
  JStr ("https://graph.microsoft.com/v1.0/me/messages?$skip=" ++ skip).

(** Pages of a collection: their items, and the cursor if there is one. *)
Definition page1 : json :=
  JObj [("value", JArr [JNum 1%Z]); ("@odata.nextLink", link "1")].
Definition page2 : json :=
  JObj [("value", JArr [JNum 2%Z]); ("@odata.nextLink", link "2")].
Definition page2_last : json :=
  JObj [("value", JArr [JNum 2%Z])].
(** A first page that carries a count of zero. *)
Definition page1_count0 : json :=
  JObj [("@odata.count", JNum 0%Z); ("value", JArr [JNum 1%Z]);
        ("@odata.nextLink", link "1")].

(** The texts [JSON.parse] reads in the examples. *)
Definition documents : list json := [page1; page2; page2_last; page1_count0].

Definition runtime : Builtins := Fragment.node documents.

(** The answer of the transport that carries a document. *)
Definition respond (document : json) : outcome :=
  text_response (stringify document).

Definition list_messages : endpoint :=
  {| method := "get"; path := "/me/messages"; alias := "list-mail-messages";
     endpoint_description := None;
     parameters :=
       Some [ {| name := "filter"; type := "Query"; schema := None; description := None |};
              {| name := "Prefer"; type := "Header"; schema := None; description := None |};
              {| name := "body"; type := "Body"; schema := None; description := None |} ];
     errors := None |}.

Definition all_pages : JSObject.t json := [("fetchAllPages", JBool true)].

(** A bag that binds a query, a header and a body parameter. *)
Definition filtered_with_body : JSObject.t json :=
  [("filter", JStr "isRead eq false"); ("Prefer", JStr "outlook.body-content-type");
   ("body", JObj [("subject", JStr "hello")])].

(** Two pages, then the transport fails. *)
Definition fails_on_third : GraphClient :=
  scripted [respond page1; respond page2; Throws "socket hang up"].

(** One page, then the transport fails. *)
Definition fails_on_second : GraphClient :=
  scripted [respond page1; Throws "socket hang up"].

(** Two pages, the first with a count of zero. *)
Definition two_pages_count0 : GraphClient :=
  scripted [respond page1_count0; respond page2_last].

(** Every answer is a page with a cursor. *)
Definition endless : GraphClient := constant (respond page1).

(** A path that names the same parameter twice. *)
Definition member_of_itself : endpoint :=
  {| method := "get"; path := "/groups/{id}/members/{id}";
     alias := "get-group-member"; endpoint_description := None;
     parameters :=
       Some [ {| name := "id"; type := "Path"; schema := None; description := None |} ];
     errors := None |}.

Definition member_of_itself_colon : endpoint :=
  {| method := "get"; path := "/groups/:id/members/:id";
     alias := "get-group-member"; endpoint_description := None;
     parameters :=
       Some [ {| name := "id"; type := "Path"; schema := None; description := None |} ];
     errors := None |}.

(** The two items of the first two pages, aggregated. *)
Definition aggregate_1_2 : json :=
  JObj [("value", JArr [JNum 1%Z; JNum 2%Z])].
Definition aggregate_1_2_count0 : json :=
  JObj [("@odata.count", JNum 0%Z); ("value", JArr [JNum 1%Z; JNum 2%Z])].

Definition id_42 : JSObject.t json := [("id", JStr "42")].

End Examples.

(** ** Further inputs for the examples *)
Module Samples.
Import Catalog Fragment GraphTools Examples.

(** A document that is no collection. *)
Definition profile : json := JObj [("displayName", JStr "Ada")].

(** The runtime of the examples, reading that document too. *)
Definition runtime_with_profile : Builtins := Fragment.node (profile :: documents).

Definition profile_fields : JSObject.t json := [("displayName", JStr "Ada")].

Definition one_profile : GraphClient := scripted [respond profile].

(** The fields and the items of [page1]. *)
Definition page1_fields : JSObject.t json :=
  [("value", JArr [JNum 1%Z]); ("@odata.nextLink", link "1")].
Definition page1_items : list json := [JNum 1%Z].

(** A first page with a cursor, then a response without content. *)
Definition empty_second : GraphClient := scripted [respond page1; Returns None].


(** A write endpoint with a body parameter. *)
Definition send_mail : endpoint :=
  {| method := "post"; path := "/me/sendMail"; alias := "send-mail";
     endpoint_description := None;
     parameters :=
       Some [ {| name := "body"; type := "Body"; schema := None; description := None |} ];
     errors := None |}.

(** A body that is no JSON text. *)
Definition raw_text : json := JStr "not json".
Definition raw_body : JSObject.t json := [("body", raw_text)].

(** The locals of the handler after a loop that only assigned [body]. *)
Definition with_body (tool : endpoint) (body : json) : translation :=
  {| t_path := path tool; t_queryParams := []; t_headers := []; t_body := body |}.

(** A body that is the text of a JSON document. *)
Definition json_text : json := JStr (stringify page2_last).
Definition json_body : JSObject.t json := [("body", json_text)].


(** A download endpoint, and a bag that binds a query parameter. *)
Definition download : endpoint :=
  {| method := "get"; path := "/me/drive/root/content"; alias := "download-root";
     endpoint_description := None;
     parameters :=
       Some [ {| name := "select"; type := "Query"; schema := None; description := None |} ];
     errors := None |}.

Definition select_name : JSObject.t json := [("select", JStr "name")].

(** An endpoint with a placeholder after a colon, its parameter declared. *)
Definition user_messages : endpoint :=
  {| method := "get"; path := "/users/:id/messages"; alias := "list-user-messages";
     endpoint_description := None;
     parameters :=
       Some [ {| name := "id"; type := "Path"; schema := None; description := None |} ];
     errors := None |}.

Definition id_with_slash : json := JStr "a/b".


Definition id_bag : JSObject.t json := [("id", id_with_slash)].

(** The locals of the handler before the loop. *)
Definition initial (tool : endpoint) : translation :=
  {| t_path := path tool; t_queryParams := []; t_headers := []; t_body := JNull |}.


(** Parameters as the catalog declares OData ones. *)
Definition dollar_top : parameter :=
  {| name := "$top"; type := "Query"; schema := None; description := None |}.
Definition dollar_orderby : parameter :=
  {| name := "$orderby"; type := "Query"; schema := None; description := None |}.





(** A bag whose filter is an object with a [toString] of its own. *)
Definition unprintable_filter : JSObject.t json :=
  [("filter", JObj [("toString", JNum 1%Z)])].


(** *** Collaborators with fixed answers *)
Import AuthManager.

Definition ada : account := {| username := "ada@example.org" |}.

Definition fresh_token : AuthenticationResult :=
  {| auth_accessToken := "eyJ.fresh"; auth_expiresOn := Some 2000%Z |}.

(** A system whose collaborators always answer the same: the clock, the
    accounts of the cache, silent acquisition, the keychain on reading and
    on writing, the content of the fallback file if it exists, and
    [fetch]. *)
Definition fixed_system (now : Z) (accounts : result (list account))
           (silent : result (option AuthenticationResult))
           (keychain : result (option string)) (keychain_write : result unit)
           (file : option string) (me : result http_response) : System :=
  {| sys_state := unit;
     Date_now := fun _ => now;
     getAllAccounts := fun s => (accounts, s);
     acquireTokenSilent := fun _ _ s => (silent, s);
     removeAccount := fun _ s => (inr tt, s);
     serialize := fun s => (inr "serialized cache", s);
     deserialize := fun _ s => (inr tt, s);
     getPassword := fun s => (keychain, s);
     setPassword := fun _ s => (keychain_write, s);
     deletePassword := fun s => (match keychain_write with
                                 | inl m => inl m
                                 | inr _ => inr true
                                 end, s);
     existsSync := fun _ => match file with Some _ => true | None => false end;
     readFileSync := fun s => (match file with
                               | Some d => inr d
                               | None => inl "ENOENT: no such file or directory"
                               end, s);
     writeFileSync := fun _ s => (inr tt, s);
     unlinkSync := fun s => (inr tt, s);
     fetch_me := fun _ s => (me, s) |}.

(** One account, silent acquisition succeeds, the keychain is locked, no
    fallback file, Graph answers 401. *)
Definition unauthorized : http_response :=
  {| ok := false; status := 401; body_json := inl "Unexpected end of JSON input";
     body_text := inr "" |}.

Definition signed_in : System :=
  fixed_system 1000 (inr [ada]) (inr (Some fresh_token))
               (inl "keychain locked") (inl "keychain locked") None (inr unauthorized).

(** No account in the cache; the keychain holds a cache; Graph answers
    with a user. *)
Definition me_ada : http_response :=
  {| ok := true; status := 200;
     body_json := inr (JObj [("displayName", JStr "Ada");
                             ("userPrincipalName", JStr "ada@example.org")]);
     body_text := inr "" |}.

Definition signed_out : System :=
  fixed_system 1000 (inr []) (inl "no_account_error")
               (inr (Some "keychain cache")) (inr tt) (Some "file cache") (inr me_ada).

(** A catalog: an endpoint for anyone, then three that require a work
    account, the first of them without scopes. *)
Definition mail_reader : Auth.endpoint :=
  {| Auth.requiresWorkAccount := false; Auth.scopes := Some ["Mail.Read"] |}.
Definition work_without_scopes : Auth.endpoint :=
  {| Auth.requiresWorkAccount := true; Auth.scopes := None |}.
Definition sites_reader : Auth.endpoint :=
  {| Auth.requiresWorkAccount := true;
     Auth.scopes := Some ["Sites.Read.All"; "Sites.ReadWrite.All"] |}.
Definition sites_writer : Auth.endpoint :=
  {| Auth.requiresWorkAccount := true; Auth.scopes := Some ["Sites.Manage.All"] |}.
Definition work_catalog : list Auth.endpoint :=
  [mail_reader; work_without_scopes; sites_reader; sites_writer].

(** A manager that holds a token valid until 5000. *)
Definition with_cached_token (system : System) (s : sys_state system) : world system :=
  {| this := {| scopes := ["User.Read"];
                accessToken := Some "eyJ.cached";
                tokenExpiry := Some 5000%Z;
                oauthToken := None;
                isOAuthMode := false |};
     sys := s; calls := [] |}.

(** The world of a fresh manager. *)
Definition start (system : System) (s : sys_state system) (scopes : list string)
           (oauthTokenFromEnv : option string) : world system :=
  {| this := constructor scopes oauthTokenFromEnv; sys := s; calls := [] |}.

(** A system with a keychain and a fallback file that keep what is
    written to them; the cache deserialized last is recorded. *)
Record storage := {
  storage_locked : bool;
  storage_keychain : option string;
  storage_file : option string;
  storage_loaded : option string
}.

Definition storing (me : result http_response) : System :=
  {| sys_state := storage;
     Date_now := fun _ => 1000%Z;
     getAllAccounts := fun s => (inr [ada], s);
     acquireTokenSilent := fun _ _ s => (inr (Some fresh_token), s);
     removeAccount := fun _ s => (inr tt, s);
     serialize := fun s => (inr "serialized cache", s);
     deserialize := fun d s =>
       (inr tt, {| storage_locked := storage_locked s;
                   storage_keychain := storage_keychain s;
                   storage_file := storage_file s;
                   storage_loaded := Some d |});
     getPassword := fun s =>
       (if storage_locked s then inl "keychain locked" else inr (storage_keychain s), s);
     setPassword := fun d s =>
       if storage_locked s then (inl "keychain locked", s)
       else (inr tt, {| storage_locked := false;
                        storage_keychain := Some d;
                        storage_file := storage_file s;
                        storage_loaded := storage_loaded s |});
     deletePassword := fun s =>
       if storage_locked s then (inl "keychain locked", s)
       else (inr (match storage_keychain s with Some _ => true | None => false end),
             {| storage_locked := false;
                storage_keychain := None;
                storage_file := storage_file s;
                storage_loaded := storage_loaded s |});
     existsSync := fun s => match storage_file s with Some _ => true | None => false end;
     readFileSync := fun s =>
       (match storage_file s with
        | Some d => inr d
        | None => inl "ENOENT: no such file or directory"
        end, s);
     writeFileSync := fun d s =>
       (inr tt, {| storage_locked := storage_locked s;
                   storage_keychain := storage_keychain s;
                   storage_file := Some d;
                   storage_loaded := storage_loaded s |});
     unlinkSync := fun s =>
       (inr tt, {| storage_locked := storage_locked s;
                   storage_keychain := storage_keychain s;
                   storage_file := None;
                   storage_loaded := storage_loaded s |});
     fetch_me := fun _ s => (me, s) |}.

Definition empty_storage (locked : bool) : storage :=
  {| storage_locked := locked; storage_keychain := None; storage_file := None;
     storage_loaded := None |}.


End Samples.


(* ===================================================================== *)
(** * Part II.  Properties                                                *)
(* ===================================================================== *)

(** ** Sets *)

Lemma JSSet_has_In (x : string) (s : JSSet.t) : JSSet.has x s = true <-> In x s.
Proof.
  unfold JSSet.has. rewrite existsb_exists. split.
  - intros [y [Hy E]]. apply String.eqb_eq in E. now subst.
  - intros H. exists x. split; [assumption | apply String.eqb_refl].
Qed.

Lemma JSSet_in_add (x y : string) (s : JSSet.t) :
  In y (JSSet.add x s) <-> y = x \/ In y s.
Proof.
  unfold JSSet.add. destruct (JSSet.has x s) eqn:E.
  - apply JSSet_has_In in E. split; [auto | intros [-> | H]; assumption].
  - rewrite in_app_iff. simpl. intuition.
Qed.

Lemma JSSet_in_delete (x y : string) (s : JSSet.t) :
  In y (JSSet.delete x s) <-> In y s /\ x <> y.
Proof.
  unfold JSSet.delete. rewrite filter_In, negb_true_iff, String.eqb_neq. tauto.
Qed.

Lemma JSSet_in_add_all (l : list string) (y : string) (s : JSSet.t) :
  In y (fold_left (fun s scope => JSSet.add scope s) l s) <-> In y l \/ In y s.
Proof.
  revert s. induction l as [|x l IH]; intros s; simpl.
  - tauto.
  - rewrite IH, JSSet_in_add. intuition.
Qed.

Lemma JSSet_in_delete_all (l : list string) (y : string) (s : JSSet.t) :
  In y (fold_left (fun s scope => JSSet.delete scope s) l s) <-> In y s /\ ~ In y l.
Proof.
  revert s. induction l as [|x l IH]; intros s; simpl.
  - tauto.
  - rewrite IH, JSSet_in_delete. intuition.
Qed.

(** ** Scope aggregation *)
Section Scopes.
Import Auth.

Lemma in_collect_endpoint inc s e y :
  In y (collect_endpoint inc s e) <->
  In y s \/ (requiresWorkAccount e && negb inc = false /\
             exists l, scopes e = Some l /\ In y l).
Proof.
  unfold collect_endpoint.
  destruct (requiresWorkAccount e && negb inc) eqn:E.
  - split; [auto | intros [H | [H _]]; [assumption | discriminate]].
  - destruct (scopes e) as [l|].
    + rewrite JSSet_in_add_all. split.
      * intros [H | H]; [right; split; [reflexivity | now exists l] | now left].
      * intros [H | [_ [l' [[= <-] H]]]]; auto.
    + split; [auto | intros [H | [_ [l' [[=] _]]]]; assumption].
Qed.

Lemma in_collect_from inc eps s y :
  In y (fold_left (collect_endpoint inc) eps s) <-> In y s \/ grants eps inc y.
Proof.
  revert s. induction eps as [|e eps IH]; intros s; simpl.
  - split; [auto | intros [H | [e [l [[] _]]]]; assumption].
  - rewrite IH, in_collect_endpoint. unfold grants. split.
    + intros [[H | [H1 [l [H2 H3]]]] | [e' [l [H1 H2]]]].
      * now left.
      * right. exists e, l. simpl. auto.
      * right. exists e', l. simpl. tauto.
    + intros [H | [e' [l [[-> | H1] [H2 [H3 H4]]]]]].
      * auto.
      * left. right. split; [assumption | now exists l].
      * right. exists e', l. auto.
Qed.

(** The collected set holds exactly the scopes the catalog grants. *)
Lemma in_collect eps inc y : In y (collect eps inc) <-> grants eps inc y.
Proof.
  unfold collect. rewrite in_collect_from. unfold JSSet.empty. simpl. tauto.
Qed.

(** An entry changes the membership of the names it mentions only. *)
Lemma collapse_entry_other s entry y :
  ~ In y (mentions entry) -> (In y (collapse_entry s entry) <-> In y s).
Proof.
  destruct entry as [W Rs]. unfold mentions, collapse_entry. simpl. intros H.
  destruct (forallb _ Rs); [| tauto].
  rewrite JSSet_in_add, JSSet_in_delete_all. intuition congruence.
Qed.

Lemma collapse_other h s y :
  (forall entry, In entry h -> ~ In y (mentions entry)) ->
  (In y (collapse h s) <-> In y s).
Proof.
  unfold collapse. revert s. induction h as [|e h IH]; intros s H; simpl.
  - tauto.
  - rewrite IH by (intros; apply H; now right).
    apply collapse_entry_other, H. now left.
Qed.

(** What one entry does to the names it mentions. *)
Lemma collapse_entry_covered s W Rs :
  ~ In W Rs -> (forall r, In r Rs -> In r s) ->
  In W (collapse_entry s (W, Rs)) /\
  forall r, In r Rs -> ~ In r (collapse_entry s (W, Rs)).
Proof.
  intros HW Hall. unfold collapse_entry.
  assert (E : forallb (fun scope => JSSet.has scope s) Rs = true).
  { apply forallb_forall. intros r Hr. now apply JSSet_has_In, Hall. }
  rewrite E. split.
  - apply JSSet_in_add. now left.
  - intros r Hr. rewrite JSSet_in_add, JSSet_in_delete_all.
    intros [-> | [_ H]]; contradiction.
Qed.

Lemma collapse_entry_uncovered s W Rs r :
  In r Rs -> ~ In r s -> collapse_entry s (W, Rs) = s.
Proof.
  intros Hr Hn. unfold collapse_entry.
  destruct (forallb _ Rs) eqn:E; [| reflexivity].
  rewrite forallb_forall in E. apply E, JSSet_has_In in Hr. contradiction.
Qed.

Lemma NoDup_app_disjoint (l l' : list string) y :
  NoDup (l ++ l')%list -> In y l -> In y l' -> False.
Proof.
  induction l as [|z l IH]; simpl; intros H Hl Hl'; [contradiction |].
  inversion H; subst. destruct Hl as [-> | Hl].
  - apply H2, in_or_app. now right.
  - now apply IH.
Qed.

(** A name of a separated table belongs to one entry. *)
Lemma separated_split (h1 : hierarchy) e (h2 : hierarchy) y :
  separated (h1 ++ e :: h2)%list -> In y (mentions e) ->
  (forall e', In e' h1 -> ~ In y (mentions e')) /\
  (forall e', In e' h2 -> ~ In y (mentions e')) /\
  NoDup (mentions e).
Proof.
  unfold separated. rewrite flat_map_app.
  change (flat_map mentions (e :: h2))
    with (mentions e ++ flat_map mentions h2)%list.
  intros H Hy.
  pose proof (NoDup_app_remove_l _ _ H) as H2.
  pose proof (NoDup_app_remove_r _ _ H2) as H3.
  repeat split; [| | assumption].
  - intros e' He' Hy'.
    apply (NoDup_app_disjoint _ _ y H).
    + apply in_flat_map; eauto.
    + apply in_or_app. now left.
  - intros e' He' Hy'.
    apply (NoDup_app_disjoint _ _ y H2); [assumption |].
    apply in_flat_map; eauto.
Qed.

(** The general form: in a separated table, the entry [(W, Rs)] alone
    decides about [W] and [Rs]. *)
Lemma collapse_covered h W Rs s :
  separated h -> In (W, Rs) h -> (forall r, In r Rs -> In r s) ->
  In W (collapse h s) /\ forall r, In r Rs -> ~ In r (collapse h s).
Proof.
  intros Hsep Hin Hall.
  destruct (in_split _ _ Hin) as [h1 [h2 ->]].
  assert (Hm : forall y, In y (mentions (W, Rs)) ->
               (forall e', In e' h1 -> ~ In y (mentions e')) /\
               (forall e', In e' h2 -> ~ In y (mentions e')) /\
               NoDup (mentions (W, Rs))).
  { intros y Hy. now apply separated_split. }
  assert (HW : ~ In W Rs).
  { destruct (Hm W (or_introl eq_refl)) as [_ [_ Hnd]].
    now inversion Hnd. }
  unfold collapse. rewrite fold_left_app. cbn [fold_left].
  fold (collapse h1 s). fold (collapse h2 (collapse_entry (collapse h1 s) (W, Rs))).
  destruct (collapse_entry_covered (collapse h1 s) W Rs HW) as [H1 H2].
  { intros r Hr. apply collapse_other; [| now apply Hall].
    apply (Hm r). now right. }
  split.
  - apply collapse_other; [| assumption]. apply (Hm W). now left.
  - intros r Hr. rewrite collapse_other; [now apply H2 |].
    apply (Hm r). now right.
Qed.

Lemma collapse_uncovered h W Rs s r y :
  separated h -> In (W, Rs) h -> In r Rs -> ~ In r s ->
  In y (mentions (W, Rs)) ->
  (In y (collapse h s) <-> In y s).
Proof.
  intros Hsep Hin Hr Hn Hy.
  destruct (in_split _ _ Hin) as [h1 [h2 ->]].
  destruct (separated_split _ _ _ y Hsep Hy) as [Hy1 [Hy2 _]].
  destruct (separated_split _ _ _ r Hsep (or_intror Hr)) as [Hr1 _].
  unfold collapse. rewrite fold_left_app. cbn [fold_left].
  fold (collapse h1 s). fold (collapse h2 (collapse_entry (collapse h1 s) (W, Rs))).
  rewrite collapse_other by assumption.
  rewrite (collapse_entry_uncovered _ W Rs r Hr).
  - now apply collapse_other.
  - rewrite collapse_other; assumption.
Qed.

Lemma SCOPE_HIERARCHY_separated : separated SCOPE_HIERARCHY.
Proof.
  unfold separated. simpl.
  repeat (constructor; [simpl; intuition discriminate |]). constructor.
Qed.

End Scopes.

(** When a read scope of an entry is not granted, the entry leaves the
    scopes it mentions as they were collected. *)
Lemma scope_entry_untouched W Rs r eps inc y :
  In (W, Rs) Auth.SCOPE_HIERARCHY -> In r Rs -> ~ Auth.grants eps inc r ->
  In y (W :: Rs) ->
  (In y (Auth.buildScopesFromEndpoints eps inc) <-> Auth.grants eps inc y).
Proof.
  intros Hin Hr Hn Hy.
  unfold Auth.buildScopesFromEndpoints, Auth.buildScopesFrom, JSSet.to_array.
  rewrite (collapse_uncovered _ W Rs _ r y SCOPE_HIERARCHY_separated Hin Hr).
  - apply in_collect.
  - now rewrite in_collect.
  - exact Hy.
Qed.

(** C1, as amended.  For an entry [(W, Rs)] of the scope hierarchy and a
    catalog that grants every read scope of [Rs], the output of the scope
    aggregator contains [W] and none of [Rs] -- whether or not an endpoint
    grants [W] itself.  (A catalog granting only [R] therefore yields [W]
    and not [R].) *)
Theorem scope_write_supersedes_reads W Rs eps inc :
  In (W, Rs) Auth.SCOPE_HIERARCHY ->
  (forall r, In r Rs -> Auth.grants eps inc r) ->
  In W (Auth.buildScopesFromEndpoints eps inc) /\
  forall r, In r Rs -> ~ In r (Auth.buildScopesFromEndpoints eps inc).
Proof.
  intros Hin Hall.
  unfold Auth.buildScopesFromEndpoints, Auth.buildScopesFrom, JSSet.to_array.
  apply collapse_covered.
  - exact SCOPE_HIERARCHY_separated.
  - exact Hin.
  - intros r Hr. now apply in_collect, Hall.
Qed.

Lemma scope_write_supersedes_reads_witness :
  In "Mail.ReadWrite"
     (Auth.buildScopesFromEndpoints Examples.read_only_catalog false) /\
  forall r, In r ["Mail.Read"] ->
            ~ In r (Auth.buildScopesFromEndpoints Examples.read_only_catalog false).
Proof.
  apply (scope_write_supersedes_reads "Mail.ReadWrite" ["Mail.Read"]).
  - simpl. auto.
  - intros r [<- | []].
    exists {| Auth.requiresWorkAccount := false; Auth.scopes := Some ["Mail.Read"] |},
           ["Mail.Read"].
    simpl. auto.
Defined.

(** C1 as stated fails: the catalog grants only [Mail.Read], and the output
    is [Mail.ReadWrite] alone -- it contains the write scope and not the
    read scope. *)
Lemma scope_read_only_counterexample :
  In ("Mail.ReadWrite", ["Mail.Read"]) Auth.SCOPE_HIERARCHY /\
  Auth.buildScopesFromEndpoints Examples.read_only_catalog false = ["Mail.ReadWrite"] /\
  ~ (In "Mail.Read" (Auth.buildScopesFromEndpoints Examples.read_only_catalog false) /\
     ~ In "Mail.ReadWrite" (Auth.buildScopesFromEndpoints Examples.read_only_catalog false)).
Proof.
  split; [simpl; auto |]. split; [reflexivity |].
  intros [_ H]. apply H. simpl. auto.
Qed.

(** ** Catalog load *)
Section CatalogLoad.
Import Catalog Hack JSString.

Lemma alnum_not_marker (c : ascii) :
  is_alnum c = true -> (Ascii.eqb c "$" || Ascii.eqb c "_")%char = false.
Proof.
  destruct c as [[] [] [] [] [] [] [] []]; vm_compute; congruence.
Qed.

Lemma strip_markers_alnum_prefix (s : string) :
  strip_markers (alnum_prefix s) = alnum_prefix s.
Proof.
  induction s as [|c s IH]; simpl; [reflexivity |].
  destruct (is_alnum c) eqn:E; simpl; [| reflexivity].
  now rewrite (alnum_not_marker c E), IH.
Qed.

(** A capture of the placeholder pattern holds no marker character. *)
Lemma pathParams_clean (s n : string) :
  In n (pathParams s) -> strip_markers n = n.
Proof.
  induction s as [|c s IH]; simpl; [contradiction |].
  destruct (Ascii.eqb c ":" && negb (String.eqb (alnum_prefix s) "")); [| exact IH].
  intros [<- | H]; [apply strip_markers_alnum_prefix | now apply IH].
Qed.

(** The loop only appends. *)
Lemma ensure_param_keeps params n p :
  In p params -> In p (ensure_param params n).
Proof.
  unfold ensure_param. destruct (existsb _ params); [auto |].
  intros H. apply in_or_app. now left.
Qed.

Lemma ensure_params_keep names params p :
  In p params -> In p (fold_left ensure_param names params).
Proof.
  revert params. induction names as [|m names IH]; intros params H; simpl.
  - exact H.
  - now apply IH, ensure_param_keeps.
Qed.

Lemma ensure_param_named params n :
  strip_markers n = n -> exists p, In p (ensure_param params n) /\ name p = n.
Proof.
  intros Hn. unfold ensure_param. rewrite Hn.
  destruct (existsb _ params) eqn:E.
  - apply existsb_exists in E as [p [Hp E]]. exists p. split; [assumption |].
    apply orb_true_iff in E as [E | E]; now apply String.eqb_eq in E.
  - exists (newParam n). split; [| reflexivity].
    apply in_or_app. right. now left.
Qed.

Lemma ensure_params_named names params n :
  In n names -> strip_markers n = n ->
  exists p, In p (fold_left ensure_param names params) /\ name p = n.
Proof.
  revert params. induction names as [|m names IH]; intros params Hin Hn;
    [contradiction |].
  simpl. destruct (string_dec m n) as [-> | Hne].
  - destruct (ensure_param_named params n Hn) as [p [Hp E]].
    exists p. split; [| exact E]. now apply ensure_params_keep.
  - destruct Hin as [E | Hin]; [contradiction |]. now apply IH.
Qed.

Lemma ensure_param_fresh params m n :
  m <> n -> (forall p, In p params -> name p <> n) ->
  forall p, In p (ensure_param params m) -> name p <> n.
Proof.
  intros Hne H p. unfold ensure_param. destruct (existsb _ params); [apply H |].
  intros Hp. apply in_app_or in Hp as [Hp | [<- | []]]; [now apply H | exact Hne].
Qed.

Lemma ensure_params_synthesized names params n :
  In n names -> strip_markers n = n ->
  (forall p, In p params -> name p <> n) ->
  In (newParam n) (fold_left ensure_param names params).
Proof.
  revert params. induction names as [|m names IH]; intros params Hin Hn Hfresh;
    [contradiction |].
  simpl. destruct (string_dec m n) as [-> | Hne].
  - apply ensure_params_keep. unfold ensure_param. rewrite Hn.
    destruct (existsb _ params) eqn:E.
    + apply existsb_exists in E as [p [Hp E]]. exfalso. apply (Hfresh p Hp).
      apply orb_true_iff in E as [E | E]; now apply String.eqb_eq in E.
    + apply in_or_app. right. now left.
  - destruct Hin as [E | Hin]; [contradiction |].
    apply IH; [assumption | assumption |].
    now apply ensure_param_fresh.
Qed.

(** The run of letters and digits a string starts with. *)
Lemma alnum_prefix_app (n b : string) :
  forallb is_alnum (list_ascii_of_string n) = true ->
  match b with String c _ => is_alnum c = false | EmptyString => True end ->
  alnum_prefix (n ++ b) = n.
Proof.
  intros Hn Hb. induction n as [|c n IH]; simpl in *.
  - destruct b as [|c b]; [reflexivity |]. simpl. now rewrite Hb.
  - apply andb_true_iff in Hn as [Hc Hn]. now rewrite Hc, IH.
Qed.

Lemma alnum_prefix_split (s : string) :
  exists b,
    s = alnum_prefix s ++ b /\
    forallb is_alnum (list_ascii_of_string (alnum_prefix s)) = true /\
    match b with String c _ => is_alnum c = false | EmptyString => True end.
Proof.
  induction s as [|c s [b [Hs [Ha Hb]]]]; simpl.
  - now exists "".
  - destruct (is_alnum c) eqn:Ec.
    + exists b. simpl. rewrite Ec, Ha. split; [now rewrite <- Hs | now split].
    + exists (String c s). simpl. now repeat split.
Qed.

Lemma pathParams_app (a s n : string) :
  In n (pathParams s) -> In n (pathParams (a ++ s)).
Proof.
  intros H. induction a as [|c a IH]; simpl; [exact H |].
  destruct (Ascii.eqb c ":" && negb (String.eqb (alnum_prefix (a ++ s)) ""));
    [now right | exact IH].
Qed.

(** Every colon followed by a letter or a digit starts a placeholder,
    named by the run of letters and digits after it. *)
Lemma pathParams_placeholder (a n b : string) :
  n <> "" ->
  forallb is_alnum (list_ascii_of_string n) = true ->
  match b with String c _ => is_alnum c = false | EmptyString => True end ->
  In n (pathParams (a ++ ":" ++ n ++ b)).
Proof.
  intros Hne Hn Hb. apply pathParams_app.
  change (":" ++ n ++ b) with (String ":" (n ++ b)). cbn [pathParams].
  rewrite (alnum_prefix_app n b Hn Hb).
  apply String.eqb_neq in Hne. rewrite Hne. now left.
Qed.

(** And the scan finds nothing else. *)
Lemma pathParams_inv (s n : string) :
  In n (pathParams s) ->
  exists a b,
    s = a ++ ":" ++ n ++ b /\ n <> "" /\
    forallb is_alnum (list_ascii_of_string n) = true /\
    match b with String c _ => is_alnum c = false | EmptyString => True end.
Proof.
  induction s as [|c s IH]; simpl; [contradiction |].
  assert (Hrest : In n (pathParams s) ->
                  exists a b,
                    String c s = a ++ ":" ++ n ++ b /\ n <> "" /\
                    forallb is_alnum (list_ascii_of_string n) = true /\
                    match b with
                    | String c _ => is_alnum c = false
                    | EmptyString => True
                    end).
  { intros H. destruct (IH H) as [a [b [Hs H']]].
    exists (String c a), b. split; [now rewrite Hs | exact H']. }
  destruct (Ascii.eqb_spec c ":") as [-> | _]; [| exact Hrest].
  destruct (String.eqb_spec (alnum_prefix s) "") as [_ | Hne]; [exact Hrest |].
  cbn [andb negb]. intros [<- | H]; [| now apply Hrest].
  destruct (alnum_prefix_split s) as [b [Hs [Ha Hb]]].
  exists "", b. split; [simpl; now rewrite <- Hs | now repeat split].
Qed.

End CatalogLoad.

(** C9, as amended.  After catalog load, every placeholder of the [:name]
    form in an endpoint's path -- a colon followed by a run of letters and
    digits, the name being the whole run -- has a parameter definition of
    that name.  The loader matches the declared parameters by name only
    (once [$] and [_] are stripped), whatever their kind: the definition is
    of kind [Path] when every declared parameter of that name is, and when
    the catalog entry declares none, the one the loader synthesizes is
    there: of kind [Path], with a string schema.  The [{name}] form is not
    looked at. *)
Theorem loaded_colon_placeholders_have_parameters
        (e : Catalog.endpoint) (a n b : string) :
  Catalog.path e = a ++ ":" ++ n ++ b ->
  n <> "" ->
  forallb JSString.is_alnum (list_ascii_of_string n) = true ->
  match b with
  | String c _ => JSString.is_alnum c = false
  | EmptyString => True
  end ->
  let declared := match Catalog.parameters e with Some l => l | None => [] end in
  exists params,
    Catalog.parameters (Hack.load_endpoint e) = Some params /\
    (exists p, In p params /\ Catalog.name p = n) /\
    ((forall q, In q declared -> JSString.strip_markers (Catalog.name q) = n ->
                Catalog.type q = "Path") ->
     exists p, In p params /\ Catalog.name p = n /\ Catalog.type p = "Path") /\
    ((forall q, In q declared -> JSString.strip_markers (Catalog.name q) <> n) ->
     In {| Catalog.name := n;
           Catalog.type := "Path";
           Catalog.schema := Some (Catalog.ZString ("Path parameter: " ++ n));
           Catalog.description := Some ("Path parameter: " ++ n) |} params).
Proof.
  intros Hpath Hne Halnum Hb declared.
  assert (Hin : In n (Hack.pathParams (Catalog.path e))).
  { rewrite Hpath. now apply pathParams_placeholder. }
  pose proof (pathParams_clean _ _ Hin) as Hn.
  assert (Hsynth : (forall q, In q declared ->
                              JSString.strip_markers (Catalog.name q) <> n) ->
                   In (Hack.newParam n)
                      (fold_left Hack.ensure_param (Hack.pathParams (Catalog.path e))
                                 (map Hack.sanitize declared))).
  { intros Hfresh. apply ensure_params_synthesized; [assumption | assumption |].
    intros p Hp. apply in_map_iff in Hp as [q [<- Hq]]. simpl. now apply Hfresh. }
  eexists. split; [reflexivity |]. split; [| split].
  - now apply ensure_params_named.
  - intros Hkind.
    destruct (existsb (fun q => String.eqb (JSString.strip_markers (Catalog.name q)) n)
                      declared) eqn:Ex.
    + apply existsb_exists in Ex as [q [Hq Eq]]. apply String.eqb_eq in Eq.
      exists (Hack.sanitize q). split; [| split].
      * apply ensure_params_keep. now apply in_map.
      * exact Eq.
      * simpl. now apply Hkind.
    + exists (Hack.newParam n). split; [| now split].
      apply Hsynth. intros q Hq Eq.
      assert (existsb (fun q => String.eqb (JSString.strip_markers (Catalog.name q)) n)
                      declared = true); [| congruence].
      apply existsb_exists. exists q. split; [exact Hq | now apply String.eqb_eq].
  - exact Hsynth.
Qed.

Lemma loaded_colon_placeholders_have_parameters_witness :
  Catalog.parameters (Hack.load_endpoint Examples.colon_endpoint)
  = Some [ {| Catalog.name := "id";
              Catalog.type := "Path";
              Catalog.schema := Some (Catalog.ZString "Path parameter: id");
              Catalog.description := Some "Path parameter: id" |} ] /\
  exists params,
    Catalog.parameters (Hack.load_endpoint Examples.two_placeholders) = Some params /\
    (exists p, In p params /\ Catalog.name p = "messageId" /\ Catalog.type p = "Path").
Proof.
  split; [reflexivity |].
  destruct (loaded_colon_placeholders_have_parameters Examples.two_placeholders
              "/users/:id/messages/" "messageId" "" eq_refl)
    as [params [Hp [_ [H _]]]];
    [discriminate | reflexivity | exact I |].
  exists params. split; [exact Hp |]. apply H.
  intros q [<- | []]. discriminate.
Defined.

(** C9 as stated fails, in two ways.  The path [/users/{id}] has a
    placeholder in braces, and after the load the endpoint has no
    parameter definition at all.  The path [/users/:id] has a placeholder
    whose name the catalog entry declares as a query parameter, and after
    the load that definition is the only one: none is of kind [Path]. *)
Lemma brace_placeholder_counterexample :
  (exists e',
      Hack.Zodios (inr [Examples.brace_endpoint]) = inr [e'] /\
      JSString.includes "{id}" (Catalog.path e') = true /\
      Catalog.parameters e' = Some []) /\
  (exists e',
      Hack.Zodios (inr [Examples.query_id_endpoint]) = inr [e'] /\
      Catalog.path e' = "/users/:id" /\
      Catalog.parameters e'
      = Some [ {| Catalog.name := "id"; Catalog.type := "Query";
                  Catalog.schema := None; Catalog.description := None |} ]).
Proof.
  split; eexists; (split; [reflexivity |]); split; reflexivity.
Qed.

(** ** Registration *)
Section Registration.
Context {Num : JSNumber} {B : Builtins}.
Import Catalog GraphTools.

Lemma reg_tool_register (l : list endpoint) : map reg_tool (map register l) = l.
Proof.
  rewrite map_map. simpl. apply map_id.
Qed.

(** The two [continue] tests, read positively. *)
Lemma skipped_false readOnly re tool :
  negb (skipped readOnly re tool)
  = (negb readOnly || isGET tool)
    && match re with Some r => RegExp_test r (alias tool) | None => true end.
Proof.
  unfold skipped. destruct readOnly, (isGET tool); simpl;
    destruct re as [r|]; try reflexivity; now rewrite negb_involutive.
Qed.

(** A pattern that does not compile leaves no filter. *)
Lemma invalid_pattern_no_regex (p : string) :
  RegExp_new p "i" = None -> enabledToolsRegex (Some p) = None.
Proof.
  intros H. unfold enabledToolsRegex. now destruct (String.eqb p "").
Qed.

End Registration.

(** C8.  The descriptors registered are, in catalog order, those for which
    (read-only mode is off or the method is GET) and (no regular expression
    is in effect or it matches the alias).  A pattern that is not empty and
    compiles, with the flag [i], is the regular expression in effect.  With
    no pattern, an empty one, or one that does not compile, none is: the
    registration is that without a pattern, and with read-only mode off it
    is the whole catalog. *)
Theorem registration_filter {Num : JSNumber} {B : Builtins}
        (endpoints : list Catalog.endpoint) (readOnly : bool)
        (enabledToolsPattern : option string) :
  let registered :=
    map GraphTools.reg_tool
        (GraphTools.registerGraphTools endpoints readOnly enabledToolsPattern) in
  let allowed tool :=
    negb readOnly || String.eqb (toUpperCase (Catalog.method tool)) "GET" in
  (forall p r,
      enabledToolsPattern = Some p -> p <> "" -> RegExp_new p "i" = Some r ->
      registered
      = filter (fun tool => allowed tool && RegExp_test r (Catalog.alias tool)) endpoints
      /\ (forall tool,
             In tool registered <->
             In tool endpoints
             /\ (readOnly = false \/ toUpperCase (Catalog.method tool) = "GET")
             /\ RegExp_test r (Catalog.alias tool) = true)) /\
  (enabledToolsPattern = None \/ enabledToolsPattern = Some ""
   \/ (exists p, enabledToolsPattern = Some p /\ RegExp_new p "i" = None) ->
   registered = filter allowed endpoints
   /\ GraphTools.registerGraphTools endpoints readOnly enabledToolsPattern
      = GraphTools.registerGraphTools endpoints readOnly None
   /\ (forall tool,
          In tool registered <->
          In tool endpoints
          /\ (readOnly = false \/ toUpperCase (Catalog.method tool) = "GET"))
   /\ (readOnly = false -> registered = endpoints)).
Proof.
  intros registered allowed.
  assert (E : registered
              = filter (fun tool =>
                  allowed tool
                  && match GraphTools.enabledToolsRegex enabledToolsPattern with
                     | Some r => RegExp_test r (Catalog.alias tool)
                     | None => true
                     end) endpoints).
  { unfold registered, GraphTools.registerGraphTools. rewrite reg_tool_register.
    apply filter_ext. intros tool. apply skipped_false. }
  split.
  - intros p r -> Hp Hr.
    assert (Hre : GraphTools.enabledToolsRegex (Some p) = Some r).
    { unfold GraphTools.enabledToolsRegex. apply String.eqb_neq in Hp.
      now rewrite Hp. }
    rewrite Hre in E. split; [exact E |].
    intros tool. rewrite E, filter_In, andb_true_iff. unfold allowed.
    rewrite orb_true_iff, negb_true_iff, String.eqb_eq. tauto.
  - intros Hnone.
    assert (Hre : GraphTools.enabledToolsRegex enabledToolsPattern = None).
    { destruct Hnone as [-> | [-> | [p [-> Hbad]]]]; try reflexivity.
      now apply invalid_pattern_no_regex. }
    rewrite Hre in E.
    assert (E' : registered = filter allowed endpoints).
    { rewrite E. apply filter_ext. intros tool. apply andb_true_r. }
    split; [exact E' |]. split; [| split].
    + unfold GraphTools.registerGraphTools. now rewrite Hre.
    + intros tool. rewrite E', filter_In. unfold allowed.
      rewrite orb_true_iff, negb_true_iff, String.eqb_eq. tauto.
    + intros ->. rewrite E'. unfold allowed. cbn [negb orb].
      clear. induction endpoints as [|e l IH]; simpl; [reflexivity | now rewrite IH].
Qed.

(** A pattern that compiles keeps the aliases it matches, whatever the
    case; one that does not compile keeps the whole catalog. *)
Lemma registration_filter_witness :
  map GraphTools.reg_tool
      (GraphTools.registerGraphTools (B := Fragment.node [])
         Examples.five_endpoints false (Some "MAIL"))
  = [ Examples.simple_endpoint "get" "/me/messages" "list-mail-messages";
      Examples.simple_endpoint "post" "/me/sendMail" "send-mail" ] /\
  map GraphTools.reg_tool
      (GraphTools.registerGraphTools (B := Fragment.node [])
         Examples.five_endpoints false (Some "("))
  = Examples.five_endpoints.
Proof.
  split.
  - destruct (registration_filter (B := Fragment.node [])
                Examples.five_endpoints false (Some "MAIL")) as [H _].
    destruct (H "MAIL" "MAIL" eq_refl) as [H' _];
      [discriminate | reflexivity |].
    rewrite H'. reflexivity.
  - destruct (registration_filter (B := Fragment.node [])
                Examples.five_endpoints false (Some "(")) as [_ H].
    destruct H as [_ [_ [_ H]]]; [right; right; now exists "(" |].
    exact (H eq_refl).
Defined.

(** Read-only registration over three GET and two POST descriptors
    registers the three GET ones. *)
Example read_only_registers_three :
  map GraphTools.reg_name
      (GraphTools.registerGraphTools (B := Fragment.node [])
         Examples.five_endpoints true None)
  = ["list-mail-messages"; "list-calendar-events"; "get-drive"].
Proof. reflexivity. Qed.

(** A pattern that compiles keeps the aliases it matches, whatever the case. *)
Example pattern_registers_matching :
  map GraphTools.reg_name
      (GraphTools.registerGraphTools (B := Fragment.node [])
         Examples.five_endpoints false (Some "MAIL"))
  = ["list-mail-messages"; "send-mail"].
Proof. reflexivity. Qed.

(** ** Objects *)
Section Objects.
Context {A : Type}.
Implicit Types (o : JSObject.t A) (k : string) (v : A).

Lemma JSObject_get_In k v o : JSObject.get k o = Some v -> In (k, v) o.
Proof.
  induction o as [|[k' v'] o IH]; simpl; [discriminate |].
  destruct (String.eqb_spec k k') as [-> | Hne].
  - intros [= ->]. now left.
  - intros H. right. now apply IH.
Qed.

Lemma JSObject_get_app_fresh k v o :
  JSObject.get k o = None -> JSObject.get k (o ++ [(k, v)])%list = Some v.
Proof.
  induction o as [|[k' v'] o IH]; simpl.
  - now rewrite String.eqb_refl.
  - destruct (String.eqb k k'); [discriminate | exact IH].
Qed.

Lemma JSObject_get_app_other k k' v o :
  k' <> k -> JSObject.get k' (o ++ [(k, v)])%list = JSObject.get k' o.
Proof.
  intros Hne. induction o as [|[k1 v1] o IH]; simpl.
  - apply String.eqb_neq in Hne. now rewrite Hne.
  - now rewrite IH.
Qed.

Lemma JSObject_get_update_same k v o :
  JSObject.get k o <> None -> JSObject.get k (JSObject.update k v o) = Some v.
Proof.
  induction o as [|[k' v'] o IH]; simpl; [congruence |].
  destruct (String.eqb k k') eqn:E; simpl; rewrite E; [reflexivity | exact IH].
Qed.

Lemma JSObject_get_update_other k k' v o :
  k' <> k -> JSObject.get k' (JSObject.update k v o) = JSObject.get k' o.
Proof.
  intros Hne. induction o as [|[k1 v1] o IH]; simpl; [reflexivity |].
  destruct (String.eqb_spec k k1) as [-> | H1]; simpl.
  - apply String.eqb_neq in Hne. now rewrite Hne.
  - now rewrite IH.
Qed.

Lemma JSObject_get_insert_same n k v o :
  JSObject.get k o = None -> JSObject.get k (JSObject.insert_index n k v o) = Some v.
Proof.
  induction o as [|[k' v'] o IH]; simpl.
  - now rewrite String.eqb_refl.
  - destruct (String.eqb k k') eqn:E; [discriminate |]. intros H.
    destruct (JSObject.array_index k') as [n'|];
      [destruct (n <? n')%N |]; simpl; rewrite ?String.eqb_refl, ?E; auto.
Qed.

Lemma JSObject_get_insert_other n k k' v o :
  k' <> k -> JSObject.get k' (JSObject.insert_index n k v o) = JSObject.get k' o.
Proof.
  intros Hne. apply String.eqb_neq in Hne.
  induction o as [|[k1 v1] o IH]; simpl.
  - now rewrite Hne.
  - destruct (JSObject.array_index k1) as [n'|];
      [destruct (n <? n')%N |]; simpl; rewrite ?Hne; try reflexivity.
    now rewrite IH.
Qed.

(** Reading a key just written gives the value written. *)
Lemma JSObject_get_set_same k v o : JSObject.get k (JSObject.set k v o) = Some v.
Proof.
  unfold JSObject.set, JSObject.has. destruct (JSObject.get k o) eqn:E.
  - apply JSObject_get_update_same. congruence.
  - destruct (JSObject.array_index k).
    + now apply JSObject_get_insert_same.
    + now apply JSObject_get_app_fresh.
Qed.

(** Writing a key leaves the other keys as they were. *)
Lemma JSObject_get_set_other k k' v o :
  k' <> k -> JSObject.get k' (JSObject.set k v o) = JSObject.get k' o.
Proof.
  intros Hne. unfold JSObject.set. destruct (JSObject.has k o).
  - now apply JSObject_get_update_other.
  - destruct (JSObject.array_index k).
    + now apply JSObject_get_insert_other.
    + now apply JSObject_get_app_other.
Qed.




Lemma JSObject_get_delete_same k o : JSObject.get k (JSObject.delete k o) = None.
Proof.
  induction o as [|[k' v'] o IH]; simpl; [reflexivity |].
  destruct (String.eqb k k') eqn:E; simpl; [exact IH | now rewrite E].
Qed.

Lemma JSObject_get_delete_other k k' o :
  k' <> k -> JSObject.get k' (JSObject.delete k o) = JSObject.get k' o.
Proof.
  intros Hne. induction o as [|[k1 v1] o IH]; simpl; [reflexivity |].
  destruct (String.eqb_spec k k1) as [-> | H1]; simpl.
  - apply String.eqb_neq in Hne. now rewrite Hne.
  - now rewrite IH.
Qed.

End Objects.

(** ** Request translation *)
Section Translation.
Context {Num : JSNumber} {B : Builtins}.
Import Catalog GraphTools.

(** The renaming: [$] and the lowercased name for the nine OData names,
    whatever their case; the name itself otherwise. *)
Lemma fixedParamName_spec (n : string) :
  (In (toLowerCase n) odataParams -> fixedParamName n = "$" ++ toLowerCase n) /\
  (~ In (toLowerCase n) odataParams -> fixedParamName n = n).
Proof.
  unfold fixedParamName.
  destruct (existsb (String.eqb (toLowerCase n)) odataParams) eqn:E.
  - split; [reflexivity |]. intros H. exfalso. apply H.
    apply existsb_exists in E as [x [Hx E]]. apply String.eqb_eq in E. now subst.
  - split; [| reflexivity]. intros H. exfalso.
    assert (existsb (String.eqb (toLowerCase n)) odataParams = true); [| congruence].
    apply existsb_exists. exists (toLowerCase n). split; [exact H | apply String.eqb_refl].
Qed.


Lemma translate_param_queryParams defs t n v t' :
  translate_param defs t (n, v) = inr t' ->
  match kind_of defs n with
  | Some k => if String.eqb k "Query"
              then exists s, ToString v = inr s /\
                             t_queryParams t'
                             = JSObject.set (fixedParamName n) s (t_queryParams t)
              else t_queryParams t' = t_queryParams t
  | None => t_queryParams t' = t_queryParams t
  end.
Proof.
  unfold translate_param, kind_of.
  destruct (String.eqb n "fetchAllPages"); [now intros [= <-] |].
  destruct (find _ defs) as [p|];
    [| destruct (String.eqb n "body"); now intros [= <-]].
  destruct (String.eqb_spec (type p) "Path") as [-> | _].
  { cbn. destruct (ToString v) as [m | s]; [discriminate |].
    destruct (JSString.encodeURIComponent s); [discriminate | now intros [= <-]]. }
  destruct (String.eqb (type p) "Query").
  { destruct (ToString v) as [m | s]; [discriminate |]. intros [= <-]. now exists s. }
  destruct (String.eqb (type p) "Body"); [now intros [= <-] |].
  destruct (String.eqb (type p) "Header"); [| now intros [= <-]].
  destruct (ToString v) as [m | s]; [discriminate | now intros [= <-]].
Qed.

(** What holds of a map that the loop fills with the parameters of one
    kind. *)
Section Routed.
Variables (proj : translation -> JSObject.t string) (K : string).
Hypothesis proj_step : forall defs t n v t',
  translate_param defs t (n, v) = inr t' ->
  match kind_of defs n with
  | Some k => if String.eqb k K
              then exists s, ToString v = inr s /\
                             proj t' = JSObject.set (fixedParamName n) s (proj t)
              else proj t' = proj t
  | None => proj t' = proj t
  end.


Lemma routed_kept defs params : forall t t' k,
  translate_loop defs params t = inr t' ->
  JSObject.get k (proj t) <> None ->
  JSObject.get k (proj t') <> None.
Proof.
  induction params as [|[n v] params IH]; intros t t' k Hloop H;
    cbn [translate_loop] in Hloop; [now injection Hloop as <- |].
  destruct (translate_param defs t (n, v)) as [m | t1] eqn:E; [discriminate |].
  apply proj_step in E. apply (IH _ _ _ Hloop).
  destruct (kind_of defs n) as [k0|]; [| now rewrite E].
  destruct (String.eqb k0 K); [| now rewrite E].
  destruct E as [s0 [_ ->]].
  destruct (string_dec k (fixedParamName n)) as [-> | Hne].
  - rewrite JSObject_get_set_same. discriminate.
  - now rewrite JSObject_get_set_other.
Qed.

Lemma routed_complete defs params : forall t t' n v,
  translate_loop defs params t = inr t' ->
  In (n, v) params -> kind_of defs n = Some K ->
  JSObject.get (fixedParamName n) (proj t') <> None.
Proof.
  induction params as [|[n0 v0] params IH]; intros t t' n v Hloop Hin Hk;
    [contradiction |].
  cbn [translate_loop] in Hloop.
  destruct (translate_param defs t (n0, v0)) as [m | t1] eqn:E; [discriminate |].
  destruct Hin as [[= -> ->] | Hin].
  - apply (routed_kept _ _ _ _ _ Hloop). apply proj_step in E.
    rewrite Hk, String.eqb_refl in E. destruct E as [s0 [_ ->]].
    rewrite JSObject_get_set_same. discriminate.
  - now apply (IH _ _ n v Hloop).
Qed.

End Routed.

(** A bound parameter of kind [Path], [Query] or [Header] whose value has
    no string form makes the loop throw. *)
Lemma translate_param_throws defs t n v k message :
  kind_of defs n = Some k -> In k ["Path"; "Query"; "Header"] ->
  ToString v = inl message ->
  translate_param defs t (n, v) = inl message.
Proof.
  unfold translate_param, kind_of.
  destruct (String.eqb n "fetchAllPages"); [discriminate |].
  destruct (find _ defs) as [p|]; [| discriminate].
  intros [= <-] Hk Hv. rewrite Hv.
  destruct Hk as [<- | [<- | [<- | []]]]; reflexivity.
Qed.

Lemma translate_loop_throws defs params : forall t n v k message,
  In (n, v) params ->
  kind_of defs n = Some k -> In k ["Path"; "Query"; "Header"] ->
  ToString v = inl message ->
  exists message', translate_loop defs params t = inl message'.
Proof.
  induction params as [|[n0 v0] params IH]; intros t n v k message Hin Hk Hkind Hv;
    [contradiction |].
  cbn [translate_loop].
  destruct (translate_param defs t (n0, v0)) as [m | t1] eqn:E; [now exists m |].
  destruct Hin as [[= -> ->] | Hin].
  - rewrite (translate_param_throws _ _ _ _ _ _ Hk Hkind Hv) in E. discriminate.
  - now apply (IH t1 n v k message).
Qed.

(** So does a bound parameter of kind [Path] whose string form holds a
    lone surrogate. *)
Lemma translate_param_malformed defs t n v s :
  kind_of defs n = Some "Path" -> ToString v = inr s ->
  JSString.lone_surrogate s = true ->
  translate_param defs t (n, v) = inl "URI malformed".
Proof.
  unfold translate_param, kind_of.
  destruct (String.eqb n "fetchAllPages"); [discriminate |].
  destruct (find _ defs) as [p|]; [| discriminate].
  intros [= ->] Hv Hs. cbn. rewrite Hv. unfold JSString.encodeURIComponent.
  now rewrite Hs.
Qed.

Lemma translate_loop_malformed defs params : forall t n v s,
  In (n, v) params ->
  kind_of defs n = Some "Path" -> ToString v = inr s ->
  JSString.lone_surrogate s = true ->
  exists message', translate_loop defs params t = inl message'.
Proof.
  induction params as [|[n0 v0] params IH]; intros t n v s Hin Hk Hv Hs;
    [contradiction |].
  cbn [translate_loop].
  destruct (translate_param defs t (n0, v0)) as [m | t1] eqn:E; [now exists m |].
  destruct Hin as [[= -> ->] | Hin].
  - rewrite (translate_param_malformed _ _ _ _ _ Hk Hv Hs) in E. discriminate.
  - now apply (IH t1 n v s).
Qed.

(** What the preparation of the request is made of. *)
Lemma prepare_inr tool params path o :
  prepare tool params = inr (path, o) ->
  exists t, translate tool params = inr t /\ request_path t = inr path /\
            o = request_options tool t path.
Proof.
  unfold prepare. destruct (translate tool params) as [m | t]; [discriminate |].
  destruct (request_path t) as [m | path0] eqn:E; [discriminate |].
  intros [= <- <-]. now exists t.
Qed.

Lemma prepare_of_translation tool params t path :
  translate tool params = inr t -> request_path t = inr path ->
  prepare tool params = inr (path, request_options tool t path).
Proof.
  intros H1 H2. unfold prepare. now rewrite H1, H2.
Qed.

End Translation.

(** ** The handler *)
Section Handler.
Context {Num : JSNumber} {B : Builtins}.
Import Catalog GraphTools.
Variable graphClient : GraphClient.

#[local] Abbreviation world := (world graphClient).

(** Case analysis on the scrutinees of a computation in hypothesis [H]. *)
Ltac cases_in H :=
  repeat match type of H with
         | context [match ?x with _ => _ end] =>
             let E := fresh "E" in destruct x eqn:E; cbn beta iota in H
         end.

Lemma request_eq path o (w : world) :
  request graphClient path o w
  = (fst (graphRequest graphClient (fst w) path o),
     (snd (graphRequest graphClient (fst w) path o), (snd w ++ [(path, o)])%list)).
Proof.
  unfold request. now destruct (graphRequest graphClient (fst w) path o).
Qed.

Lemma request_trace path o (w : world) r w' :
  request graphClient path o w = (r, w') -> snd w' = (snd w ++ [(path, o)])%list.
Proof.
  rewrite request_eq. now intros [= _ <-].
Qed.

Lemma fetch_pages_trace fuel : forall o allItems nextLink pageCount (w : world) e w',
  fetch_pages graphClient fuel o allItems nextLink pageCount w = (e, w') ->
  exists more, snd w' = (snd w ++ more)%list /\ Forall (follows o) more.
Proof.
  induction fuel as [|fuel IH]; intros o allItems nextLink pageCount w e w' H.
  - exists []. rewrite app_nil_r. split; [| constructor].
    simpl in H. destruct nextLink as [link|]; [destruct (negb (truthy link)) |];
      now inversion H.
  - cbn [fetch_pages] in H.
    destruct nextLink as [link|];
      [| inversion H; subst; exists []; rewrite app_nil_r; split; [easy | constructor]].
    destruct (negb (truthy link));
      [inversion H; subst; exists []; rewrite app_nil_r; split; [easy | constructor] |].
    destruct (new_URL link) as [url|];
      [| inversion H; subst; exists []; rewrite app_nil_r; split; [easy | constructor]].
    cbv zeta in H.
    destruct (request graphClient _ _ w) as [answer w1] eqn:Er.
    apply request_trace in Er.
    assert (Hone : Forall (follows o)
                     [(JSString.replace "/v1.0" "" (pathname url),
                       with_queryParams o (nextQueryParams url))]).
    { constructor; [| constructor]. now exists (nextQueryParams url). }
    assert (Hstop : forall e0, (e0, w1) = (e, w') ->
              exists more, snd w' = (snd w ++ more)%list /\ Forall (follows o) more).
    { intros e0 [= _ <-]. eexists. split; [exact Er | exact Hone]. }
    cases_in H; try (now apply (Hstop _ H)).
    apply IH in H as [more [H1 H2]]. rewrite Er in H1.
    eexists. split; [rewrite H1, <- app_assoc; reflexivity |].
    apply Forall_app. split; assumption.
Qed.

(** The loop needs no more than the hundred turns it is given. *)
Lemma fetch_pages_total fuel : forall o allItems nextLink pageCount (w : world),
  pageCount <= 100 -> 101 <= fuel + pageCount ->
  fst (fetch_pages graphClient fuel o allItems nextLink pageCount w) <> Exhausted.
Proof.
  induction fuel as [|fuel IH]; intros o allItems nextLink pageCount w Hle Hfuel;
    [lia |].
  cbn [fetch_pages].
  destruct nextLink as [link|]; [| discriminate].
  destruct (negb (truthy link)); [discriminate |].
  destruct (new_URL link) as [url|]; [| discriminate].
  cbv zeta.
  destruct (request graphClient _ _ w) as [answer w1].
  repeat match goal with
         | |- context [match ?x with _ => _ end] =>
             destruct x eqn:?; cbn beta iota; try discriminate
         end.
  all: apply IH; [apply Nat.ltb_ge in Heqb; lia | lia].
Qed.

(** As the handler runs it, the loop always ends by itself. *)
Lemma fetch_pages_terminates o allItems nextLink (w : world) :
  fst (fetch_pages graphClient 100 o allItems nextLink 1 w) <> Exhausted.
Proof.
  apply fetch_pages_total; lia.
Qed.

(** A failing follow-up fetch makes the loop end by an exception, whatever
    was accumulated. *)
Lemma pagination_fails_thrown o nextLink pageCount (w : world) :
  pagination_fails graphClient o nextLink pageCount w ->
  forall fuel allItems, 101 <= fuel + pageCount -> pageCount <= 100 ->
  fst (fetch_pages graphClient fuel o allItems nextLink pageCount w) = Thrown.
Proof.
  induction 1 as [link pc w url message w' Ht Hu Hr
                 |link pc w url r item rest response w' Ht Hu Hr Hi Hp
                 |link pc w url r item rest response w' page Ht Hu Hr Hi Hp Hle _ IH];
    intros [|fuel] allItems Hfuel Hpc; try lia;
    cbn [fetch_pages]; rewrite Ht, Hu; cbn [negb]; cbv zeta; rewrite Hr.
  - reflexivity.
  - now rewrite Hi, Hp.
  - rewrite Hi, Hp. unfold cursor_of in IH.
    destruct (prop "value" page) as [value|]; [| now destruct (prop _ page)].
    destruct (prop "@odata.nextLink" page) as [nextLink'|]; [| reflexivity].
    destruct (match value with
              | Some (JArr items) => concat allItems items
              | _ => Some allItems
              end) as [allItems'|]; [| reflexivity].
    assert (E : Nat.ltb 100 (S pc) = false) by (apply Nat.ltb_ge; lia).
    rewrite E. apply IH; lia.
Qed.

(** The body of the inner [try] issues follow-up requests only; it throws
    or replaces the text of the first item. *)
Lemma paginate_spec o r item rest (w : world) res w' :
  paginate graphClient o r item rest w = (res, w') ->
  (exists more, snd w' = (snd w ++ more)%list /\ Forall (follows o) more) /\
  (res = None \/
   exists c,
     res = Some {| content := Some ({| item_type := item_type item;
                                       text := JSON_stringify c |} :: rest);
                   _meta := _meta r; isError := isError r |}).
Proof.
  assert (Hnil : exists more : list (string * options),
             snd w = (snd w ++ more)%list /\ Forall (follows o) more).
  { exists []. rewrite app_nil_r. split; [reflexivity | constructor]. }
  unfold paginate. intros H.
  cases_in H; inversion H; subst; clear H;
    try (split; [exact Hnil | now left]);
    match goal with
    | E : fetch_pages _ _ _ _ _ _ _ = _ |- _ => apply fetch_pages_trace in E
    end;
    (split; [assumption |]); try (now left).
  right. eexists. reflexivity.
Qed.

(** The pagination block leaves the response as it was or replaces the
    text of its first item. *)
Lemma after_pagination_spec params o response (w : world) response' w' :
  after_pagination graphClient params o response w = (response', w') ->
  (exists more, snd w' = (snd w ++ more)%list /\ Forall (follows o) more) /\
  (response' = response \/
   exists r item rest c,
     first_item response = Some (r, item, rest) /\
     response' = Some {| content := Some ({| item_type := item_type item;
                                             text := JSON_stringify c |} :: rest);
                         _meta := _meta r; isError := isError r |}).
Proof.
  assert (Hnil : exists more : list (string * options),
             snd w = (snd w ++ more)%list /\ Forall (follows o) more).
  { exists []. rewrite app_nil_r. split; [reflexivity | constructor]. }
  unfold after_pagination. intros H.
  destruct (JSObject.get "fetchAllPages" params) as [[| [|] | | | |]|];
    try (inversion H; subst; split; [exact Hnil | now left]).
  destruct (first_item response) as [[[r item] rest]|] eqn:Ef;
    [| inversion H; subst; split; [exact Hnil | now left]].
  destruct (paginate graphClient o r item rest w) as [res w1] eqn:Ep.
  apply paginate_spec in Ep as [Htrace [-> | [c ->]]];
    inversion H; subst; (split; [exact Htrace |]).
  - now left.
  - right. now exists r, item, rest, c.
Qed.

Lemma assemble_first_item response r item rest :
  first_item response = Some (r, item, rest) ->
  response = Some r /\ content r = Some (item :: rest).
Proof.
  unfold first_item. destruct response as [r0|]; [| discriminate].
  destruct (content r0) as [[|i l]|] eqn:E; try discriminate.
  now intros [= <- <- <-].
Qed.

(** The requests of the body of the [try]: none when the preparation
    throws; otherwise the translated one, then follow-ups. *)
Lemma try_body_thrown tool params (w : world) message :
  prepare tool params = inl message ->
  try_body graphClient tool params w = (inl message, w).
Proof.
  intros H. unfold try_body. now rewrite H.
Qed.

Lemma try_body_trace tool params (w : world) path o :
  prepare tool params = inr (path, o) ->
  exists more,
    snd (snd (try_body graphClient tool params w))
    = (snd w ++ (path, o) :: more)%list /\
    Forall (follows o) more.
Proof.
  intros Hp. unfold try_body. rewrite Hp.
  destruct (request graphClient _ _ w) as [answer w1] eqn:Er.
  apply request_trace in Er. destruct answer as [message | response].
  - exists []. split; [exact Er | constructor].
  - destruct (after_pagination graphClient params _ response w1)
      as [response' w2] eqn:Ea.
    apply after_pagination_spec in Ea as [[more [H1 H2]] _].
    exists more. split; [| exact H2]. cbn [snd]. rewrite H1, Er, <- app_assoc.
    reflexivity.
Qed.

Lemma invoke_thrown tool params st message :
  prepare tool params = inl message ->
  invoke graphClient tool params st = (error_result tool message, []).
Proof.
  intros H. unfold invoke, handler. now rewrite (try_body_thrown _ _ _ _ H).
Qed.

Lemma invoke_trace tool params st path o :
  prepare tool params = inr (path, o) ->
  exists more,
    snd (invoke graphClient tool params st) = (path, o) :: more /\
    Forall (follows o) more.
Proof.
  intros Hp.
  destruct (try_body_trace tool params (st, []) path o Hp) as [more [H1 H2]].
  exists more. split; [| exact H2].
  unfold invoke, handler.
  destruct (try_body graphClient tool params (st, [])) as [[m | res] w'];
    exact H1.
Qed.

(** What the body of the [try] yields, by the answer to the first
    request. *)
Lemma try_body_throws tool params (w : world) path o message w' :
  prepare tool params = inr (path, o) ->
  request graphClient path o w = (Throws message, w') ->
  fst (try_body graphClient tool params w) = inl message.
Proof.
  intros Hp H. unfold try_body. now rewrite Hp, H.
Qed.

Lemma try_body_returns tool params (w : world) path o response w' :
  prepare tool params = inr (path, o) ->
  request graphClient path o w = (Returns response, w') ->
  match response with
  | None => fst (try_body graphClient tool params w)
            = inl "Cannot read properties of undefined (reading 'content')"
  | Some r =>
      match content r with
      | None => fst (try_body graphClient tool params w)
                = inl "Cannot read properties of undefined (reading 'map')"
      | Some items =>
          exists result,
            fst (try_body graphClient tool params w) = inr result /\
            result_isError result = isError r /\
            result_meta result = _meta r /\
            List.length (result_content result) = List.length items
      end
  end.
Proof.
  intros Hp H. unfold try_body. rewrite Hp, H.
  destruct (after_pagination graphClient params _ response w')
    as [response' w2] eqn:Ea.
  apply after_pagination_spec in Ea as [_ [-> | [r [item [rest [c [Hf ->]]]]]]].
  - destruct response as [r|]; [| reflexivity].
    destruct (content r) as [items|] eqn:Ec; cbn [fst assemble]; rewrite ?Ec;
      [| reflexivity].
    eexists. split; [reflexivity |]. cbn. now rewrite length_map.
  - apply assemble_first_item in Hf as [-> Hc]. rewrite Hc.
    eexists. split; [reflexivity |]. cbn. now rewrite length_map.
Qed.

End Handler.

(** C10.  For an endpoint whose method is GET, no request the handler
    issues -- the translated one or a follow-up of the pagination --
    carries a body, whatever the parameter bag binds. *)
Theorem get_requests_carry_no_body {Num : JSNumber} {B : Builtins}
        (graphClient : GraphTools.GraphClient) (tool : Catalog.endpoint)
        (params : JSObject.t json) (st : GraphTools.client_state graphClient) :
  toUpperCase (Catalog.method tool) = "GET" ->
  Forall (fun req => GraphTools.opt_body (snd req) = None)
         (snd (GraphTools.invoke graphClient tool params st)).
Proof.
  intros Hget.
  destruct (GraphTools.prepare tool params) as [message | [path o]] eqn:Hp.
  - rewrite (invoke_thrown graphClient tool params st message Hp). constructor.
  - destruct (invoke_trace graphClient tool params st path o Hp) as [more [-> Hmore]].
    apply prepare_inr in Hp as [t [_ [_ ->]]].
    assert (H0 : GraphTools.opt_body (GraphTools.request_options tool t path) = None).
    { unfold GraphTools.request_options. cbn. now rewrite Hget. }
    constructor; [exact H0 |].
    eapply Forall_impl; [| exact Hmore].
    intros req [q ->]. exact H0.
Qed.

Lemma get_requests_carry_no_body_witness :
  match GraphTools.translate (B := Examples.runtime)
          Examples.list_messages Examples.filtered_with_body with
  | inr t => truthy (GraphTools.t_body t)
  | inl _ => false
  end = true /\
  Forall (fun req => GraphTools.opt_body (snd req) = None)
         (snd (GraphTools.invoke (B := Examples.runtime) Examples.fails_on_second
                 Examples.list_messages Examples.filtered_with_body 0)).
Proof.
  split; [reflexivity |].
  apply (get_requests_carry_no_body (B := Examples.runtime)). reflexivity.
Defined.



(** The request of the example: the name [filter] goes out as [$filter],
    percent-encoded in the query string with its value; the header keeps
    its name. *)
Example filter_is_dispatched_as_odata :
  snd (GraphTools.invoke (B := Examples.runtime) Examples.fails_on_second
         Examples.list_messages Examples.filtered_with_body 0)
  = [ ("/me/messages?%24filter=isRead%20eq%20false",
       {| GraphTools.opt_method := "GET";
          GraphTools.opt_headers := [("Prefer", "outlook.body-content-type")];
          GraphTools.opt_body := None;
          GraphTools.opt_rawResponse := false;
          GraphTools.opt_queryParams := None |}) ].
Proof. reflexivity. Qed.

(** C6, as amended.  The handler always returns a result.  When an Error
    is thrown before the first request -- the string conversion of a bound
    [Path], [Query] or [Header] value throws, or the URL-encoding of a
    [Path] value or of the query string does -- no request is issued and
    the result is the error result: [isError] is [true] and the content is
    one text block, the JSON object whose [error] field holds the name of
    the tool and the message.  So it is when the first transport call
    throws, or when there is no response or no content to assemble a
    result from.  When the first transport call returns a response with
    content, the handler adds no error of its own: [isError] is the
    response's, whatever was thrown during pagination. *)
Theorem handler_converts_exceptions {Num : JSNumber} {B : Builtins}
        (graphClient : GraphTools.GraphClient) (tool : Catalog.endpoint)
        (params : JSObject.t json) (st : GraphTools.client_state graphClient) :
  let result := fst (GraphTools.invoke graphClient tool params st) in
  (forall message,
      GraphTools.prepare tool params = inl message ->
      GraphTools.invoke graphClient tool params st
      = (GraphTools.error_result tool message, [])) /\
  (forall n v k message,
      In (n, v) params ->
      GraphTools.kind_of (GraphTools.definitions tool) n = Some k ->
      In k ["Path"; "Query"; "Header"] ->
      ToString v = inl message ->
      exists message',
        GraphTools.invoke graphClient tool params st
        = (GraphTools.error_result tool message', [])) /\
  (forall n v s,
      In (n, v) params ->
      GraphTools.kind_of (GraphTools.definitions tool) n = Some "Path" ->
      ToString v = inr s -> JSString.lone_surrogate s = true ->
      exists message',
        GraphTools.invoke graphClient tool params st
        = (GraphTools.error_result tool message', [])) /\
  (forall path o,
      GraphTools.prepare tool params = inr (path, o) ->
      let answer := fst (GraphTools.graphRequest graphClient st path o) in
      (forall message, answer = GraphTools.Throws message ->
                       result = GraphTools.error_result tool message) /\
      (answer = GraphTools.Returns None ->
       result = GraphTools.error_result tool
                  "Cannot read properties of undefined (reading 'content')") /\
      (forall r, answer = GraphTools.Returns (Some r) -> GraphTools.content r = None ->
       result = GraphTools.error_result tool
                  "Cannot read properties of undefined (reading 'map')") /\
      (forall r items, answer = GraphTools.Returns (Some r) ->
                       GraphTools.content r = Some items ->
       GraphTools.result_isError result = GraphTools.isError r /\
       GraphTools.result_meta result = GraphTools._meta r /\
       List.length (GraphTools.result_content result) = List.length items)) /\
  (forall message,
      GraphTools.result_isError (GraphTools.error_result tool message) = Some true /\
      GraphTools.result_content (GraphTools.error_result tool message)
      = [ {| GraphTools.item_type := "text";
             GraphTools.text :=
               JSON_stringify
                 (JObj [("error", JStr ("Error in tool " ++ Catalog.alias tool ++ ": "
                                        ++ message))]) |} ]).
Proof.
  intros result.
  assert (Hres : result
                 = match fst (GraphTools.try_body graphClient tool params (st, [])) with
                   | inr res => res
                   | inl message => GraphTools.error_result tool message
                   end).
  { unfold result, GraphTools.invoke, GraphTools.handler.
    now destruct (GraphTools.try_body graphClient tool params (st, [])) as [[m | res] w]. }
  split; [intros message; apply invoke_thrown |].
  split.
  { intros n v k message Hin Hk Hkind Hv.
    destruct (translate_loop_throws (GraphTools.definitions tool) params
                {| GraphTools.t_path := Catalog.path tool;
                   GraphTools.t_queryParams := []; GraphTools.t_headers := [];
                   GraphTools.t_body := JNull |} n v k message Hin Hk Hkind Hv)
      as [message' Hthrown].
    exists message'. apply invoke_thrown. unfold GraphTools.prepare, GraphTools.translate.
    fold (GraphTools.definitions tool). now rewrite Hthrown. }
  split.
  { intros n v s Hin Hk Hv Hs.
    destruct (translate_loop_malformed (GraphTools.definitions tool) params
                {| GraphTools.t_path := Catalog.path tool;
                   GraphTools.t_queryParams := []; GraphTools.t_headers := [];
                   GraphTools.t_body := JNull |} n v s Hin Hk Hv Hs)
      as [message' Hthrown].
    exists message'. apply invoke_thrown. unfold GraphTools.prepare, GraphTools.translate.
    fold (GraphTools.definitions tool). now rewrite Hthrown. }
  split; [| now intros message].
  intros path o Hp answer.
  assert (Hreq : GraphTools.request graphClient path o (st, [])
                 = (answer, (snd (GraphTools.graphRequest graphClient st path o),
                             [(path, o)]))).
  { now rewrite request_eq. }
  repeat split.
  - intros message E. rewrite E in Hreq.
    now rewrite Hres, (try_body_throws _ _ _ _ _ _ _ _ Hp Hreq).
  - intros E. rewrite E in Hreq.
    now rewrite Hres, (try_body_returns _ _ _ _ _ _ _ _ Hp Hreq).
  - intros r E Hc. rewrite E in Hreq.
    pose proof (try_body_returns _ _ _ _ _ _ _ _ Hp Hreq) as H. cbn in H.
    rewrite Hc in H. now rewrite Hres, H.
  - rewrite Hres. rewrite H in Hreq.
    pose proof (try_body_returns _ _ _ _ _ _ _ _ Hp Hreq) as H'. cbn in H'.
    rewrite H0 in H'. destruct H' as [res [-> [H1 _]]]. exact H1.
  - rewrite Hres. rewrite H in Hreq.
    pose proof (try_body_returns _ _ _ _ _ _ _ _ Hp Hreq) as H'. cbn in H'.
    rewrite H0 in H'. destruct H' as [res [-> [_ [H1 _]]]]. exact H1.
  - rewrite Hres. rewrite H in Hreq.
    pose proof (try_body_returns _ _ _ _ _ _ _ _ Hp Hreq) as H'. cbn in H'.
    rewrite H0 in H'. destruct H' as [res [-> [_ [_ H1]]]]. exact H1.
Qed.

(** A filter that has no string form: nothing is requested.  A transport
    that throws at the first request. *)
Lemma handler_converts_exceptions_witness :
  GraphTools.invoke (B := Examples.runtime) Examples.fails_on_second
    Examples.list_messages Samples.unprintable_filter 0
  = (GraphTools.error_result (B := Examples.runtime) Examples.list_messages
       "Cannot convert object to primitive value", []) /\
  fst (GraphTools.invoke (B := Examples.runtime) (GraphTools.scripted [])
         Examples.list_messages Examples.all_pages 0)
  = GraphTools.error_result (B := Examples.runtime)
      Examples.list_messages "no more answers".
Proof.
  split.
  - destruct (handler_converts_exceptions (B := Examples.runtime)
                Examples.fails_on_second Examples.list_messages
                Samples.unprintable_filter 0) as [H _].
    apply H. reflexivity.
  - destruct (handler_converts_exceptions (B := Examples.runtime) (GraphTools.scripted [])
                Examples.list_messages Examples.all_pages 0) as [_ [_ [_ [H _]]]].
    destruct (H _ _ eq_refl) as [H' _]. apply H'. reflexivity.
Defined.

(** C6 as stated fails: the second request, a follow-up of the pagination,
    throws; the result is not an error but the first page as it came. *)
Lemma pagination_exception_counterexample :
  let path := "/me/messages" in
  let o := {| GraphTools.opt_method := "GET"; GraphTools.opt_headers := [];
              GraphTools.opt_body := None; GraphTools.opt_rawResponse := false;
              GraphTools.opt_queryParams := Some [("$skip", "1")] |} in
  let out := GraphTools.invoke (B := Examples.runtime) Examples.fails_on_second
               Examples.list_messages Examples.all_pages 0 in
  nth 1 (snd out) (EmptyString, o) = (path, o) /\
  fst (GraphTools.graphRequest (Num := Fragment.Z_number) Examples.fails_on_second
         1 path o) = GraphTools.Throws "socket hang up" /\
  GraphTools.result_isError (fst out) <> Some true /\
  fst out = {| GraphTools.result_content :=
                 [ {| GraphTools.item_type := "text";
                      GraphTools.text := Fragment.stringify Examples.page1 |} ];
               GraphTools.result_meta := None;
               GraphTools.result_isError := None |}.
Proof.
  cbv zeta. repeat split; try reflexivity. vm_compute. discriminate.
Qed.

(** C2, as amended.  When all pages are asked for and a follow-up fetch
    fails (the transport throws, or the text returned is not JSON),
    nothing is raised and the result is made of the first response as the
    transport returned it: the text of the first page unchanged, and no
    error flag of the handler's.  What later pages brought is not in it. *)
Theorem failed_pagination_returns_first_response {Num : JSNumber} {B : Builtins}
        (graphClient : GraphTools.GraphClient) (tool : Catalog.endpoint)
        (params : JSObject.t json) (st st1 : GraphTools.client_state graphClient)
        (r : GraphTools.McpResponse) (item : GraphTools.content_item)
        (rest : list GraphTools.content_item) (page : json)
        (path : string) (o : GraphTools.options) :
  GraphTools.prepare tool params = inr (path, o) ->
  JSObject.get "fetchAllPages" params = Some (JBool true) ->
  GraphTools.graphRequest graphClient st path o = (GraphTools.Returns (Some r), st1) ->
  GraphTools.content r = Some (item :: rest) ->
  JSON_parse (GraphTools.text item) = Some page ->
  GraphTools.pagination_fails graphClient o (GraphTools.cursor_of page) 1
                              (st1, [(path, o)]) ->
  fst (GraphTools.invoke graphClient tool params st)
  = {| GraphTools.result_content :=
         map (fun i => {| GraphTools.item_type := "text";
                          GraphTools.text := GraphTools.text i |}) (item :: rest);
       GraphTools.result_meta := GraphTools._meta r;
       GraphTools.result_isError := GraphTools.isError r |}.
Proof.
  intros Hprep Hall Hreq Hc Hp Hfail.
  unfold GraphTools.invoke, GraphTools.handler, GraphTools.try_body. rewrite Hprep.
  rewrite request_eq. cbn [fst snd app]. rewrite Hreq. cbn [fst snd].
  unfold GraphTools.after_pagination. rewrite Hall.
  unfold GraphTools.first_item. rewrite Hc.
  unfold GraphTools.paginate. rewrite Hp.
  unfold GraphTools.cursor_of in Hfail.
  destruct (GraphTools.prop "value" page) as [value|];
    [| cbn; now rewrite Hc].
  destruct (GraphTools.prop "@odata.nextLink" page) as [nextLink|];
    [| cbn; now rewrite Hc].
  match goal with
  | |- context [GraphTools.fetch_pages graphClient 100 ?o ?a nextLink 1 ?w] =>
      pose proof (pagination_fails_thrown graphClient o nextLink 1 w Hfail 100 a
                    ltac:(lia) ltac:(lia)) as Hthrown;
      destruct (GraphTools.fetch_pages graphClient 100 o a nextLink 1 w) as [e w']
  end.
  cbn in Hthrown. subst e. cbn. now rewrite Hc.
Qed.

Lemma failed_pagination_returns_first_response_witness :
  fst (GraphTools.invoke (B := Examples.runtime) Examples.fails_on_third
         Examples.list_messages Examples.all_pages 0)
  = {| GraphTools.result_content :=
         [ {| GraphTools.item_type := "text";
              GraphTools.text := Fragment.stringify Examples.page1 |} ];
       GraphTools.result_meta := None;
       GraphTools.result_isError := None |}.
Proof.
  eapply (failed_pagination_returns_first_response (B := Examples.runtime)
           Examples.fails_on_third Examples.list_messages Examples.all_pages 0 1
           {| GraphTools.content :=
                Some [ {| GraphTools.item_type := "text";
                          GraphTools.text := Fragment.stringify Examples.page1 |} ];
              GraphTools._meta := None; GraphTools.isError := None |}
           {| GraphTools.item_type := "text";
              GraphTools.text := Fragment.stringify Examples.page1 |}
           [] Examples.page1).
  - reflexivity.
  - reflexivity.
  - reflexivity.
  - reflexivity.
  - reflexivity.
  - eapply GraphTools.fails_later with (page := Examples.page2);
      [reflexivity | reflexivity | reflexivity | reflexivity | reflexivity | lia |].
    eapply GraphTools.fails_transport; reflexivity.
Defined.

(** C2 as stated fails: the first two pages are fetched and parsed, the
    third fetch throws; the result carries the first page alone, cursor
    included -- not the two items accumulated. *)
Lemma partial_results_counterexample :
  let out := GraphTools.invoke (B := Examples.runtime) Examples.fails_on_third
               Examples.list_messages Examples.all_pages 0 in
  List.length (snd out) = 3 /\
  GraphTools.result_content (fst out)
  = [ {| GraphTools.item_type := "text";
         GraphTools.text := Fragment.stringify Examples.page1 |} ] /\
  JSON_parse (Builtins := Examples.runtime) (Fragment.stringify Examples.page1)
  = Some Examples.page1 /\
  Examples.page1 <> Examples.aggregate_1_2.
Proof.
  cbv zeta. repeat split; try reflexivity. discriminate.
Qed.

(** C5 fails on the code: a path that names the parameter twice keeps its
    second placeholder, for either form. *)
Theorem repeated_placeholder_left_unresolved :
  GraphTools.translate (B := Examples.runtime) Examples.member_of_itself Examples.id_42
  = inr {| GraphTools.t_path := "/groups/42/members/{id}";
           GraphTools.t_queryParams := []; GraphTools.t_headers := [];
           GraphTools.t_body := JNull |} /\
  GraphTools.translate (B := Examples.runtime) Examples.member_of_itself_colon
    Examples.id_42
  = inr {| GraphTools.t_path := "/groups/42/members/:id";
           GraphTools.t_queryParams := []; GraphTools.t_headers := [];
           GraphTools.t_body := JNull |} /\
  map fst (snd (GraphTools.invoke (B := Examples.runtime) (GraphTools.scripted [])
                  Examples.member_of_itself Examples.id_42 0))
  = ["/groups/42/members/{id}"].
Proof. repeat split. Qed.

(** C3 fails on the code: two pages, the first with [@odata.count] zero;
    the items are aggregated and the cursor removed, but the count stays
    zero. *)
Theorem zero_count_is_not_updated :
  GraphTools.result_content
    (fst (GraphTools.invoke (B := Examples.runtime) Examples.two_pages_count0
            Examples.list_messages Examples.all_pages 0))
  = [ {| GraphTools.item_type := "text";
         GraphTools.text := Fragment.stringify Examples.aggregate_1_2_count0 |} ].
Proof. reflexivity. Qed.

(** ** The page cap *)
Section PageCap.
Context {Num : JSNumber} {B : Builtins}.
Import Catalog GraphTools.
Variable graphClient : GraphClient.
Hypothesis endless : forall st path o,
  page_with_cursor (fst (graphRequest graphClient st path o)).

(** With [pageCount] pages read and cursors that never end, the loop
    fetches until the count passes 100: [101 - pageCount] requests. *)
Lemma fetch_pages_capped k : forall fuel o l link url pageCount
                                    (w : world graphClient),
  pageCount + k = 100 -> k < fuel ->
  truthy link = true -> new_URL link = Some url ->
  exists l' w',
    fetch_pages graphClient fuel o (JArr l) (Some link) pageCount w
    = (Completed (JArr l') 101, w') /\
    List.length (snd w') = List.length (snd w) + S k.
Proof.
  induction k as [|k IH]; intros [|fuel] o l link url pc w Hpc Hfuel Ht Hu;
    try lia; cbn [fetch_pages]; rewrite Ht, Hu; cbn [negb]; cbv zeta;
    rewrite request_eq;
    destruct (endless (fst w) (JSString.replace "/v1.0" "" (pathname url))
                (with_queryParams o (nextQueryParams url)))
      as [r [item [rest [fields [link' [url' [Ha [Hc [Hp [Hv [Hl [Ht' Hu']]]]]]]]]]]];
    rewrite Ha; unfold first_item; rewrite Hc, Hp; cbn [prop]; rewrite Hl.
  - assert (E : Nat.ltb 100 (S pc) = true) by (apply Nat.ltb_lt; lia).
    destruct Hv as [-> | [items ->]]; cbn [concat]; rewrite E;
      eexists _, _; (split; [replace (S pc) with 101 by lia; reflexivity |]);
      cbn [snd]; rewrite length_app; cbn; lia.
  - assert (E : Nat.ltb 100 (S pc) = false) by (apply Nat.ltb_ge; lia).
    destruct Hv as [-> | [items ->]]; cbn [concat]; rewrite E.
    + edestruct (IH fuel o l link' url' (S pc)) as [l' [w' [H1 H2]]];
        [lia | lia | exact Ht' | exact Hu' |].
      rewrite H1. eexists _, _. split; [reflexivity |].
      rewrite H2. cbn [snd]. rewrite length_app. cbn. lia.
    + edestruct (IH fuel o (l ++ items)%list link' url' (S pc)) as [l' [w' [H1 H2]]];
        [lia | lia | exact Ht' | exact Hu' |].
      rewrite H1. eexists _, _. split; [reflexivity |].
      rewrite H2. cbn [snd]. rewrite length_app. cbn. lia.
Qed.

End PageCap.

(** C4.  When all pages are asked for and every answer of the transport is
    a page with a cursor, the handler issues 101 requests: the translated
    one and exactly 100 follow-ups.  It reports no error of its own: the
    result is the first response with the text of its first item replaced
    by the aggregate, from which the cursor is removed. *)
Theorem pagination_stops_at_page_cap {Num : JSNumber} {B : Builtins}
        (graphClient : GraphTools.GraphClient) (tool : Catalog.endpoint)
        (params : JSObject.t json) (st : GraphTools.client_state graphClient)
        (path : string) (o : GraphTools.options) :
  GraphTools.prepare tool params = inr (path, o) ->
  JSObject.get "fetchAllPages" params = Some (JBool true) ->
  (forall st path o,
      GraphTools.page_with_cursor (fst (GraphTools.graphRequest graphClient st path o))) ->
  (exists more,
      snd (GraphTools.invoke graphClient tool params st) = (path, o) :: more /\
      List.length more = 100 /\
      Forall (GraphTools.follows o) more) /\
  exists r item rest fields,
    fst (GraphTools.graphRequest graphClient st path o) = GraphTools.Returns (Some r) /\
    GraphTools.content r = Some (item :: rest) /\
    JSObject.get "@odata.nextLink" fields = None /\
    fst (GraphTools.invoke graphClient tool params st)
    = {| GraphTools.result_content :=
           {| GraphTools.item_type := "text";
              GraphTools.text := JSON_stringify (JObj fields) |}
           :: map (fun i => {| GraphTools.item_type := "text";
                               GraphTools.text := GraphTools.text i |}) rest;
         GraphTools.result_meta := GraphTools._meta r;
         GraphTools.result_isError := GraphTools.isError r |}.
Proof.
  intros Hprep Hall Hendless.
  enough (Hmain : List.length (snd (GraphTools.invoke graphClient tool params st)) = 101 /\
                  exists r item rest fields,
    fst (GraphTools.graphRequest graphClient st path o) = GraphTools.Returns (Some r) /\
    GraphTools.content r = Some (item :: rest) /\
    JSObject.get "@odata.nextLink" fields = None /\
    fst (GraphTools.invoke graphClient tool params st)
    = {| GraphTools.result_content :=
           {| GraphTools.item_type := "text";
              GraphTools.text := JSON_stringify (JObj fields) |}
           :: map (fun i => {| GraphTools.item_type := "text";
                               GraphTools.text := GraphTools.text i |}) rest;
         GraphTools.result_meta := GraphTools._meta r;
         GraphTools.result_isError := GraphTools.isError r |}).
  { destruct Hmain as [Hlen Hres]. split; [| exact Hres].
    destruct (invoke_trace graphClient tool params st path o Hprep)
      as [more [Htrace Hmore]].
    exists more. rewrite Htrace in Hlen. cbn in Hlen.
    split; [exact Htrace |]. split; [lia | exact Hmore]. }
  destruct (Hendless st path o)
    as [r [item [rest [fields [link [url [Ha [Hc [Hp [Hv [Hl [Ht Hu]]]]]]]]]]]].
  unfold GraphTools.invoke, GraphTools.handler, GraphTools.try_body. rewrite Hprep.
  rewrite request_eq. cbn [fst snd app]. rewrite Ha.
  unfold GraphTools.after_pagination. rewrite Hall.
  unfold GraphTools.first_item. rewrite Hc.
  unfold GraphTools.paginate. rewrite Hp. cbn [GraphTools.prop]. rewrite Hl.
  set (w := (snd (GraphTools.graphRequest graphClient st path o), [(path, o)])).
  assert (Hloop : forall l, exists l' w',
             GraphTools.fetch_pages graphClient 100 o (JArr l) (Some link) 1 w
             = (GraphTools.Completed (JArr l') 101, w') /\
             List.length (snd w') = 101).
  { intros l.
    destruct (fetch_pages_capped graphClient Hendless 99 100 o l link url 1 w)
      as [l' [w' [H1 H2]]]; [lia | lia | exact Ht | exact Hu |].
    exists l', w'. split; [exact H1 |]. rewrite H2. reflexivity. }
  destruct Hv as [Hv | [items Hv]]; rewrite Hv; cbn [truthy_opt truthy].
  - destruct (Hloop []) as [l' [w' [H1 H2]]]. rewrite H1.
    cbn [GraphTools.finish GraphTools.assemble GraphTools.content fst snd].
    split; [exact H2 |].
    eexists r, item, rest, _.
    split; [reflexivity |]. split; [exact Hc |].
    split; [apply JSObject_get_delete_same | reflexivity].
  - destruct (Hloop items) as [l' [w' [H1 H2]]]. rewrite H1.
    cbn [GraphTools.finish GraphTools.assemble GraphTools.content fst snd].
    split; [exact H2 |].
    eexists r, item, rest, _.
    split; [reflexivity |]. split; [exact Hc |].
    split; [apply JSObject_get_delete_same | reflexivity].
Qed.

Lemma pagination_stops_at_page_cap_witness :
  exists o more,
    GraphTools.prepare (B := Examples.runtime) Examples.list_messages Examples.all_pages
    = inr ("/me/messages", o) /\
    snd (GraphTools.invoke (B := Examples.runtime) Examples.endless
           Examples.list_messages Examples.all_pages tt)
    = ("/me/messages", o) :: more /\
    List.length more = 100 /\
    Forall (GraphTools.follows o) more.
Proof.
  destruct (pagination_stops_at_page_cap (B := Examples.runtime) Examples.endless
              Examples.list_messages Examples.all_pages tt _ _ eq_refl eq_refl)
    as [[more H] _].
  - intros st path o. unfold GraphTools.page_with_cursor.
    do 6 eexists.
    split; [reflexivity |]. split; [reflexivity |]. split; [reflexivity |].
    split; [right; eexists; reflexivity |].
    split; [reflexivity |]. split; reflexivity.
  - eexists _, more. split; [reflexivity | exact H].
Defined.

(** ** Aggregation of the pages of a collection *)
Section Aggregation.
Context {Num : JSNumber} {B : Builtins}.
Import Catalog GraphTools.

(** What the statements after the loop make of an object and an array of
    items. *)
Lemma finish_object (fields : JSObject.t json) (all : list json) :
  exists fields',
    finish (JObj fields) (JArr all) = Some (JObj fields') /\
    JSObject.get "value" fields' = Some (JArr all) /\
    JSObject.get "@odata.nextLink" fields' = None /\
    (truthy_opt (JSObject.get "@odata.count" fields) = true ->
     JSObject.get "@odata.count" fields'
     = Some (JNum (number_of_length (List.length all)))) /\
    (truthy_opt (JSObject.get "@odata.count" fields) = false ->
     JSObject.get "@odata.count" fields' = JSObject.get "@odata.count" fields).
Proof.
  eexists. split; [reflexivity |].
  assert (Hc : JSObject.get "@odata.count" (JSObject.set "value" (JArr all) fields)
               = JSObject.get "@odata.count" fields)
    by (apply JSObject_get_set_other; discriminate).
  rewrite Hc. cbn [length_of].
  destruct (truthy_opt (JSObject.get "@odata.count" fields)).
  - split; [| split; [apply JSObject_get_delete_same |]].
    + rewrite JSObject_get_delete_other, JSObject_get_set_other,
        JSObject_get_set_same by discriminate. reflexivity.
    + split; [| discriminate]. intros _.
      rewrite JSObject_get_delete_other, JSObject_get_set_same by discriminate.
      reflexivity.
  - split; [| split; [apply JSObject_get_delete_same |]].
    + rewrite JSObject_get_delete_other, JSObject_get_set_same by discriminate.
      reflexivity.
    + split; [discriminate |]. intros _.
      rewrite JSObject_get_delete_other by discriminate. exact Hc.
Qed.

Lemma nth_after_prefix {A} (prefix : list A) (x : A) (rest : list A) (d : A) :
  nth (List.length prefix) (prefix ++ x :: rest)%list d = x.
Proof.
  induction prefix as [|y prefix IH]; simpl; [reflexivity | exact IH].
Qed.

(** From a cursor, the loop reads the remaining pages of the collection
    off the script and appends their items. *)
Lemma fetch_pages_scripted pages more :
  collection pages more ->
  forall answers prefix fuel o l link url pageCount
         (w : world (scripted answers)),
    answers = (prefix ++ map (fun d => text_response (JSON_stringify d)) pages)%list ->
    (forall d, In d pages -> JSON_parse (JSON_stringify d) = Some d) ->
    fst w = List.length prefix ->
    truthy link = true -> new_URL link = Some url ->
    pageCount + List.length pages <= 101 -> List.length pages <= fuel ->
    exists w',
      fetch_pages (scripted answers) fuel o (JArr l) (Some link) pageCount w
      = (Completed (JArr (l ++ more)) (pageCount + List.length pages), w').
Proof.
  induction 1 as [fields items Hv Hl
                 |fields items link' url' pages more Hv Hl Ht' Hu' Hcoll IH];
    intros answers prefix [|fuel] o l link url pc w Hans Hrt Hw Ht Hu Hpc Hfuel;
    try (cbn in Hfuel; lia);
    cbn [fetch_pages]; rewrite Ht, Hu; cbn [negb]; cbv zeta;
    rewrite request_eq; cbn [scripted graphRequest fst snd];
    rewrite Hw, Hans; cbn [map]; rewrite nth_after_prefix;
    cbn [text_response first_item content text];
    (rewrite Hrt by now left); cbn [prop]; rewrite Hv, Hl; cbn [concat].
  - replace (pc + List.length [JObj fields]) with (S pc) by (cbn; lia).
    destruct (Nat.ltb 100 (S pc)); [eexists; reflexivity |].
    destruct fuel; eexists; reflexivity.
  - assert (Hlen : 1 <= List.length pages) by (inversion Hcoll; cbn; lia).
    cbn [List.length] in Hpc, Hfuel.
    assert (E : Nat.ltb 100 (S pc) = false) by (apply Nat.ltb_ge; lia).
    rewrite E.
    match goal with
    | |- context [fetch_pages _ fuel o _ (Some link') (S pc) ?w1] =>
        destruct (IH (prefix ++ map (fun d => text_response (JSON_stringify d))
                                    (JObj fields :: pages))%list
                     (prefix ++ [text_response (JSON_stringify (JObj fields))])%list
                     fuel o (l ++ items)%list link' url' (S pc) w1) as [w' Hw']
    end.
    + cbn [map]. now rewrite <- app_assoc.
    + intros d Hd. apply Hrt. now right.
    + cbn [fst]. rewrite length_app. cbn. lia.
    + exact Ht'.
    + exact Hu'.
    + lia.
    + lia.
    + exists w'. cbn [map] in Hw'. rewrite Hw'. rewrite <- app_assoc.
      replace (S pc + List.length pages) with (pc + List.length (JObj fields :: pages))
        by (cbn; lia).
      reflexivity.
Qed.

(** Aggregating the pages of a collection of at most 101 pages yields one
    response: the first page with [value] replaced by all the items, the
    cursor removed, and the count -- when there is a truthy one -- set to
    the number of items. *)
Lemma pages_aggregate tool params fields pages all path o :
  prepare tool params = inr (path, o) ->
  JSObject.get "fetchAllPages" params = Some (JBool true) ->
  collection (JObj fields :: pages) all ->
  List.length (JObj fields :: pages) <= 101 ->
  (forall d, In d (JObj fields :: pages) -> JSON_parse (JSON_stringify d) = Some d) ->
  exists fields',
    fst (invoke (scripted (map (fun d => text_response (JSON_stringify d))
                               (JObj fields :: pages))) tool params 0)
    = {| result_content := [ {| item_type := "text";
                                text := JSON_stringify (JObj fields') |} ];
         result_meta := None; result_isError := None |} /\
    JSObject.get "value" fields' = Some (JArr all) /\
    JSObject.get "@odata.nextLink" fields' = None /\
    (truthy_opt (JSObject.get "@odata.count" fields) = true ->
     JSObject.get "@odata.count" fields'
     = Some (JNum (number_of_length (List.length all)))).
Proof.
  intros Hprep Hall Hcoll Hlen Hrt.
  destruct (finish_object fields all) as [fields' [Hf [H1 [H2 [H3 _]]]]].
  exists fields'. split; [| auto].
  unfold invoke, handler, try_body. rewrite Hprep.
  rewrite request_eq. cbn [scripted graphRequest fst snd nth map app].
  unfold after_pagination. rewrite Hall.
  cbn [text_response first_item content text]. unfold paginate. cbn [text].
  rewrite (Hrt (JObj fields)) by now left. cbn [prop].
  inversion Hcoll as [fields0 items Hv Hl | fields0 items link url pages0 more
                                             Hv Hl Ht Hu Hcoll']; subst.
  - rewrite Hv, Hl. cbn [truthy_opt truthy fetch_pages]. rewrite Hf. reflexivity.
  - rewrite Hv, Hl. cbn [truthy_opt truthy].
    match goal with
    | |- context [fetch_pages _ 100 ?o _ (Some link) 1 ?w1] =>
        destruct (fetch_pages_scripted pages more Hcoll'
                    (map (fun d => text_response (JSON_stringify d))
                         (JObj fields :: pages))
                    [text_response (JSON_stringify (JObj fields))]
                    100 o items link url 1 w1) as [w' Hw'];
          [reflexivity | intros d Hd; apply Hrt; now right | reflexivity
          | exact Ht | exact Hu | cbn in Hlen |- *; lia | cbn in Hlen; lia |]
    end.
    cbn [map] in Hw'. rewrite Hw'. rewrite Hf. reflexivity.
Qed.

End Aggregation.

(** ** The replacement text of a path parameter *)
Section Encoding.
Import JSString.

Lemma percent_literal (c : ascii) :
  forallb literal_char (list_ascii_of_string (percent c)) = true.
Proof.
  destruct c as [[] [] [] [] [] [] [] []]; reflexivity.
Qed.

Lemma list_ascii_of_string_app (s t : string) :
  list_ascii_of_string (s ++ t)
  = (list_ascii_of_string s ++ list_ascii_of_string t)%list.
Proof.
  induction s as [|c s IH]; simpl; [reflexivity | now rewrite IH].
Qed.

(** An encoded value is made of unreserved characters and [%]. *)
Lemma encode_literal (s : string) :
  forallb literal_char (list_ascii_of_string (encode s)) = true.
Proof.
  induction s as [|c s IH]; simpl; [reflexivity |].
  rewrite list_ascii_of_string_app, forallb_app, IH, andb_true_r.
  destruct (unreserved c) eqn:E; [| apply percent_literal].
  simpl. unfold literal_char at 1. now rewrite E.
Qed.

Lemma encodeURIComponent_literal (s e : string) :
  encodeURIComponent s = inr e ->
  forallb literal_char (list_ascii_of_string e) = true.
Proof.
  unfold encodeURIComponent. destruct (lone_surrogate s); [discriminate |].
  intros [= <-]. apply encode_literal.
Qed.

Lemma includes_char (c : ascii) (s : string) :
  includes (String c EmptyString) s = existsb (Ascii.eqb c) (list_ascii_of_string s).
Proof.
  induction s as [|a s IH]; simpl; [reflexivity |].
  rewrite IH. unfold startsWith. simpl.
  destruct (ascii_dec c a) as [-> | Hne].
  - rewrite Ascii.eqb_refl. now destruct s.
  - apply Ascii.eqb_neq in Hne. rewrite Hne. reflexivity.
Qed.

(** So it holds no [$] for [replace] to interpret, and no [{] or [:] to
    make a new placeholder. *)
Lemma encodeURIComponent_plain (s e : string) :
  encodeURIComponent s = inr e ->
  includes "$" e = false /\ includes "{" e = false /\ includes ":" e = false.
Proof.
  intros He. pose proof (encodeURIComponent_literal s e He) as H.
  rewrite forallb_forall in H.
  repeat split; rewrite includes_char;
    destruct (existsb _ _) eqn:E; try reflexivity;
    apply existsb_exists in E as [c [Hc E]]; apply Ascii.eqb_eq in E; subst c;
    apply H in Hc; discriminate.
Qed.

End Encoding.

(* ===================================================================== *)
(** * Part III.  Further properties of the code                           *)
(* ===================================================================== *)

(** ** The translator, beyond the renaming *)
Section Translator.
Context {Num : JSNumber} {B : Builtins}.
Import Catalog GraphTools.

Lemma translate_param_control defs t v :
  translate_param defs t ("fetchAllPages", v) = inr t.
Proof. reflexivity. Qed.

Lemma translate_loop_without_control defs params : forall t,
  translate_loop defs (JSObject.delete "fetchAllPages" params) t
  = translate_loop defs params t.
Proof.
  induction params as [|[n v] params IH]; intros t; [reflexivity |].
  unfold JSObject.delete in *. cbn [filter fst].
  destruct (String.eqb_spec "fetchAllPages" n) as [<- | Hne]; cbn [negb].
  - cbn [translate_loop]. rewrite translate_param_control. apply IH.
  - cbn [translate_loop]. destruct (translate_param defs t (n, v)); [reflexivity |].
    apply IH.
Qed.

Lemma translate_param_path_other defs t n v t' :
  translate_param defs t (n, v) = inr t' ->
  kind_of defs n <> Some "Path" -> t_path t' = t_path t.
Proof.
  unfold translate_param, kind_of.
  destruct (String.eqb n "fetchAllPages"); [now intros [= <-] |].
  destruct (find _ defs) as [p|];
    [| destruct (String.eqb n "body"); now intros [= <-]].
  destruct (String.eqb_spec (type p) "Path") as [-> | _]; [congruence |].
  destruct (String.eqb (type p) "Query").
  { destruct (ToString v); [discriminate | now intros [= <-]]. }
  destruct (String.eqb (type p) "Body"); [now intros [= <-] |].
  destruct (String.eqb (type p) "Header"); [| now intros [= <-]].
  destruct (ToString v); [discriminate | now intros [= <-]].
Qed.

Lemma translate_loop_path_other defs params : forall t t',
  translate_loop defs params t = inr t' ->
  (forall n v, In (n, v) params -> kind_of defs n <> Some "Path") ->
  t_path t' = t_path t.
Proof.
  induction params as [|[n v] params IH]; intros t t' Hloop H;
    cbn [translate_loop] in Hloop; [now injection Hloop as <- |].
  destruct (translate_param defs t (n, v)) as [m | t1] eqn:E; [discriminate |].
  rewrite (IH _ _ Hloop) by (intros n' v' Hin; apply (H n' v'); now right).
  apply (translate_param_path_other _ _ _ _ _ E), (H n v). now left.
Qed.

End Translator.

(** X1.  The pagination control [fetchAllPages] takes no part in the
    translation: the bag without it gives the same path, query
    parameters, headers and body, or the same Error -- even when the
    catalog declares a parameter of that name. *)
Theorem pagination_control_is_stripped {Num : JSNumber} {B : Builtins}
        (tool : Catalog.endpoint) (params : JSObject.t json) :
  GraphTools.translate tool (JSObject.delete "fetchAllPages" params)
  = GraphTools.translate tool params.
Proof.
  unfold GraphTools.translate. apply translate_loop_without_control.
Qed.

(** X2.  Unless the bag binds [fetchAllPages] to the boolean [true], the
    handler issues at most one request.  When the preparation of the
    request throws -- as it does when a bound [Path], [Query] or [Header]
    value has no string form -- it issues none and the result is the error
    result.  Otherwise it issues the translated request and nothing else,
    and the result is made of the response as it came (or is the error
    result). *)
Theorem single_request_without_flag {Num : JSNumber} {B : Builtins}
        (graphClient : GraphTools.GraphClient) (tool : Catalog.endpoint)
        (params : JSObject.t json) (st : GraphTools.client_state graphClient) :
  JSObject.get "fetchAllPages" params <> Some (JBool true) ->
  GraphTools.invoke graphClient tool params st
  = match GraphTools.prepare tool params with
    | inl message => (GraphTools.error_result tool message, [])
    | inr (path, o) =>
        (match fst (GraphTools.graphRequest graphClient st path o) with
         | GraphTools.Throws message => GraphTools.error_result tool message
         | GraphTools.Returns response =>
             match GraphTools.assemble response with
             | inr result => result
             | inl message => GraphTools.error_result tool message
             end
         end,
         [(path, o)])
    end /\
  (forall n v k message,
      In (n, v) params ->
      GraphTools.kind_of (GraphTools.definitions tool) n = Some k ->
      In k ["Path"; "Query"; "Header"] ->
      ToString v = inl message ->
      snd (GraphTools.invoke graphClient tool params st) = [] /\
      GraphTools.result_isError (fst (GraphTools.invoke graphClient tool params st))
      = Some true).
Proof.
  intros Hflag. split.
  - unfold GraphTools.invoke, GraphTools.handler, GraphTools.try_body.
    destruct (GraphTools.prepare tool params) as [message | [path o]]; [reflexivity |].
    rewrite request_eq. cbn [fst snd app].
    destruct (fst (GraphTools.graphRequest graphClient st _ _)) as [message | response];
      [reflexivity |].
    unfold GraphTools.after_pagination.
    destruct (JSObject.get "fetchAllPages" params) as [[| [|] | | | |]|];
      try congruence;
      now destruct (GraphTools.assemble response).
  - intros n v k message Hin Hk Hkind Hv.
    destruct (translate_loop_throws (GraphTools.definitions tool) params
                {| GraphTools.t_path := Catalog.path tool;
                   GraphTools.t_queryParams := []; GraphTools.t_headers := [];
                   GraphTools.t_body := JNull |} n v k message Hin Hk Hkind Hv)
      as [message' Hthrown].
    rewrite (invoke_thrown graphClient tool params st message'); [now split |].
    unfold GraphTools.prepare, GraphTools.translate.
    fold (GraphTools.definitions tool). now rewrite Hthrown.
Qed.

Lemma single_request_without_flag_witness :
  GraphTools.invoke (B := Examples.runtime) Examples.fails_on_second
    Examples.list_messages Samples.unprintable_filter 0
  = (GraphTools.error_result (B := Examples.runtime) Examples.list_messages
       "Cannot convert object to primitive value", []) /\
  map fst (snd (GraphTools.invoke (B := Examples.runtime) Examples.fails_on_second
                  Examples.list_messages Examples.filtered_with_body 0))
  = ["/me/messages?%24filter=isRead%20eq%20false"].
Proof.
  split.
  - destruct (single_request_without_flag (B := Examples.runtime)
                Examples.fails_on_second Examples.list_messages
                Samples.unprintable_filter 0) as [H _]; [discriminate |].
    rewrite H. reflexivity.
  - destruct (single_request_without_flag (B := Examples.runtime)
                Examples.fails_on_second Examples.list_messages
                Examples.filtered_with_body 0) as [H _]; [discriminate |].
    rewrite H. reflexivity.
Defined.

(** X3.  Only parameters of kind [Path] touch the path: when the bag
    binds none, every placeholder of the template is still there, the
    path of the translation being the template itself. *)
Theorem path_untouched_without_path_parameters {Num : JSNumber} {B : Builtins}
        (tool : Catalog.endpoint) (params : JSObject.t json)
        (t : GraphTools.translation) :
  (forall n v, In (n, v) params ->
               GraphTools.kind_of (GraphTools.definitions tool) n <> Some "Path") ->
  GraphTools.translate tool params = inr t ->
  GraphTools.t_path t = Catalog.path tool.
Proof.
  intros H Ht. unfold GraphTools.translate in Ht.
  now rewrite (translate_loop_path_other _ _ _ _ Ht H).
Qed.

Lemma path_untouched_without_path_parameters_witness :
  exists t,
    GraphTools.translate (B := Examples.runtime)
      Examples.list_messages Examples.filtered_with_body = inr t /\
    GraphTools.t_path t = Catalog.path Examples.list_messages.
Proof.
  eexists. split; [reflexivity |].
  apply (path_untouched_without_path_parameters (B := Examples.runtime)
           Examples.list_messages Examples.filtered_with_body).
  - intros n v [[= <- <-] | [[= <- <-] | [[= <- <-] | []]]]; discriminate.
  - reflexivity.
Defined.

(** ** The pagination engine, beyond the cap and the failure *)
Section Engine.
Context {Num : JSNumber} {B : Builtins}.
Import Catalog GraphTools.
Variable graphClient : GraphClient.

#[local] Abbreviation world := (world graphClient).

Ltac split_cases H :=
  repeat match type of H with
         | context [match ?x with _ => _ end] =>
             let E := fresh "E" in destruct x eqn:E; cbn beta iota in H
         end.

(** Each turn of the loop issues one request, and a turn is only taken
    with at most 100 pages read. *)
Lemma fetch_pages_bound fuel : forall o allItems nextLink pageCount (w : world) e w',
  pageCount <= 100 ->
  fetch_pages graphClient fuel o allItems nextLink pageCount w = (e, w') ->
  List.length (snd w') + pageCount <= List.length (snd w) + 101.
Proof.
  induction fuel as [|fuel IH]; intros o allItems nextLink pageCount w e w' Hpc H.
  - simpl in H. destruct nextLink as [link|]; [destruct (negb (truthy link)) |];
      inversion H; subst; lia.
  - cbn [fetch_pages] in H.
    destruct nextLink as [link|]; [| inversion H; subst; lia].
    destruct (negb (truthy link)); [inversion H; subst; lia |].
    destruct (new_URL link) as [url|]; [| inversion H; subst; lia].
    cbv zeta in H.
    destruct (request graphClient _ _ w) as [answer w1] eqn:Er.
    apply request_trace in Er.
    assert (Hone : List.length (snd w1) = List.length (snd w) + 1)
      by (rewrite Er, length_app; reflexivity).
    split_cases H; try (inversion H; subst; lia).
    match goal with
    | E : Nat.ltb 100 _ = false |- _ => apply Nat.ltb_ge in E
    end.
    apply IH in H; lia.
Qed.

Lemma paginate_bound o r item rest (w : world) res w' :
  paginate graphClient o r item rest w = (res, w') ->
  List.length (snd w') <= List.length (snd w) + 100.
Proof.
  unfold paginate. intros H.
  split_cases H; inversion H; subst; clear H; try lia;
    match goal with
    | E : fetch_pages _ _ _ _ _ _ _ = _ |- _ => apply fetch_pages_bound in E; lia
    end.
Qed.

Lemma after_pagination_bound params o response (w : world) response' w' :
  after_pagination graphClient params o response w = (response', w') ->
  List.length (snd w') <= List.length (snd w) + 100.
Proof.
  unfold after_pagination. intros H.
  destruct (JSObject.get "fetchAllPages" params) as [[| [|] | | | |]|];
    try (inversion H; subst; lia).
  destruct (first_item response) as [[[r item] rest]|];
    [| inversion H; subst; lia].
  destruct (paginate graphClient o r item rest w) as [res w1] eqn:Ep.
  apply paginate_bound in Ep. destruct res; inversion H; subst; exact Ep.
Qed.

Lemma invoke_bound tool params st :
  List.length (snd (invoke graphClient tool params st)) <= 101.
Proof.
  unfold invoke, handler, try_body.
  destruct (prepare tool params) as [message | [path o]]; [cbn; lia |].
  rewrite request_eq.
  cbn [fst snd app].
  destruct (fst (graphRequest graphClient st _ _)) as [message | response];
    [cbn; lia |].
  destruct (after_pagination graphClient params _ response _) as [response' w']
    eqn:Ea.
  apply after_pagination_bound in Ea. cbn [snd List.length] in Ea.
  destruct (assemble response'); cbn [snd]; lia.
Qed.

End Engine.

(** X4.  Whatever the transport answers, an invocation issues at most 101
    requests: none when the preparation of the request throws; otherwise
    the translated one and at most 100 follow-ups, and every follow-up
    carries the method, headers, body and raw-response flag of the first,
    with query parameters of its own. *)
Theorem requests_are_bounded_and_uniform {Num : JSNumber} {B : Builtins}
        (graphClient : GraphTools.GraphClient) (tool : Catalog.endpoint)
        (params : JSObject.t json) (st : GraphTools.client_state graphClient) :
  match GraphTools.prepare tool params with
  | inl message =>
      GraphTools.invoke graphClient tool params st
      = (GraphTools.error_result tool message, [])
  | inr (path, o) =>
      exists more,
        snd (GraphTools.invoke graphClient tool params st) = (path, o) :: more /\
        List.length more <= 100 /\
        Forall (fun req =>
                  GraphTools.opt_method (snd req) = GraphTools.opt_method o /\
                  GraphTools.opt_headers (snd req) = GraphTools.opt_headers o /\
                  GraphTools.opt_body (snd req) = GraphTools.opt_body o /\
                  GraphTools.opt_rawResponse (snd req) = GraphTools.opt_rawResponse o /\
                  GraphTools.opt_queryParams (snd req) <> None) more
  end /\
  (forall n v k message,
      In (n, v) params ->
      GraphTools.kind_of (GraphTools.definitions tool) n = Some k ->
      In k ["Path"; "Query"; "Header"] ->
      ToString v = inl message ->
      snd (GraphTools.invoke graphClient tool params st) = []).
Proof.
  split.
  - destruct (GraphTools.prepare tool params) as [message | [path o]] eqn:Hp.
    + now apply invoke_thrown.
    + destruct (invoke_trace graphClient tool params st path o Hp)
        as [more [Htrace Hmore]].
      exists more. split; [exact Htrace |]. split.
      * pose proof (invoke_bound graphClient tool params st) as Hb.
        rewrite Htrace in Hb. cbn in Hb. lia.
      * eapply Forall_impl; [| exact Hmore].
        intros req [q ->]. cbn. repeat split. discriminate.
  - intros n v k message Hin Hk Hkind Hv.
    destruct (translate_loop_throws (GraphTools.definitions tool) params
                {| GraphTools.t_path := Catalog.path tool;
                   GraphTools.t_queryParams := []; GraphTools.t_headers := [];
                   GraphTools.t_body := JNull |} n v k message Hin Hk Hkind Hv)
      as [message' Hthrown].
    rewrite (invoke_thrown graphClient tool params st message'); [reflexivity |].
    unfold GraphTools.prepare, GraphTools.translate.
    fold (GraphTools.definitions tool). now rewrite Hthrown.
Qed.

Section WriteBack.
Context {Num : JSNumber} {B : Builtins}.
Import Catalog GraphTools.

(** What the statements after the loop make of an object, whatever was
    accumulated: [value] is set, the cursor is gone, and the keys other
    than these two and the count are as they were. *)
Lemma finish_object_any (fields : JSObject.t json) (allItems : json) :
  exists fields',
    finish (JObj fields) allItems = Some (JObj fields') /\
    JSObject.get "value" fields' = Some allItems /\
    JSObject.get "@odata.nextLink" fields' = None /\
    (forall k, k <> "value" -> k <> "@odata.count" -> k <> "@odata.nextLink" ->
               JSObject.get k fields' = JSObject.get k fields).
Proof.
  eexists. split; [reflexivity |].
  destruct (truthy_opt (JSObject.get "@odata.count"
                          (JSObject.set "value" allItems fields)));
    [destruct (length_of allItems) |];
    (split; [| split; [apply JSObject_get_delete_same |]]).
  - rewrite JSObject_get_delete_other, JSObject_get_set_other,
      JSObject_get_set_same by discriminate. reflexivity.
  - intros k H1 H2 H3.
    now rewrite JSObject_get_delete_other, !JSObject_get_set_other by assumption.
  - rewrite !JSObject_get_delete_other, JSObject_get_set_same by discriminate.
    reflexivity.
  - intros k H1 H2 H3.
    now rewrite !JSObject_get_delete_other, JSObject_get_set_other by assumption.
  - rewrite JSObject_get_delete_other, JSObject_get_set_same by discriminate.
    reflexivity.
  - intros k H1 H2 H3.
    now rewrite JSObject_get_delete_other, JSObject_get_set_other by assumption.
Qed.

Lemma fetch_pages_no_cursor (graphClient : GraphClient) fuel o allItems nextLink
      pageCount (w : world graphClient) :
  truthy_opt nextLink = false ->
  fetch_pages graphClient fuel o allItems nextLink pageCount w
  = (Completed allItems pageCount, w).
Proof.
  destruct nextLink as [link|]; cbn [truthy_opt]; intros H;
    destruct fuel; cbn [fetch_pages]; rewrite ?H; reflexivity.
Qed.

End WriteBack.

(** X5.  When all pages are asked for and the first page is an object
    without a (truthy) cursor, the handler issues one request and writes
    the page back re-serialized: with a [value] field -- that of the page,
    or the empty array when the page has none or a falsy one -- without
    cursor, and with its other fields, the count apart, as they came. *)
Theorem single_page_is_normalized {Num : JSNumber} {B : Builtins}
        (graphClient : GraphTools.GraphClient) (tool : Catalog.endpoint)
        (params : JSObject.t json) (st st1 : GraphTools.client_state graphClient)
        (r : GraphTools.McpResponse) (item : GraphTools.content_item)
        (rest : list GraphTools.content_item) (fields : JSObject.t json)
        (path : string) (o : GraphTools.options) :
  GraphTools.prepare tool params = inr (path, o) ->
  let allItems := match JSObject.get "value" fields with
                  | Some v => if truthy v then v else JArr []
                  | None => JArr []
                  end in
  JSObject.get "fetchAllPages" params = Some (JBool true) ->
  GraphTools.graphRequest graphClient st path o = (GraphTools.Returns (Some r), st1) ->
  GraphTools.content r = Some (item :: rest) ->
  JSON_parse (GraphTools.text item) = Some (JObj fields) ->
  truthy_opt (JSObject.get "@odata.nextLink" fields) = false ->
  exists fields',
    GraphTools.invoke graphClient tool params st
    = ({| GraphTools.result_content :=
            {| GraphTools.item_type := "text";
               GraphTools.text := JSON_stringify (JObj fields') |}
            :: map (fun i => {| GraphTools.item_type := "text";
                                GraphTools.text := GraphTools.text i |}) rest;
          GraphTools.result_meta := GraphTools._meta r;
          GraphTools.result_isError := GraphTools.isError r |},
       [(path, o)]) /\
    JSObject.get "value" fields' = Some allItems /\
    JSObject.get "@odata.nextLink" fields' = None /\
    (forall k, k <> "value" -> k <> "@odata.count" -> k <> "@odata.nextLink" ->
               JSObject.get k fields' = JSObject.get k fields).
Proof.
  intros Hprep allItems Hall Hreq Hc Hp Hl.
  destruct (finish_object_any fields allItems) as [fields' [Hf Hrest]].
  exists fields'. split; [| exact Hrest].
  unfold GraphTools.invoke, GraphTools.handler, GraphTools.try_body. rewrite Hprep.
  rewrite request_eq. cbn [fst snd app]. rewrite Hreq. cbn [fst snd].
  unfold GraphTools.after_pagination. rewrite Hall.
  unfold GraphTools.first_item. rewrite Hc.
  unfold GraphTools.paginate. rewrite Hp. cbn [GraphTools.prop].
  rewrite fetch_pages_no_cursor by exact Hl.
  replace (if truthy_opt (JSObject.get "value" fields)
           then match JSObject.get "value" fields with
                | Some v => v
                | None => JArr []
                end
           else JArr []) with allItems
    by (unfold allItems; destruct (JSObject.get "value" fields) as [v|];
        [cbn [truthy_opt]; now destruct (truthy v) | reflexivity]).
  rewrite Hf. reflexivity.
Qed.

(** X6.  When all pages are asked for and the first follow-up comes back
    without content, pagination ends quietly after that one follow-up: it
    went to the cursor's path without its first [/v1.0], with the cursor's
    search parameters as query parameters, and the result is the first
    page written back with what it held, without cursor. *)
Theorem empty_follow_up_ends_pagination {Num : JSNumber} {B : Builtins}
        (graphClient : GraphTools.GraphClient) (tool : Catalog.endpoint)
        (params : JSObject.t json) (st st1 st2 : GraphTools.client_state graphClient)
        (r : GraphTools.McpResponse) (item : GraphTools.content_item)
        (rest : list GraphTools.content_item) (fields : JSObject.t json)
        (items : list json) (link : json) (url : URL)
        (response : option GraphTools.McpResponse)
        (path : string) (o : GraphTools.options) :
  GraphTools.prepare tool params = inr (path, o) ->
  let nextPath := JSString.replace "/v1.0" "" (pathname url) in
  let nextOptions := GraphTools.with_queryParams o (GraphTools.nextQueryParams url) in
  JSObject.get "fetchAllPages" params = Some (JBool true) ->
  GraphTools.graphRequest graphClient st path o = (GraphTools.Returns (Some r), st1) ->
  GraphTools.content r = Some (item :: rest) ->
  JSON_parse (GraphTools.text item) = Some (JObj fields) ->
  JSObject.get "value" fields = Some (JArr items) ->
  JSObject.get "@odata.nextLink" fields = Some link ->
  truthy link = true ->
  GraphTools.new_URL link = Some url ->
  GraphTools.graphRequest graphClient st1 nextPath nextOptions
  = (GraphTools.Returns response, st2) ->
  GraphTools.first_item response = None ->
  exists fields',
    GraphTools.invoke graphClient tool params st
    = ({| GraphTools.result_content :=
            {| GraphTools.item_type := "text";
               GraphTools.text := JSON_stringify (JObj fields') |}
            :: map (fun i => {| GraphTools.item_type := "text";
                                GraphTools.text := GraphTools.text i |}) rest;
          GraphTools.result_meta := GraphTools._meta r;
          GraphTools.result_isError := GraphTools.isError r |},
       [(path, o); (nextPath, nextOptions)]) /\
    JSObject.get "value" fields' = Some (JArr items) /\
    JSObject.get "@odata.nextLink" fields' = None.
Proof.
  intros Hprep nextPath nextOptions Hall Hreq Hc Hp Hv Hl Ht Hu Hnext Hempty.
  subst nextOptions nextPath.
  destruct (finish_object_any fields (JArr items)) as [fields' [Hf [H1 [H2 _]]]].
  exists fields'. split; [| split; assumption].
  unfold GraphTools.invoke, GraphTools.handler, GraphTools.try_body. rewrite Hprep.
  rewrite request_eq. cbn [fst snd app]. rewrite Hreq. cbn [fst snd].
  unfold GraphTools.after_pagination. rewrite Hall.
  unfold GraphTools.first_item at 1. rewrite Hc.
  unfold GraphTools.paginate. rewrite Hp. cbn [GraphTools.prop]. rewrite Hv, Hl.
  cbn [truthy_opt truthy GraphTools.fetch_pages]. rewrite Ht, Hu. cbn [negb].
  cbv zeta. rewrite request_eq. cbn [fst snd app]. rewrite Hnext. cbn [fst snd].
  rewrite Hempty, Hf. reflexivity.
Qed.

Lemma single_page_is_normalized_witness :
  exists fields',
    fst (GraphTools.invoke (B := Samples.runtime_with_profile) Samples.one_profile
           Examples.list_messages Examples.all_pages 0)
    = {| GraphTools.result_content :=
           [ {| GraphTools.item_type := "text";
                GraphTools.text := Fragment.stringify (JObj fields') |} ];
         GraphTools.result_meta := None;
         GraphTools.result_isError := None |} /\
    JSObject.get "value" fields' = Some (JArr []) /\
    JSObject.get "displayName" fields'
    = JSObject.get "displayName" Samples.profile_fields.
Proof.
  destruct (single_page_is_normalized (B := Samples.runtime_with_profile)
              Samples.one_profile Examples.list_messages Examples.all_pages 0 1
              {| GraphTools.content :=
                   Some [ {| GraphTools.item_type := "text";
                             GraphTools.text := Fragment.stringify Samples.profile |} ];
                 GraphTools._meta := None; GraphTools.isError := None |}
              {| GraphTools.item_type := "text";
                 GraphTools.text := Fragment.stringify Samples.profile |}
              [] Samples.profile_fields _ _
              eq_refl eq_refl eq_refl eq_refl eq_refl eq_refl)
    as [fields' [Hinv [Hv [_ Hk]]]].
  exists fields'. split; [now rewrite Hinv |]. split; [exact Hv |].
  apply Hk; discriminate.
Defined.

Lemma empty_follow_up_ends_pagination_witness :
  exists fields',
    snd (GraphTools.invoke (B := Examples.runtime) Samples.empty_second
           Examples.list_messages Examples.all_pages 0)
    = [ ("/me/messages",
         {| GraphTools.opt_method := "GET"; GraphTools.opt_headers := [];
            GraphTools.opt_body := None; GraphTools.opt_rawResponse := false;
            GraphTools.opt_queryParams := None |});
        ("/me/messages",
         {| GraphTools.opt_method := "GET"; GraphTools.opt_headers := [];
            GraphTools.opt_body := None; GraphTools.opt_rawResponse := false;
            GraphTools.opt_queryParams := Some [("$skip", "1")] |}) ] /\
    JSObject.get "value" fields' = Some (JArr Samples.page1_items) /\
    JSObject.get "@odata.nextLink" fields' = None.
Proof.
  destruct (empty_follow_up_ends_pagination (B := Examples.runtime)
              Samples.empty_second Examples.list_messages Examples.all_pages 0 1 2
              {| GraphTools.content :=
                   Some [ {| GraphTools.item_type := "text";
                             GraphTools.text := Fragment.stringify Examples.page1 |} ];
                 GraphTools._meta := None; GraphTools.isError := None |}
              {| GraphTools.item_type := "text";
                 GraphTools.text := Fragment.stringify Examples.page1 |}
              [] Samples.page1_fields Samples.page1_items (Examples.link "1")
              {| pathname := "/v1.0/me/messages"; searchParams := [("$skip", "1")] |}
              None _ _
              eq_refl eq_refl eq_refl eq_refl eq_refl eq_refl eq_refl eq_refl eq_refl
              eq_refl eq_refl)
    as [fields' [Hinv [Hv Hl]]].
  exists fields'. split; [now rewrite Hinv |]. split; assumption.
Defined.

(** ** The body of the request *)
Section Body.
Context {Num : JSNumber} {B : Builtins}.
Import Catalog GraphTools.

Lemma translate_param_body defs t n v t' :
  translate_param defs t (n, v) = inr t' ->
  t_body t' = if routes_body defs n then body_of v else t_body t.
Proof.
  unfold translate_param, routes_body.
  destruct (String.eqb n "fetchAllPages"); [now intros [= <-] |].
  destruct (find _ defs) as [p|];
    [| destruct (String.eqb n "body"); now intros [= <-]].
  destruct (String.eqb (type p) "Path").
  { destruct (ToString v) as [m | s]; [discriminate |].
    destruct (JSString.encodeURIComponent s); [discriminate | now intros [= <-]]. }
  destruct (String.eqb (type p) "Query").
  { destruct (ToString v); [discriminate | now intros [= <-]]. }
  destruct (String.eqb (type p) "Body"); [now intros [= <-] |].
  destruct (String.eqb (type p) "Header"); [| now intros [= <-]].
  destruct (ToString v); [discriminate | now intros [= <-]].
Qed.

Lemma translate_loop_body_other defs params : forall t t',
  translate_loop defs params t = inr t' ->
  (forall entry, In entry params -> routes_body defs (fst entry) = false) ->
  t_body t' = t_body t.
Proof.
  induction params as [|[n v] params IH]; intros t t' Hloop H;
    cbn [translate_loop] in Hloop; [now injection Hloop as <- |].
  destruct (translate_param defs t (n, v)) as [m | t1] eqn:E; [discriminate |].
  rewrite (IH _ _ Hloop) by (intros e He; apply H; now right).
  pose proof (H (n, v) (or_introl eq_refl)) as Hn. cbn [fst] in Hn.
  now rewrite (translate_param_body _ _ _ _ _ E), Hn.
Qed.

Lemma translate_loop_app defs before after : forall t,
  translate_loop defs (before ++ after)%list t
  = match translate_loop defs before t with
    | inl message => inl message
    | inr t' => translate_loop defs after t'
    end.
Proof.
  induction before as [|entry before IH]; intros t; [reflexivity |].
  cbn [app translate_loop]. destruct (translate_param defs t entry); [reflexivity |].
  apply IH.
Qed.

(** The loop assigns [body] for a parameter defined with the kind [Body],
    and for one named [body] without definition. *)
Lemma routes_body_spec defs n :
  routes_body defs n = true <->
  kind_of defs n = Some "Body" \/ (n = "body" /\ kind_of defs n = None).
Proof.
  unfold routes_body, kind_of.
  destruct (String.eqb_spec n "fetchAllPages") as [-> | Hne].
  - split; [discriminate | intros [H | [H _]]; discriminate].
  - destruct (find _ defs) as [p|].
    + destruct (String.eqb_spec (type p) "Body") as [-> | Hb].
      * split; [now left | reflexivity].
      * rewrite andb_false_r.
        split; [discriminate | intros [[= H] | [_ H]]; congruence].
    + rewrite String.eqb_eq. split; [now right | intros [H | [H _]]; congruence].
Qed.

End Body.

(** X7.  The body of the translation is that of the last parameter of the
    bag the loop routes to the body (a parameter of kind [Body], or one
    named [body] without definition): what [JSON.parse] makes of it when it
    is a string that is JSON, the value as it is otherwise.  On a method
    other than GET it is sent when truthy -- a string as it is, anything
    else through [JSON.stringify] -- so a string that is not JSON goes out
    verbatim, and a body that is or parses to [null], [false], zero or the
    empty string is not sent. *)
Theorem body_is_last_bound {Num : JSNumber} {B : Builtins}
        (tool : Catalog.endpoint) (before after : JSObject.t json)
        (n : string) (v : json) (t : GraphTools.translation) :
  let defs := GraphTools.definitions tool in
  GraphTools.kind_of defs n = Some "Body"
  \/ (n = "body" /\ GraphTools.kind_of defs n = None) ->
  (forall n' v', In (n', v') after ->
                 GraphTools.kind_of defs n' <> Some "Body" /\
                 (n' = "body" -> GraphTools.kind_of defs n' <> None)) ->
  GraphTools.translate tool (before ++ (n, v) :: after)%list = inr t ->
  (forall s parsed, v = JStr s -> JSON_parse s = Some parsed ->
                    GraphTools.t_body t = parsed) /\
  (forall s, v = JStr s -> JSON_parse s = None -> GraphTools.t_body t = JStr s) /\
  ((forall s, v <> JStr s) -> GraphTools.t_body t = v) /\
  (forall path,
      toUpperCase (Catalog.method tool) <> "GET" ->
      GraphTools.opt_body (GraphTools.request_options tool t path)
      = if truthy (GraphTools.t_body t)
        then Some (match GraphTools.t_body t with
                   | JStr s => s
                   | b => JSON_stringify b
                   end)
        else None) /\
  (forall s path,
      v = JStr s -> JSON_parse s = None -> s <> "" ->
      toUpperCase (Catalog.method tool) <> "GET" ->
      GraphTools.opt_body (GraphTools.request_options tool t path) = Some s).
Proof.
  intros defs Hn Hafter Ht.
  assert (Hb : GraphTools.t_body t
               = match v with
                 | JStr s => match JSON_parse s with Some p => p | None => JStr s end
                 | _ => v
                 end).
  { unfold GraphTools.translate in Ht. fold (GraphTools.definitions tool) in Ht.
    fold defs in Ht. rewrite translate_loop_app in Ht.
    destruct (GraphTools.translate_loop defs before _) as [m | t0]; [discriminate |].
    cbn [GraphTools.translate_loop] in Ht.
    destruct (GraphTools.translate_param defs t0 (n, v)) as [m | t1] eqn:E;
      [discriminate |].
    rewrite (translate_loop_body_other _ _ _ _ Ht).
    - rewrite (translate_param_body _ _ _ _ _ E).
      apply routes_body_spec in Hn. now rewrite Hn.
    - intros [n' v'] Hin. cbn [fst].
      destruct (Hafter n' v' Hin) as [H1 H2].
      destruct (GraphTools.routes_body defs n') eqn:Er; [| reflexivity].
      apply routes_body_spec in Er as [Er | [-> Er]]; [contradiction |].
      now destruct (H2 eq_refl). }
  assert (Ho : forall path,
             toUpperCase (Catalog.method tool) <> "GET" ->
             GraphTools.opt_body (GraphTools.request_options tool t path)
             = if truthy (GraphTools.t_body t)
               then Some (match GraphTools.t_body t with
                          | JStr s => s
                          | b => JSON_stringify b
                          end)
               else None).
  { intros path Hm. unfold GraphTools.request_options. cbn [GraphTools.opt_body].
    apply String.eqb_neq in Hm. now rewrite Hm. }
  split; [intros s parsed -> Hp; now rewrite Hb, Hp |].
  split; [intros s -> Hp; now rewrite Hb, Hp |].
  split; [intros Hv; rewrite Hb; destruct v; try reflexivity; now destruct (Hv s) |].
  split; [exact Ho |].
  intros s path -> Hp Hs Hm. rewrite (Ho path Hm), Hb, Hp.
  cbn [truthy]. apply String.eqb_neq in Hs. now rewrite Hs.
Qed.

(** A body that is JSON is parsed; one that is not goes out as it is. *)
Lemma body_is_last_bound_witness :
  GraphTools.translate (B := Examples.runtime) Samples.send_mail Samples.json_body
  = inr (Samples.with_body Samples.send_mail Examples.page2_last) /\
  GraphTools.translate (B := Examples.runtime) Samples.send_mail Samples.raw_body
  = inr (Samples.with_body Samples.send_mail Samples.raw_text) /\
  GraphTools.opt_body
    (GraphTools.request_options (B := Examples.runtime) Samples.send_mail
       (Samples.with_body Samples.send_mail Samples.raw_text) "/me/sendMail")
  = Some "not json".
Proof.
  split; [reflexivity |]. split; [reflexivity |].
  destruct (body_is_last_bound (B := Examples.runtime) Samples.send_mail [] []
              "body" Samples.raw_text
              (Samples.with_body Samples.send_mail Samples.raw_text)
              (or_introl eq_refl)) as [_ [_ [_ [_ H]]]].
  - intros n' v' [].
  - reflexivity.
  - apply (H "not json"); [reflexivity | reflexivity | discriminate | discriminate].
Defined.

(** ** The query string *)
Section QueryString.
Import JSString.

Lemma occurrences_app c (s t : string) :
  occurrences c (s ++ t) = occurrences c s + occurrences c t.
Proof.
  induction s as [|a s IH]; simpl; [reflexivity | rewrite IH; lia].
Qed.

Lemma occurrences_literal c (s : string) :
  literal_char c = false ->
  forallb literal_char (list_ascii_of_string s) = true ->
  occurrences c s = 0.
Proof.
  intros Hc. induction s as [|a s IH]; simpl; [reflexivity |].
  rewrite andb_true_iff. intros [Ha Hs]. rewrite (IH Hs).
  destruct (Ascii.eqb_spec a c) as [-> | _]; [congruence | reflexivity].
Qed.

(** A character that is neither unreserved nor [%] does not occur in an
    encoded string. *)
Lemma occurrences_encoded c (s e : string) :
  encodeURIComponent s = inr e -> literal_char c = false -> occurrences c e = 0.
Proof.
  intros He Hc. apply occurrences_literal; [exact Hc |].
  now apply (encodeURIComponent_literal s).
Qed.

Lemma occurrences_join c sep (xs : list string) (k : nat) :
  (forall x, In x xs -> occurrences c x = k) ->
  occurrences c (join sep xs)
  = List.length xs * k + (List.length xs - 1) * occurrences c sep.
Proof.
  induction xs as [|x xs IH]; intros H; [reflexivity |].
  destruct xs as [|y xs].
  - cbn. rewrite (H x) by now left. lia.
  - change (join sep (x :: y :: xs)) with (x ++ sep ++ join sep (y :: xs)).
    rewrite !occurrences_app, IH by (intros z Hz; apply H; now right).
    rewrite (H x) by now left. cbn [List.length].
    rewrite !Nat.sub_succ, !Nat.sub_0_r. nia.
Qed.

(** The entries of the query string: one for each query parameter, each
    with the characters of an encoded string and one [=]. *)
Lemma encoded_entries_spec (q : JSObject.t string) : forall l,
  GraphTools.encoded_entries q = inr l ->
  List.length l = List.length q /\
  forall c x, literal_char c = false -> In x l ->
              occurrences c x = occurrences c "=".
Proof.
  induction q as [|[k v] q IH]; intros l H; cbn [GraphTools.encoded_entries] in H.
  - injection H as <-. split; [reflexivity | intros c x _ []].
  - destruct (encodeURIComponent k) as [m | ek] eqn:Ek; [discriminate |].
    destruct (encodeURIComponent v) as [m | ev] eqn:Ev; [discriminate |].
    destruct (GraphTools.encoded_entries q) as [m | l0]; [discriminate |].
    injection H as <-. destruct (IH l0 eq_refl) as [Hlen Hocc].
    split; [cbn; now rewrite Hlen |].
    intros c x Hc [<- | Hx]; [| now apply Hocc].
    rewrite !occurrences_app. cbn [occurrences].
    rewrite (occurrences_encoded c k ek Ek Hc), (occurrences_encoded c v ev Ev Hc). lia.
Qed.

(** When the query string throws, a name or a value holds a lone
    surrogate. *)
Lemma encoded_entries_thrown (q : JSObject.t string) : forall message,
  GraphTools.encoded_entries q = inl message ->
  message = "URI malformed" /\
  exists k v, In (k, v) q /\ (lone_surrogate k = true \/ lone_surrogate v = true).
Proof.
  induction q as [|[k v] q IH]; intros message H;
    cbn [GraphTools.encoded_entries] in H; [discriminate |].
  unfold encodeURIComponent in H.
  destruct (lone_surrogate k) eqn:Ek.
  { injection H as <-. split; [reflexivity |]. exists k, v. split; [now left | now left]. }
  destruct (lone_surrogate v) eqn:Ev.
  { injection H as <-. split; [reflexivity |]. exists k, v. split; [now left | now right]. }
  destruct (GraphTools.encoded_entries q) as [m | l0]; [| discriminate].
  injection H as <-. destruct (IH m eq_refl) as [Hm [k' [v' [Hin Hs]]]].
  split; [exact Hm |]. exists k', v'. split; [now right | exact Hs].
Qed.

Lemma queryString_shape (queryParams : JSObject.t string) (q : string) :
  GraphTools.queryString queryParams = inr q ->
  occurrences "=" q = List.length queryParams /\
  occurrences "&" q = List.length queryParams - 1 /\
  occurrences "?" q = 0 /\ occurrences "#" q = 0 /\ occurrences "/" q = 0.
Proof.
  unfold GraphTools.queryString.
  destruct (GraphTools.encoded_entries queryParams) as [m | l] eqn:E; [discriminate |].
  intros [= <-]. destruct (encoded_entries_spec _ _ E) as [Hlen Hocc].
  repeat split.
  - rewrite (occurrences_join _ _ _ 1) by (intros x Hx; now apply Hocc).
    rewrite Hlen. cbn. lia.
  - rewrite (occurrences_join _ _ _ 0) by (intros x Hx; now apply Hocc).
    rewrite Hlen. cbn. lia.
  - rewrite (occurrences_join _ _ _ 0) by (intros x Hx; now apply Hocc).
    cbn. lia.
  - rewrite (occurrences_join _ _ _ 0) by (intros x Hx; now apply Hocc).
    cbn. lia.
  - rewrite (occurrences_join _ _ _ 0) by (intros x Hx; now apply Hocc).
    cbn. lia.
Qed.

End QueryString.

(** X8.  The query string has one [=] for each query parameter and one
    [&] between two of them, and holds no [?], [#] or [/]: whatever the
    names and values, they are encoded and cannot add a parameter to the
    request or cut its path.  It throws, a URIError, only when a name or a
    value holds a lone surrogate. *)
Theorem query_string_shape (queryParams : JSObject.t string) :
  match GraphTools.queryString queryParams with
  | inr q =>
      JSString.occurrences "=" q = List.length queryParams /\
      JSString.occurrences "&" q = List.length queryParams - 1 /\
      JSString.occurrences "?" q = 0 /\
      JSString.occurrences "#" q = 0 /\
      JSString.occurrences "/" q = 0
  | inl message =>
      message = "URI malformed" /\
      exists k v, In (k, v) queryParams /\
                  (JSString.lone_surrogate k = true \/ JSString.lone_surrogate v = true)
  end.
Proof.
  destruct (GraphTools.queryString queryParams) as [message | q] eqn:E.
  - unfold GraphTools.queryString in E.
    destruct (GraphTools.encoded_entries queryParams) as [m | l] eqn:El;
      [| discriminate].
    injection E as <-. now apply encoded_entries_thrown.
  - now apply queryString_shape.
Qed.

(** ** Suffixes and occurrences *)
Section StringFacts.
Import JSString.

Lemma string_length_app (a b : string) :
  String.length (a ++ b) = String.length a + String.length b.
Proof.
  induction a as [|c a IH]; simpl; [reflexivity | now rewrite IH].
Qed.

Lemma string_app_assoc (a b c : string) : (a ++ b) ++ c = a ++ (b ++ c).
Proof.
  induction a as [|x a IH]; simpl; [reflexivity | now rewrite IH].
Qed.

Lemma drop_app_left n : forall (a b : string),
  n <= String.length a -> drop n (a ++ b) = drop n a ++ b.
Proof.
  induction n as [|n IH]; intros a b H; [reflexivity |].
  destruct a as [|c a]; simpl in *; [lia |]. apply IH. lia.
Qed.

Lemma drop_app_right n : forall (a b : string),
  String.length a <= n -> drop n (a ++ b) = drop (n - String.length a) b.
Proof.
  induction n as [|n IH]; intros a b H.
  - destruct a; simpl in *; [reflexivity | lia].
  - destruct a as [|c a]; simpl in *; [reflexivity |]. apply IH. lia.
Qed.

Lemma occurrences_drop c n : forall (s : string),
  occurrences c (drop n s) <= occurrences c s.
Proof.
  induction n as [|n IH]; intros s; [reflexivity |].
  destruct s as [|a s]; simpl; [lia |]. specialize (IH s). lia.
Qed.

(** A string that ends with [/content] has no [=] after its last [/]. *)
Lemma not_content_suffix (a q : string) :
  occurrences "/" q = 0 -> 1 <= occurrences "=" q ->
  endsWith "/content" (a ++ q) = false.
Proof.
  intros Hslash Heq. unfold endsWith.
  destruct (Nat.leb _ _) eqn:El; [| reflexivity]. cbn [andb].
  apply String.eqb_neq. intros H.
  set (k := String.length (a ++ q) - String.length "/content") in H.
  destruct (Nat.le_gt_cases k (String.length a)) as [Hk | Hk].
  - rewrite drop_app_left in H by exact Hk.
    assert (E : occurrences "=" (drop k a ++ q) = 0) by now rewrite H.
    rewrite occurrences_app in E. lia.
  - rewrite drop_app_right in H by lia.
    pose proof (occurrences_drop "/" (k - String.length a) q) as Hd.
    rewrite H in Hd. cbn in Hd. lia.
Qed.

End StringFacts.

(** X9.  The test for a path ending with [/content] is made once the
    query string is appended: as soon as the bag binds a query parameter,
    it fails, and the request asks for the raw response only when the
    error list of the endpoint announces media content. *)
Theorem query_parameters_hide_content_suffix {Num : JSNumber} {B : Builtins}
        (tool : Catalog.endpoint) (params : JSObject.t json) (n : string) (v : json)
        (path : string) (o : GraphTools.options) :
  In (n, v) params ->
  GraphTools.kind_of (GraphTools.definitions tool) n = Some "Query" ->
  GraphTools.prepare tool params = inr (path, o) ->
  GraphTools.opt_rawResponse o
  = match Catalog.errors tool with
    | Some l => existsb (fun error =>
                           String.eqb (Catalog.error_description error)
                                      "Retrieved media content") l
    | None => false
    end.
Proof.
  intros Hin Hk Hprep.
  apply prepare_inr in Hprep as [t [Ht [Hpath ->]]].
  unfold GraphTools.translate in Ht. fold (GraphTools.definitions tool) in Ht.
  pose proof (routed_complete GraphTools.t_queryParams "Query"
                translate_param_queryParams (GraphTools.definitions tool) params
                _ t n v Ht Hin Hk) as Hq.
  unfold GraphTools.request_options. cbn [GraphTools.opt_rawResponse].
  unfold GraphTools.isProbablyMediaContent.
  unfold GraphTools.request_path in Hpath.
  destruct (GraphTools.t_queryParams t) as [|kv q] eqn:Eq; [now cbn in Hq |].
  destruct (GraphTools.queryString (kv :: q)) as [m | qs] eqn:Es; [discriminate |].
  injection Hpath as <-.
  destruct (queryString_shape _ _ Es) as [H1 [_ [_ [_ H5]]]].
  rewrite <- string_app_assoc, not_content_suffix;
    [apply orb_false_r | exact H5 | rewrite H1; cbn; lia].
Qed.

Lemma query_parameters_hide_content_suffix_witness :
  JSString.endsWith "/content" (Catalog.path Samples.download) = true /\
  exists o,
    GraphTools.prepare (B := Examples.runtime) Samples.download Samples.select_name
    = inr ("/me/drive/root/content?%24select=name", o) /\
    GraphTools.opt_rawResponse o = false.
Proof.
  split; [reflexivity |].
  eexists. split; [reflexivity |].
  apply (query_parameters_hide_content_suffix (B := Examples.runtime)
           Samples.download Samples.select_name "select" (JStr "name")
           "/me/drive/root/content?%24select=name").
  - now left.
  - reflexivity.
  - reflexivity.
Defined.

(** ** Substitution of a path parameter *)
Section Replace.
Import JSString.

Lemma startsWith_split (p s : string) :
  startsWith p s = true -> s = p ++ drop (String.length p) s.
Proof.
  unfold startsWith. revert s. induction p as [|c p IH]; intros s H; [reflexivity |].
  destruct s as [|a s]; simpl in H; [discriminate |].
  destruct (ascii_dec c a) as [-> | Hne]; [| discriminate].
  simpl. f_equal. now apply IH.
Qed.

Lemma startsWith_app (p x y : string) :
  startsWith p x = true -> startsWith p (x ++ y) = true.
Proof.
  unfold startsWith. revert x. induction p as [|c p IH]; intros x H;
    [now destruct (x ++ y) |].
  destruct x as [|a x]; simpl in H; [discriminate |].
  simpl. destruct (ascii_dec c a); [now apply IH | discriminate].
Qed.

(** Without an occurrence, [replace] changes nothing. *)
Lemma replace_absent (p r s : string) :
  includes p s = false -> replace p r s = s.
Proof.
  induction s as [|c s IH]; intros H.
  - change (includes p "") with (startsWith p "" || false) in H.
    apply orb_false_iff in H as [H1 _].
    change (replace p r "") with (if startsWith p "" then r ++ drop (String.length p) ""
                                  else "").
    now rewrite H1.
  - change (includes p (String c s))
      with (startsWith p (String c s) || includes p s) in H.
    apply orb_false_iff in H as [H1 H2].
    change (replace p r (String c s))
      with (if startsWith p (String c s)
            then r ++ drop (String.length p) (String c s)
            else String c (replace p r s)).
    now rewrite H1, IH.
Qed.

(** With one, it puts the replacement in the place of the first. *)
Lemma replace_first (p r s : string) :
  p <> "" -> includes p s = true ->
  exists a b, s = a ++ p ++ b /\ includes p a = false /\ replace p r s = a ++ r ++ b.
Proof.
  intros Hp.
  assert (Hempty : includes p "" = false).
  { destruct p; [congruence | reflexivity]. }
  induction s as [|c s IH]; intros H; [congruence |].
  change (replace p r (String c s))
    with (if startsWith p (String c s)
          then r ++ drop (String.length p) (String c s)
          else String c (replace p r s)).
  change (includes p (String c s))
    with (startsWith p (String c s) || includes p s) in H.
  destruct (startsWith p (String c s)) eqn:Es.
  - exists "", (drop (String.length p) (String c s)).
    split; [now apply startsWith_split | split; [exact Hempty | reflexivity]].
  - cbn [orb] in H.
    destruct (IH H) as [a [b [Hs [Ha Hr]]]].
    exists (String c a), b. split; [cbn [append]; now rewrite <- Hs |]. split.
    + change (includes p (String c a))
        with (startsWith p (String c a) || includes p a).
      rewrite Ha, orb_false_r.
      destruct (startsWith p (String c a)) eqn:E; [| reflexivity].
      apply (startsWith_app _ _ (p ++ b)) in E. cbn [append] in E.
      rewrite <- Hs in E. congruence.
    + cbn [append]. now rewrite Hr.
Qed.

End Replace.

Section PathParameter.
Context {Num : JSNumber} {B : Builtins}.
Import Catalog GraphTools.

Lemma translate_param_path defs t n v s e :
  kind_of defs n = Some "Path" ->
  ToString v = inr s -> JSString.encodeURIComponent s = inr e ->
  translate_param defs t (n, v)
  = inr {| t_path := JSString.replace (":" ++ n) e
                       (JSString.replace ("{" ++ n ++ "}") e (t_path t));
           t_queryParams := t_queryParams t;
           t_headers := t_headers t; t_body := t_body t |}.
Proof.
  unfold translate_param, kind_of.
  destruct (String.eqb n "fetchAllPages"); [discriminate |].
  destruct (find _ defs) as [p|]; [| discriminate].
  intros [= ->] Hs He. cbn. now rewrite Hs, He.
Qed.

End PathParameter.

(** X10.  A parameter of kind [Path] whose value has a string form that
    can be URL-encoded puts the encoded form in the place of the first
    [{name}] of the path, then of the first [:name] of what results; a
    form that does not occur changes nothing.  In particular, when only
    the colon form occurs, the path [a ++ ":name" ++ b], [a] without
    [:name], becomes [a ++ value ++ b]. *)
Theorem path_parameter_is_substituted {Num : JSNumber} {B : Builtins}
        (defs : list Catalog.parameter) (t : GraphTools.translation)
        (n : string) (v : json) (s e : string) :
  GraphTools.kind_of defs n = Some "Path" ->
  ToString v = inr s ->
  JSString.encodeURIComponent s = inr e ->
  exists t',
    GraphTools.translate_param defs t (n, v) = inr t' /\
    let path' := GraphTools.t_path t' in
    (JSString.includes ("{" ++ n ++ "}") (GraphTools.t_path t) = false ->
     JSString.includes (":" ++ n) (GraphTools.t_path t) = false ->
     path' = GraphTools.t_path t) /\
    (JSString.includes ("{" ++ n ++ "}") (GraphTools.t_path t) = false ->
     JSString.includes (":" ++ n) (GraphTools.t_path t) = true ->
     exists a b, GraphTools.t_path t = a ++ (":" ++ n) ++ b /\
                 JSString.includes (":" ++ n) a = false /\
                 path' = a ++ e ++ b) /\
    (JSString.includes ("{" ++ n ++ "}") (GraphTools.t_path t) = true ->
     exists a b, GraphTools.t_path t = a ++ ("{" ++ n ++ "}") ++ b /\
                 JSString.includes ("{" ++ n ++ "}") a = false /\
                 path' = JSString.replace (":" ++ n) e (a ++ e ++ b)).
Proof.
  intros Hk Hs He. eexists. split; [exact (translate_param_path defs t n v s e Hk Hs He) |].
  cbn [GraphTools.t_path]. repeat split.
  - intros H1 H2. now rewrite (replace_absent _ _ _ H1), (replace_absent _ _ _ H2).
  - intros H1 H2. rewrite (replace_absent _ _ _ H1).
    apply replace_first; [discriminate | exact H2].
  - intros H1.
    destruct (replace_first ("{" ++ n ++ "}") e (GraphTools.t_path t))
      as [a [b [Hs' [Ha Hr]]]]; [discriminate | exact H1 |].
    exists a, b. now rewrite Hr.
Qed.

Lemma path_parameter_is_substituted_witness :
  exists t' a b,
    GraphTools.translate_param (B := Examples.runtime)
      (GraphTools.definitions Samples.user_messages)
      (Samples.initial Samples.user_messages) ("id", Samples.id_with_slash) = inr t' /\
    "/users/:id/messages" = a ++ (":" ++ "id") ++ b /\
    JSString.includes (":" ++ "id") a = false /\
    GraphTools.t_path t' = a ++ "a%2Fb" ++ b.
Proof.
  destruct (path_parameter_is_substituted (B := Examples.runtime)
              (GraphTools.definitions Samples.user_messages)
              (Samples.initial Samples.user_messages) "id" Samples.id_with_slash
              "a/b" "a%2Fb" eq_refl eq_refl eq_refl) as [t' [Ht [_ [H _]]]].
  destruct (H eq_refl eq_refl) as [a [b H']].
  now exists t', a, b.
Defined.

(** The value of the example, with its [/] encoded, takes the place of
    the placeholder. *)
Example slash_in_path_value_is_encoded :
  GraphTools.translate (B := Examples.runtime) Samples.user_messages Samples.id_bag
  = inr {| GraphTools.t_path := "/users/a%2Fb/messages";
           GraphTools.t_queryParams := []; GraphTools.t_headers := [];
           GraphTools.t_body := JNull |}.
Proof. reflexivity. Qed.

(** ** What is registered with a tool *)
Section Schema.
Context {Num : JSNumber} {B : Builtins}.
Import Catalog GraphTools.

Lemma declared_schema_keys (l : list parameter) : forall (acc : JSObject.t zod) k,
  JSObject.get k (fold_left (fun acc param =>
                               JSObject.set (name param) (param_schema param) acc) l acc)
  <> None
  <-> JSObject.get k acc <> None \/ exists p, In p l /\ name p = k.
Proof.
  induction l as [|p l IH]; intros acc k; cbn [fold_left].
  - split; [auto | intros [H | [p [[] _]]]; exact H].
  - rewrite IH. split.
    + intros [H | [q [Hq E]]].
      * destruct (string_dec k (name p)) as [-> | Hne].
        -- right. exists p. split; [now left | reflexivity].
        -- left. now rewrite JSObject_get_set_other in H.
      * right. exists q. split; [now right | exact E].
    + intros [H | [q [[-> | Hq] E]]].
      * left. destruct (string_dec k (name p)) as [-> | Hne].
        -- rewrite JSObject_get_set_same. discriminate.
        -- now rewrite JSObject_get_set_other.
      * left. subst k. rewrite JSObject_get_set_same. discriminate.
      * right. exists q. auto.
Qed.

Lemma declared_keys (tool : endpoint) k :
  JSObject.get k
    match parameters tool with
    | Some l => fold_left (fun acc param =>
                             JSObject.set (name param) (param_schema param) acc) l []
    | None => []
    end <> None
  <-> exists p, In p (definitions tool) /\ name p = k.
Proof.
  unfold definitions. destruct (parameters tool) as [l|].
  - rewrite declared_schema_keys. cbn [JSObject.get]. tauto.
  - cbn. split; [congruence | intros [p [[] _]]].
Qed.

End Schema.

(** X11.  The schema registered with a tool has a key for each declared
    parameter name and, exactly when the method is GET and the path holds a
    [/], the key [fetchAllPages]; there the pagination flag stands, an
    optional boolean, even over a declared parameter of that name. *)
Theorem schema_keys {Num : JSNumber} {B : Builtins}
        (tool : Catalog.endpoint) (k : string) :
  (JSObject.get k (GraphTools.reg_paramSchema (GraphTools.register tool)) <> None
   <-> (exists p, In p (GraphTools.definitions tool) /\ Catalog.name p = k)
       \/ (k = "fetchAllPages"
           /\ String.eqb (toUpperCase (Catalog.method tool)) "GET"
              && JSString.includes "/" (Catalog.path tool) = true))
  /\ (String.eqb (toUpperCase (Catalog.method tool)) "GET"
      && JSString.includes "/" (Catalog.path tool) = true ->
      JSObject.get "fetchAllPages" (GraphTools.reg_paramSchema (GraphTools.register tool))
      = Some (Catalog.ZOptionalBoolean "Automatically fetch all pages of results")).
Proof.
  cbn [GraphTools.register GraphTools.reg_paramSchema].
  unfold GraphTools.paramSchema, GraphTools.isGET. cbv zeta.
  pose proof (declared_keys tool) as Hd.
  destruct (String.eqb (toUpperCase (Catalog.method tool)) "GET"
            && JSString.includes "/" (Catalog.path tool)).
  - split; [| intros _; apply JSObject_get_set_same].
    destruct (string_dec k "fetchAllPages") as [-> | Hne].
    + rewrite JSObject_get_set_same. split; [auto | discriminate].
    + rewrite JSObject_get_set_other by exact Hne. rewrite Hd.
      split; [auto | intros [H | [H _]]; [exact H | contradiction]].
  - split; [| discriminate]. rewrite Hd.
    split; [auto | intros [H | [_ H]]; [exact H | discriminate]].
Qed.

(** X12.  In read-only mode every tool registered is announced as
    read-only, its method being GET. *)
Theorem read_only_registers_read_only_tools {Num : JSNumber} {B : Builtins}
        (endpoints : list Catalog.endpoint) (enabledToolsPattern : option string) :
  Forall (fun r => GraphTools.reg_readOnlyHint r = true
                   /\ toUpperCase (Catalog.method (GraphTools.reg_tool r)) = "GET")
         (GraphTools.registerGraphTools endpoints true enabledToolsPattern).
Proof.
  unfold GraphTools.registerGraphTools. apply Forall_forall. intros r Hr.
  apply in_map_iff in Hr as [tool [<- Ht]].
  apply filter_In in Ht as [_ Ht].
  unfold GraphTools.skipped in Ht. cbn [andb] in Ht.
  cbn [GraphTools.register GraphTools.reg_readOnlyHint GraphTools.reg_tool].
  unfold GraphTools.isGET in *.
  destruct (String.eqb_spec (toUpperCase (Catalog.method tool)) "GET") as [E | _];
    [now split | discriminate].
Qed.

(** ** Catalog load, beyond the placeholders *)
Section Load.
Import Catalog Hack JSString.

Lemma strip_markers_idempotent (s : string) :
  strip_markers (strip_markers s) = strip_markers s.
Proof.
  induction s as [|c s IH]; simpl; [reflexivity |].
  destruct (Ascii.eqb c "$" || Ascii.eqb c "_")%char eqn:E; [exact IH |].
  simpl. now rewrite E, IH.
Qed.

Lemma strip_markers_occurrences (s : string) :
  occurrences "$" (strip_markers s) = 0 /\ occurrences "_" (strip_markers s) = 0.
Proof.
  induction s as [|c s [IH1 IH2]]; simpl; [auto |].
  destruct (Ascii.eqb c "$") eqn:E1; [auto |].
  destruct (Ascii.eqb c "_") eqn:E2; [auto |].
  simpl. rewrite E1, E2, IH1, IH2. auto.
Qed.

Lemma sanitize_clean (p : parameter) :
  strip_markers (name p) = name p -> sanitize p = p.
Proof.
  destruct p as [n ty sc d]. unfold sanitize. simpl. now intros ->.
Qed.

Lemma ensure_params_clean names : forall params,
  (forall n, In n names -> strip_markers n = n) ->
  (forall p, In p params -> strip_markers (name p) = name p) ->
  forall p, In p (fold_left ensure_param names params) ->
            strip_markers (name p) = name p.
Proof.
  induction names as [|m names IH]; intros params Hn Hp; [exact Hp |].
  cbn [fold_left]. apply IH; [intros n H; apply Hn; now right |].
  intros p. unfold ensure_param. destruct (existsb _ params); [apply Hp |].
  intros H. apply in_app_or in H as [H | [<- | []]]; [now apply Hp |].
  apply Hn. now left.
Qed.

(** The names of a loaded endpoint hold no marker. *)
Lemma loaded_names_clean (e : endpoint) (p : parameter) :
  In p (match parameters (load_endpoint e) with Some l => l | None => [] end) ->
  strip_markers (name p) = name p.
Proof.
  cbn [load_endpoint parameters]. apply ensure_params_clean.
  - intros n. apply pathParams_clean.
  - intros q Hq. apply in_map_iff in Hq as [q0 [<- _]]. simpl.
    apply strip_markers_idempotent.
Qed.

Lemma map_sanitize_clean (l : list parameter) :
  (forall p, In p l -> strip_markers (name p) = name p) -> map sanitize l = l.
Proof.
  induction l as [|p l IH]; intros H; [reflexivity |].
  simpl. rewrite sanitize_clean by (apply H; now left).
  now rewrite IH by (intros q Hq; apply H; now right).
Qed.

Lemma ensure_params_present names params :
  (forall n, In n names -> exists p, In p params /\ name p = n) ->
  fold_left ensure_param names params = params.
Proof.
  induction names as [|m names IH]; intros H; [reflexivity |].
  cbn [fold_left].
  assert (E : ensure_param params m = params).
  { unfold ensure_param. destruct (H m (or_introl eq_refl)) as [p [Hp Hm]].
    assert (Hex : existsb (fun param => String.eqb (name param) m
                                        || String.eqb (name param) (strip_markers m))
                          params = true).
    { apply existsb_exists. exists p. split; [exact Hp |].
      rewrite Hm, String.eqb_refl. reflexivity. }
    now rewrite Hex. }
  rewrite E. apply IH. intros n Hn. apply H. now right.
Qed.

(** What the loop appends: a synthesized parameter for each placeholder
    name that no parameter bears yet, once each, in order. *)
Lemma ensure_params_appends names : forall params,
  (forall n, In n names -> strip_markers n = n) ->
  exists added,
    fold_left ensure_param names params = (params ++ map newParam added)%list /\
    NoDup added /\
    forall n, In n added <-> In n names /\ forall p, In p params -> name p <> n.
Proof.
  induction names as [|m names IH]; intros params Hclean.
  - exists []. cbn. rewrite app_nil_r. split; [reflexivity |].
    split; [constructor | intros n; tauto].
  - cbn [fold_left]. unfold ensure_param at 2.
    rewrite (Hclean m (or_introl eq_refl)).
    destruct (existsb _ params) eqn:E.
    + apply existsb_exists in E as [q [Hq E]].
      assert (Hqm : name q = m).
      { apply orb_true_iff in E as [E | E]; now apply String.eqb_eq in E. }
      destruct (IH params) as [added [Hf [Hnd Hin]]];
        [intros n Hn; apply Hclean; now right |].
      exists added. split; [exact Hf |]. split; [exact Hnd |].
      intros n. rewrite Hin. split.
      * intros [H1 H2]. split; [now right | exact H2].
      * intros [[<- | H1] H2]; [exfalso; now apply (H2 q) | now split].
    + assert (Hfresh : forall p, In p params -> name p <> m).
      { intros p Hp Hpm.
        assert (existsb (fun param => String.eqb (name param) m
                                      || String.eqb (name param) m) params = true);
          [| congruence].
        apply existsb_exists. exists p. split; [exact Hp |].
        now rewrite Hpm, String.eqb_refl. }
      destruct (IH (params ++ [newParam m])%list) as [added [Hf [Hnd Hin]]];
        [intros n Hn; apply Hclean; now right |].
      exists (m :: added). split; [rewrite Hf, <- app_assoc; reflexivity |].
      split.
      * constructor; [| exact Hnd]. rewrite Hin. intros [_ H].
        apply (H (newParam m)); [apply in_or_app; right; now left | reflexivity].
      * intros n. cbn [In]. rewrite Hin. split.
        -- intros [<- | [H1 H2]].
           ++ split; [now left | exact Hfresh].
           ++ split; [now right |]. intros p Hp. apply H2, in_or_app. now left.
        -- intros [[<- | H1] H2]; [now left |].
           destruct (string_dec m n) as [-> | Hne]; [now left |].
           right. split; [exact H1 |]. intros p Hp.
           apply in_app_or in Hp as [Hp | [<- | []]]; [now apply H2 | exact Hne].
Qed.

End Load.

(** X13.  Loading is idempotent: loading a loaded endpoint changes
    nothing (the names are already stripped, and every placeholder after a
    colon already has its parameter). *)
Theorem load_is_idempotent (e : Catalog.endpoint) :
  Hack.load_endpoint (Hack.load_endpoint e) = Hack.load_endpoint e.
Proof.
  pose proof (loaded_names_clean e) as Hclean.
  unfold Hack.load_endpoint in *.
  cbn [Catalog.method Catalog.path Catalog.alias Catalog.endpoint_description
       Catalog.parameters Catalog.errors] in *.
  f_equal. f_equal.
  rewrite map_sanitize_clean by exact Hclean.
  apply ensure_params_present.
  intros n Hn. apply ensure_params_named; [exact Hn | now apply pathParams_clean in Hn].
Qed.

(** X14.  After the load no parameter name of an endpoint holds a [$] or
    an underscore, whether the parameter was declared or synthesized. *)
Theorem loaded_names_hold_no_marker (e : Catalog.endpoint) (p : Catalog.parameter) :
  In p (match Catalog.parameters (Hack.load_endpoint e) with
        | Some l => l | None => [] end) ->
  JSString.occurrences "$" (Catalog.name p) = 0 /\
  JSString.occurrences "_" (Catalog.name p) = 0.
Proof.
  intros H. rewrite <- (loaded_names_clean e p H). apply strip_markers_occurrences.
Qed.

Lemma loaded_names_hold_no_marker_witness :
  JSString.occurrences "$" (Catalog.name (Hack.newParam "id")) = 0 /\
  JSString.occurrences "_" (Catalog.name (Hack.newParam "id")) = 0.
Proof.
  apply (loaded_names_hold_no_marker Examples.colon_endpoint (Hack.newParam "id")).
  simpl. auto.
Defined.

(** X15.  The load keeps the method, path and alias of an endpoint, and
    its declared parameters in order with their kind and schema, their
    names stripped; after them it appends one synthesized [Path] parameter
    for each placeholder name -- the run of letters and digits after a
    colon of the path -- that no declared parameter bears once stripped,
    each once. *)
Theorem load_appends_missing_path_parameters (e : Catalog.endpoint) :
  let declared := match Catalog.parameters e with Some l => l | None => [] end in
  Catalog.method (Hack.load_endpoint e) = Catalog.method e /\
  Catalog.path (Hack.load_endpoint e) = Catalog.path e /\
  Catalog.alias (Hack.load_endpoint e) = Catalog.alias e /\
  exists added,
    Catalog.parameters (Hack.load_endpoint e)
    = Some (map (fun p => {| Catalog.name := JSString.strip_markers (Catalog.name p);
                             Catalog.type := Catalog.type p;
                             Catalog.schema := Catalog.schema p;
                             Catalog.description := Catalog.description p |}) declared
            ++ map (fun n => {| Catalog.name := n;
                                Catalog.type := "Path";
                                Catalog.schema :=
                                  Some (Catalog.ZString
                                          ("Path parameter: " ++ n)%string);
                                Catalog.description :=
                                  Some ("Path parameter: " ++ n)%string |}) added)%list /\
    NoDup added /\
    forall n,
      In n added <->
      (exists a b,
          Catalog.path e = a ++ ":" ++ n ++ b /\ n <> "" /\
          forallb JSString.is_alnum (list_ascii_of_string n) = true /\
          match b with
          | String c _ => JSString.is_alnum c = false
          | EmptyString => True
          end) /\
      forall p, In p declared -> JSString.strip_markers (Catalog.name p) <> n.
Proof.
  intros declared. repeat split. subst declared.
  destruct (ensure_params_appends (Hack.pathParams (Catalog.path e))
              (map Hack.sanitize match Catalog.parameters e with
                                 | Some l => l | None => [] end))
    as [added [Hf [Hnd Hin]]].
  { intros n. apply pathParams_clean. }
  exists added. split; [cbn [Hack.load_endpoint Catalog.parameters]; now rewrite Hf |].
  split; [exact Hnd |].
  intros n. rewrite Hin. split; intros [H1 H2]; split.
  - now apply pathParams_inv.
  - intros p Hp. apply (H2 (Hack.sanitize p)). apply in_map, Hp.
  - destruct H1 as [a [b [Hpath [Hne [Ha Hb]]]]]. rewrite Hpath.
    now apply pathParams_placeholder.
  - intros p Hp. apply in_map_iff in Hp as [q [<- Hq]]. simpl. now apply H2.
Qed.

(** Two placeholders, the first declared: the second is appended, the
    first is not. *)
Lemma load_appends_missing_path_parameters_witness :
  Catalog.parameters (Hack.load_endpoint Examples.two_placeholders)
  = Some [ {| Catalog.name := "id"; Catalog.type := "Path";
              Catalog.schema := None; Catalog.description := None |};
           {| Catalog.name := "messageId"; Catalog.type := "Path";
              Catalog.schema := Some (Catalog.ZString "Path parameter: messageId");
              Catalog.description := Some "Path parameter: messageId" |} ] /\
  exists added,
    In "messageId" added /\ ~ In "id" added /\
    List.length
      (match Catalog.parameters (Hack.load_endpoint Examples.two_placeholders) with
       | Some l => l
       | None => []
       end)
    = 1 + List.length added.
Proof.
  split; [reflexivity |].
  destruct (load_appends_missing_path_parameters Examples.two_placeholders)
    as [_ [_ [_ [added [H [_ Hin]]]]]].
  exists added. split; [| split].
  - apply Hin. split.
    + exists "/users/:id/messages/", "". now repeat split.
    + intros p [<- | []]. discriminate.
  - intros Hid. apply Hin in Hid as [_ Hid].
    apply (Hid {| Catalog.name := "id"; Catalog.type := "Path";
                  Catalog.schema := None; Catalog.description := None |});
      [now left | reflexivity].
  - rewrite H, length_app, !length_map. reflexivity.
Defined.

(** X16.  Stripping at load and renaming at dispatch are inverse on the
    nine OData names: a parameter the catalog calls [$filter], [$select],
    [$expand], [$orderby], [$skip], [$top], [$count], [$search] or
    [$format] is exposed without the [$] and dispatched with it again (the
    runtime's lowercasing leaving these lowercase names alone).  A name
    that, stripped and lowercased, is none of the nine is dispatched as
    stripped: a marker it had is not restored. *)
Theorem odata_names_round_trip {Num : JSNumber} {B : Builtins} :
  let odata := ["filter"; "select"; "expand"; "orderby"; "skip"; "top"; "count";
                "search"; "format"] in
  (forall n, In n odata -> toLowerCase n = n) ->
  (forall p n, In n odata -> Catalog.name p = "$" ++ n ->
               Catalog.name (Hack.sanitize p) = n /\
               GraphTools.fixedParamName (Catalog.name (Hack.sanitize p))
               = Catalog.name p) /\
  (forall p, ~ In (toLowerCase (JSString.strip_markers (Catalog.name p))) odata ->
             GraphTools.fixedParamName (Catalog.name (Hack.sanitize p))
             = JSString.strip_markers (Catalog.name p)).
Proof.
  intros odata Hlower. split.
  - intros p n Hn Hp.
    assert (Hs : Catalog.name (Hack.sanitize p) = n).
    { cbn [Hack.sanitize Catalog.name]. rewrite Hp.
      cbn in Hn. repeat destruct Hn as [<- | Hn]; try reflexivity. contradiction. }
    split; [exact Hs |]. rewrite Hs, Hp.
    destruct (fixedParamName_spec n) as [H _].
    rewrite H; rewrite (Hlower n Hn); [reflexivity | exact Hn].
  - intros p Hp. destruct (fixedParamName_spec (Catalog.name (Hack.sanitize p))) as [_ H].
    now rewrite H.
Qed.

Lemma odata_names_round_trip_witness :
  GraphTools.fixedParamName (B := Examples.runtime)
    (Catalog.name (Hack.sanitize Samples.dollar_top))
  = "$top" /\
  GraphTools.fixedParamName (B := Examples.runtime)
    (Catalog.name (Hack.sanitize Samples.dollar_orderby))
  = "$orderby".
Proof.
  destruct (odata_names_round_trip (B := Examples.runtime)) as [H _].
  - intros n Hn. cbn in Hn. repeat destruct Hn as [<- | Hn]; try reflexivity.
    contradiction.
  - split.
    + apply (H Samples.dollar_top "top"); [cbn; auto 10 | reflexivity].
    + apply (H Samples.dollar_orderby "orderby"); [cbn; auto 10 | reflexivity].
Defined.

(** ** Scope aggregation, beyond the hierarchy entries *)
Section MoreScopes.
Import Auth.

Lemma JSSet_add_NoDup x (s : JSSet.t) : NoDup s -> NoDup (JSSet.add x s).
Proof.
  intros H. unfold JSSet.add. destruct (JSSet.has x s) eqn:E; [exact H |].
  apply NoDup_app; [exact H | repeat constructor; auto |].
  intros y Hy [<- | []]. apply JSSet_has_In in Hy. congruence.
Qed.

Lemma JSSet_delete_NoDup x (s : JSSet.t) : NoDup s -> NoDup (JSSet.delete x s).
Proof.
  apply NoDup_filter.
Qed.

Lemma collect_NoDup inc eps : forall s,
  NoDup s -> NoDup (fold_left (collect_endpoint inc) eps s).
Proof.
  induction eps as [|e eps IH]; intros s H; [exact H |].
  cbn [fold_left]. apply IH. unfold collect_endpoint.
  destruct (requiresWorkAccount e && negb inc); [exact H |].
  destruct (scopes e) as [l|]; [| exact H].
  clear - H. revert s H. induction l as [|x l IH]; intros s H; [exact H |].
  cbn [fold_left]. now apply IH, JSSet_add_NoDup.
Qed.

Lemma collapse_NoDup h : forall s, NoDup s -> NoDup (collapse h s).
Proof.
  unfold collapse. induction h as [|[W Rs] h IH]; intros s H; [exact H |].
  cbn [fold_left]. apply IH. unfold collapse_entry.
  destruct (forallb _ Rs); [| exact H].
  apply JSSet_add_NoDup.
  clear - H. revert s H. induction Rs as [|r Rs IH]; intros s H; [exact H |].
  cbn [fold_left]. now apply IH, JSSet_delete_NoDup.
Qed.

(** An entry adds at most its write scope. *)
Lemma collapse_entry_origin s entry y :
  In y (collapse_entry s entry) -> In y s \/ y = fst entry.
Proof.
  destruct entry as [W Rs]. unfold collapse_entry.
  destruct (forallb _ Rs); [| auto].
  rewrite JSSet_in_add, JSSet_in_delete_all. cbn. tauto.
Qed.

Lemma collapse_origin h : forall s y,
  In y (collapse h s) -> In y s \/ In y (map fst h).
Proof.
  unfold collapse. induction h as [|e h IH]; intros s y H; [now left |].
  cbn [fold_left] in H. apply IH in H as [H | H]; [| right; now right].
  apply collapse_entry_origin in H as [H | ->]; [now left | right; now left].
Qed.

(** A set that is not empty stays so. *)
Lemma collapse_entry_nonempty s entry :
  s <> [] -> collapse_entry s entry <> [].
Proof.
  destruct entry as [W Rs]. unfold collapse_entry. intros H.
  destruct (forallb _ Rs); [| exact H].
  intros E.
  assert (Hin : In W (JSSet.add W (fold_left (fun s scope => JSSet.delete scope s) Rs s)))
    by (apply JSSet_in_add; now left).
  now rewrite E in Hin.
Qed.

Lemma collapse_nonempty h : forall s, s <> [] -> collapse h s <> [].
Proof.
  unfold collapse. induction h as [|e h IH]; intros s H; [exact H |].
  cbn [fold_left]. now apply IH, collapse_entry_nonempty.
Qed.

Lemma collect_without_work eps : forall s,
  fold_left (collect_endpoint false) eps s
  = fold_left (collect_endpoint true)
              (filter (fun e => negb (requiresWorkAccount e)) eps) s.
Proof.
  induction eps as [|e eps IH]; intros s; [reflexivity |].
  cbn [fold_left filter]. rewrite IH. unfold collect_endpoint at 2.
  destruct (requiresWorkAccount e) eqn:E; cbn [negb andb]; [reflexivity |].
  cbn [fold_left]. unfold collect_endpoint at 3. now rewrite E.
Qed.

End MoreScopes.

(** X17.  The scope list has no duplicate, however often the catalog
    repeats a scope. *)
Theorem scopes_have_no_duplicate (eps : list Auth.endpoint) (inc : bool) :
  NoDup (Auth.buildScopesFromEndpoints eps inc).
Proof.
  unfold Auth.buildScopesFromEndpoints, Auth.buildScopesFrom, JSSet.to_array.
  apply collapse_NoDup, collect_NoDup. constructor.
Qed.

(** X18.  Every scope of the output is granted by an endpoint that is not
    skipped, or is one of the five write scopes of the hierarchy; and a
    scope the hierarchy does not mention is in the output exactly when it
    is granted. *)
Theorem scopes_come_from_catalog_or_hierarchy
        (eps : list Auth.endpoint) (inc : bool) (x : string) :
  (In x (Auth.buildScopesFromEndpoints eps inc) ->
   Auth.grants eps inc x \/ In x (map fst Auth.SCOPE_HIERARCHY)) /\
  (~ In x (flat_map Auth.mentions Auth.SCOPE_HIERARCHY) ->
   (In x (Auth.buildScopesFromEndpoints eps inc) <-> Auth.grants eps inc x)).
Proof.
  unfold Auth.buildScopesFromEndpoints, Auth.buildScopesFrom, JSSet.to_array. split.
  - intros H. apply collapse_origin in H as [H | H]; [left; now apply in_collect | now right].
  - intros Hx. rewrite collapse_other; [apply in_collect |].
    intros entry He Hm. apply Hx, in_flat_map. now exists entry.
Qed.

(** X19.  The output is empty exactly when no endpoint that is not
    skipped lists a scope -- an empty catalog being one case. *)
Theorem scopes_empty_iff_nothing_granted (eps : list Auth.endpoint) (inc : bool) :
  Auth.buildScopesFromEndpoints eps inc = [] <-> forall x, ~ Auth.grants eps inc x.
Proof.
  unfold Auth.buildScopesFromEndpoints, Auth.buildScopesFrom, JSSet.to_array. split.
  - intros H x Hx. apply in_collect in Hx.
    destruct (Auth.collect eps inc) as [|y s] eqn:E; [exact Hx |].
    apply (collapse_nonempty Auth.SCOPE_HIERARCHY (y :: s)); [discriminate | exact H].
  - intros H. destruct (Auth.collect eps inc) as [|y s] eqn:E; [reflexivity |].
    exfalso. apply (H y), in_collect. rewrite E. now left.
Qed.

(** X20.  Without the work-account flag the output is that of the catalog
    with its work-account endpoints removed. *)
Theorem work_endpoints_are_skipped (eps : list Auth.endpoint) :
  Auth.buildScopesFromEndpoints eps false
  = Auth.buildScopesFromEndpoints
      (filter (fun e => negb (Auth.requiresWorkAccount e)) eps) true.
Proof.
  unfold Auth.buildScopesFromEndpoints, Auth.buildScopesFrom, Auth.collect.
  now rewrite collect_without_work.
Qed.

(** ** The tokens of the [AuthManager] *)
Section Tokens.
Context {Num : JSNumber}.
Import AuthManager.
Variable system : System.

#[local] Abbreviation world := (world system).

(** The manager with the OAuth token set. *)
Lemma oauth_priority (w : world) (forceRefresh : bool) (token : string) :
  isOAuthMode (this w) = true -> nonempty (oauthToken (this w)) = Some token ->
  getToken system forceRefresh w = (inr token, w).
Proof.
  intros H1 H2. unfold getToken, bind, self. now rewrite H1, H2.
Qed.

Lemma nonempty_some (token : string) : token <> "" -> nonempty (Some token) = Some token.
Proof.
  intros H. cbn. apply String.eqb_neq in H. now rewrite H.
Qed.

(** When [getToken] has nothing at hand. *)
Lemma oauth_unusable (m : manager) :
  isOAuthMode m = false \/ oauthToken m = None \/ oauthToken m = Some "" ->
  (if isOAuthMode m then nonempty (oauthToken m) else None) = None.
Proof.
  intros [-> | [H | H]]; [reflexivity | |]; rewrite H; now destruct (isOAuthMode m).
Qed.

Lemma cache_unusable (m : manager) (now : Z) (forceRefresh : bool) :
  forceRefresh = true \/ accessToken m = None \/ accessToken m = Some ""
  \/ tokenExpiry m = None
  \/ (exists expiry, tokenExpiry m = Some expiry /\ (expiry = 0 \/ expiry <= now)%Z) ->
  cached m now forceRefresh = None.
Proof.
  unfold cached.
  intros [-> | [H | [H | [H | [expiry [H Hexp]]]]]]; try (now rewrite H).
  - destruct (nonempty (accessToken m)); [| reflexivity].
    destruct (tokenExpiry m); [| reflexivity].
    now rewrite andb_false_r.
  - rewrite H. now destruct (nonempty (accessToken m)).
  - rewrite H. destruct (nonempty (accessToken m)); [| reflexivity].
    destruct Hexp as [-> | Hle]; [reflexivity |].
    apply Z.ltb_ge in Hle. rewrite Hle. now rewrite andb_false_r.
Qed.

(** The scopes of the endpoints that require a work account. *)
Lemma workScopes_none (endpoints : list Auth.endpoint) :
  (forall e, In e endpoints -> Auth.requiresWorkAccount e = true ->
             Auth.scopes e = None \/ Auth.scopes e = Some []) ->
  workScopes endpoints = [].
Proof.
  unfold workScopes. induction endpoints as [|e l IH]; intros H; [reflexivity |].
  cbn [filter]. destruct (Auth.requiresWorkAccount e) eqn:Ew.
  - cbn [flat_map].
    destruct (H e (or_introl eq_refl) Ew) as [-> | ->];
      apply IH; intros e' He'; apply H; now right.
  - apply IH. intros e' He'. apply H. now right.
Qed.

Lemma workScopes_app (before after : list Auth.endpoint) :
  workScopes (before ++ after) = (workScopes before ++ workScopes after)%list.
Proof.
  unfold workScopes. now rewrite filter_app, flat_map_app.
Qed.

Lemma workScopes_first (before after : list Auth.endpoint) (e : Auth.endpoint)
      (scope : string) (rest : list string) :
  Auth.requiresWorkAccount e = true -> Auth.scopes e = Some (scope :: rest) ->
  (forall e', In e' before -> Auth.requiresWorkAccount e' = true ->
              Auth.scopes e' = None \/ Auth.scopes e' = Some []) ->
  firstn 1 (workScopes (before ++ e :: after)) = [scope].
Proof.
  intros Hw Hs Hbefore.
  rewrite workScopes_app, (workScopes_none before Hbefore).
  unfold workScopes. cbn [app filter]. rewrite Hw. cbn [flat_map]. now rewrite Hs.
Qed.

End Tokens.

(** X21.  An OAuth token that is not empty has priority: [getToken]
    returns it without a call to any collaborator, whatever [forceRefresh]
    and whatever is cached -- for a manager built with the token in the
    environment, and from any state once [setOAuthToken] has run. *)
Theorem oauth_token_has_priority {Num : JSNumber} (system : AuthManager.System)
        (token : string) :
  token <> "" ->
  (forall (s : AuthManager.sys_state system) requested forceRefresh,
      AuthManager.getToken system forceRefresh
        {| AuthManager.this := AuthManager.constructor requested (Some token);
           AuthManager.sys := s; AuthManager.calls := [] |}
      = (inr token,
         {| AuthManager.this := AuthManager.constructor requested (Some token);
            AuthManager.sys := s; AuthManager.calls := [] |})) /\
  (forall (w : AuthManager.world system) forceRefresh,
      AuthManager.bind system (AuthManager.setOAuthToken system token)
                       (fun _ => AuthManager.getToken system forceRefresh) w
      = (inr token,
         {| AuthManager.this :=
              {| AuthManager.scopes := AuthManager.scopes (AuthManager.this w);
                 AuthManager.accessToken := AuthManager.accessToken (AuthManager.this w);
                 AuthManager.tokenExpiry := AuthManager.tokenExpiry (AuthManager.this w);
                 AuthManager.oauthToken := Some token;
                 AuthManager.isOAuthMode := true |};
            AuthManager.sys := AuthManager.sys w;
            AuthManager.calls := AuthManager.calls w |})).
Proof.
  intros Htoken. split.
  - intros s requested forceRefresh. apply oauth_priority; [reflexivity |].
    now apply nonempty_some.
  - intros w forceRefresh. unfold AuthManager.bind at 1.
    cbn [AuthManager.setOAuthToken AuthManager.assign].
    apply oauth_priority; [reflexivity | now apply nonempty_some].
Qed.

Lemma oauth_token_has_priority_witness :
  AuthManager.getToken Samples.signed_out true
    (Samples.start Samples.signed_out tt ["User.Read"] (Some "verified"))
  = (inr "verified", Samples.start Samples.signed_out tt ["User.Read"] (Some "verified")).
Proof.
  destruct (oauth_token_has_priority Samples.signed_out "verified") as [H _];
    [discriminate |].
  apply H.
Defined.

(** X22.  Without a usable OAuth token or cached token, [getToken] asks
    the cache for its accounts and acquires a token silently for the first
    one, with the manager's scopes; it stores the token and its expiry.
    While that expiry is in the future, a [getToken] that does not force a
    refresh returns the stored token with no further call. *)
Theorem silent_acquisition_is_cached {Num : JSNumber} (system : AuthManager.System)
        (w : AuthManager.world system) (forceRefresh : bool)
        (a : AuthManager.account) (rest : list AuthManager.account)
        (r : AuthManager.AuthenticationResult)
        (s1 s2 : AuthManager.sys_state system) :
  (if AuthManager.isOAuthMode (AuthManager.this w)
   then AuthManager.nonempty (AuthManager.oauthToken (AuthManager.this w))
   else None) = None ->
  AuthManager.cached (AuthManager.this w)
                     (AuthManager.Date_now system (AuthManager.sys w)) forceRefresh
  = None ->
  AuthManager.getAllAccounts system (AuthManager.sys w) = (inr (a :: rest), s1) ->
  AuthManager.acquireTokenSilent system (AuthManager.scopes (AuthManager.this w)) a s1
  = (inr (Some r), s2) ->
  let w' :=
    {| AuthManager.this :=
         {| AuthManager.scopes := AuthManager.scopes (AuthManager.this w);
            AuthManager.accessToken := Some (AuthManager.auth_accessToken r);
            AuthManager.tokenExpiry := AuthManager.auth_expiresOn r;
            AuthManager.oauthToken := AuthManager.oauthToken (AuthManager.this w);
            AuthManager.isOAuthMode := AuthManager.isOAuthMode (AuthManager.this w) |};
       AuthManager.sys := s2;
       AuthManager.calls :=
         (AuthManager.calls w
          ++ [AuthManager.GetAllAccounts;
              AuthManager.AcquireTokenSilent
                (AuthManager.scopes (AuthManager.this w)) a])%list |} in
  AuthManager.getToken system forceRefresh w
  = (inr (AuthManager.auth_accessToken r), w') /\
  (forall expiry,
      AuthManager.auth_accessToken r <> "" ->
      AuthManager.auth_expiresOn r = Some expiry ->
      expiry <> 0%Z ->
      (AuthManager.Date_now system s2 < expiry)%Z ->
      AuthManager.getToken system false w'
      = (inr (AuthManager.auth_accessToken r), w')).
Proof.
  intros Hoauth Hcache Hacc Hsilent w'. split.
  - unfold AuthManager.getToken, AuthManager.bind, AuthManager.self, AuthManager.read.
    rewrite Hoauth, Hcache. unfold AuthManager.await. rewrite Hacc.
    unfold AuthManager.try_catch, AuthManager.bind, AuthManager.await.
    cbn [AuthManager.sys AuthManager.this AuthManager.calls]. rewrite Hsilent.
    cbn. unfold w'. now rewrite <- app_assoc.
  - intros expiry Htok Hexp Hnz Hnow.
    unfold AuthManager.getToken, AuthManager.bind, AuthManager.self, AuthManager.read.
    cbn [AuthManager.this AuthManager.sys w' AuthManager.isOAuthMode
         AuthManager.oauthToken].
    rewrite Hoauth. unfold AuthManager.cached.
    cbn [AuthManager.accessToken AuthManager.tokenExpiry].
    rewrite (nonempty_some _ Htok), Hexp.
    apply Z.eqb_neq in Hnz. apply Z.ltb_lt in Hnow. rewrite Hnz.
    change (AuthManager.sys w') with s2. now rewrite Hnow.
Qed.

Lemma silent_acquisition_is_cached_witness :
  fst (AuthManager.getToken Samples.signed_in false
         (Samples.start Samples.signed_in tt ["User.Read"] None))
  = inr "eyJ.fresh".
Proof.
  destruct (silent_acquisition_is_cached Samples.signed_in
              (Samples.start Samples.signed_in tt ["User.Read"] None) false
              Samples.ada [] Samples.fresh_token tt tt
              eq_refl eq_refl eq_refl eq_refl) as [H _].
  now rewrite H.
Defined.

(** X23.  When the manager has no OAuth token to use (it is not in OAuth
    mode, or the token is absent or empty) and no cached token to use
    (a refresh is forced, or the token is absent or empty, or its expiry is
    absent, zero or not in the future), [getToken] fails in three ways and
    leaves the manager as it was: the error of the accounts query goes
    through; an empty account list gives [No valid token found]; and any
    failure of the silent acquisition, a [null] response included, gives
    [Silent token acquisition failed], the original message being
    dropped. *)
Theorem getToken_failures {Num : JSNumber} (system : AuthManager.System)
        (w : AuthManager.world system) (forceRefresh : bool) :
  AuthManager.isOAuthMode (AuthManager.this w) = false
  \/ AuthManager.oauthToken (AuthManager.this w) = None
  \/ AuthManager.oauthToken (AuthManager.this w) = Some "" ->
  forceRefresh = true
  \/ AuthManager.accessToken (AuthManager.this w) = None
  \/ AuthManager.accessToken (AuthManager.this w) = Some ""
  \/ AuthManager.tokenExpiry (AuthManager.this w) = None
  \/ (exists expiry,
         AuthManager.tokenExpiry (AuthManager.this w) = Some expiry /\
         (expiry = 0 \/ expiry <= AuthManager.Date_now system (AuthManager.sys w))%Z) ->
  let after s cs := {| AuthManager.this := AuthManager.this w; AuthManager.sys := s;
                       AuthManager.calls := (AuthManager.calls w ++ cs)%list |} in
  (forall message s1,
      AuthManager.getAllAccounts system (AuthManager.sys w) = (inl message, s1) ->
      AuthManager.getToken system forceRefresh w
      = (inl message, after s1 [AuthManager.GetAllAccounts])) /\
  (forall s1,
      AuthManager.getAllAccounts system (AuthManager.sys w) = (inr [], s1) ->
      AuthManager.getToken system forceRefresh w
      = (inl "No valid token found", after s1 [AuthManager.GetAllAccounts])) /\
  (forall a rest s1 s2 failure,
      AuthManager.getAllAccounts system (AuthManager.sys w) = (inr (a :: rest), s1) ->
      AuthManager.acquireTokenSilent system (AuthManager.scopes (AuthManager.this w)) a s1
      = (failure, s2) ->
      (failure = inr None \/ exists message, failure = inl message) ->
      AuthManager.getToken system forceRefresh w
      = (inl "Silent token acquisition failed",
         after s2 [AuthManager.GetAllAccounts;
                   AuthManager.AcquireTokenSilent
                     (AuthManager.scopes (AuthManager.this w)) a])).
Proof.
  intros Hoauth Hcache after.
  apply oauth_unusable in Hoauth.
  apply (cache_unusable _ (AuthManager.Date_now system (AuthManager.sys w))) in Hcache.
  repeat split.
  - intros message s1 Hacc.
    unfold AuthManager.getToken, AuthManager.bind, AuthManager.self, AuthManager.read.
    rewrite Hoauth, Hcache. unfold AuthManager.await. now rewrite Hacc.
  - intros s1 Hacc.
    unfold AuthManager.getToken, AuthManager.bind, AuthManager.self, AuthManager.read.
    rewrite Hoauth, Hcache. unfold AuthManager.await. now rewrite Hacc.
  - intros a rest s1 s2 failure Hacc Hsilent Hfail.
    unfold AuthManager.getToken, AuthManager.bind, AuthManager.self, AuthManager.read.
    rewrite Hoauth, Hcache. unfold AuthManager.await. rewrite Hacc.
    unfold AuthManager.try_catch, AuthManager.bind, AuthManager.await.
    cbn [AuthManager.sys AuthManager.this AuthManager.calls]. rewrite Hsilent.
    unfold after. destruct Hfail as [-> | [message ->]]; cbn; now rewrite <- app_assoc.
Qed.

(** A cached token that is still valid is returned; put aside by a forced
    refresh, with no account in the cache, it is not. *)
Lemma getToken_failures_witness :
  AuthManager.getToken Samples.signed_out false
    (Samples.with_cached_token Samples.signed_out tt)
  = (inr "eyJ.cached", Samples.with_cached_token Samples.signed_out tt) /\
  AuthManager.getToken Samples.signed_out true
    (Samples.with_cached_token Samples.signed_out tt)
  = (inl "No valid token found",
     {| AuthManager.this :=
          AuthManager.this (Samples.with_cached_token Samples.signed_out tt);
        AuthManager.sys := tt : AuthManager.sys_state Samples.signed_out;
        AuthManager.calls := [AuthManager.GetAllAccounts] |}).
Proof.
  split; [reflexivity |].
  destruct (getToken_failures Samples.signed_out
              (Samples.with_cached_token Samples.signed_out tt) true
              (or_introl eq_refl) (or_introl eq_refl)) as [_ [H _]].
  apply (H tt). reflexivity.
Defined.

(** What [remove_all] leaves: the object as it was; when it throws, the
    last call is the removal that failed. *)
Lemma remove_all_spec {Num : JSNumber} (system : AuthManager.System)
      (accounts : list AuthManager.account) :
  forall (w w' : AuthManager.world system) r,
    AuthManager.remove_all system accounts w = (r, w') ->
    AuthManager.this w' = AuthManager.this w /\
    match r with
    | inr _ => True
    | inl _ => exists cs a, AuthManager.calls w' = (cs ++ [AuthManager.RemoveAccount a])%list
    end.
Proof.
  induction accounts as [|a accounts IH]; intros w w' r H.
  - inversion H. now split.
  - cbn [AuthManager.remove_all] in H. unfold AuthManager.bind, AuthManager.await in H.
    destruct (AuthManager.removeAccount system a (AuthManager.sys w)) as [[msg | []] s].
    + inversion H. split; [reflexivity |]. now exists (AuthManager.calls w), a.
    + apply IH in H. exact H.
Qed.

(** X24.  [logout] returns [true] or throws.  When it returns, the token
    acquired and its expiry are forgotten, and the scopes, the OAuth
    token and the OAuth mode are kept: a manager with a usable OAuth token
    still answers [getToken] with it.  A failure of the keychain
    deletion is swallowed.  When [logout] throws, the token is still
    cached unless the call that failed is the unlink of the fallback
    file. *)
Theorem logout_forgets_acquired_token {Num : JSNumber} (system : AuthManager.System)
        (w : AuthManager.world system) :
  let forgotten :=
    {| AuthManager.scopes := AuthManager.scopes (AuthManager.this w);
       AuthManager.accessToken := None;
       AuthManager.tokenExpiry := None;
       AuthManager.oauthToken := AuthManager.oauthToken (AuthManager.this w);
       AuthManager.isOAuthMode := AuthManager.isOAuthMode (AuthManager.this w) |} in
  (forall r w',
      AuthManager.logout system w = (r, w') ->
      match r with
      | inr done =>
          done = true /\ AuthManager.this w' = forgotten /\
          (forall token forceRefresh,
              AuthManager.isOAuthMode (AuthManager.this w) = true ->
              AuthManager.nonempty (AuthManager.oauthToken (AuthManager.this w))
              = Some token ->
              AuthManager.getToken system forceRefresh w' = (inr token, w'))
      | inl _ =>
          AuthManager.this w'
          = match last (AuthManager.calls w') AuthManager.GetAllAccounts with
            | AuthManager.Unlink => forgotten
            | _ => AuthManager.this w
            end
      end) /\
  (forall accounts s1 w2 message s3,
      AuthManager.getAllAccounts system (AuthManager.sys w) = (inr accounts, s1) ->
      AuthManager.remove_all system accounts
        {| AuthManager.this := AuthManager.this w; AuthManager.sys := s1;
           AuthManager.calls := (AuthManager.calls w ++ [AuthManager.GetAllAccounts])%list |}
      = (inr tt, w2) ->
      AuthManager.deletePassword system (AuthManager.sys w2) = (inl message, s3) ->
      AuthManager.existsSync system s3 = false ->
      AuthManager.logout system w
      = (inr true,
         {| AuthManager.this := forgotten; AuthManager.sys := s3;
            AuthManager.calls := (AuthManager.calls w2 ++ [AuthManager.DeletePassword])%list |})).
Proof.
  intros forgotten. split.
  - intros r w'. unfold AuthManager.logout. unfold AuthManager.bind at 1.
    unfold AuthManager.await at 1.
    destruct (AuthManager.getAllAccounts system (AuthManager.sys w))
      as [[message | accounts] s1] eqn:Hacc.
    { intros H. injection H. intros <- <-. clear H. cbn [AuthManager.calls AuthManager.this].
      now rewrite last_last. }
    unfold AuthManager.bind at 1.
    destruct (AuthManager.remove_all system accounts _) as [[message | []] w2] eqn:Hrem.
    { intros H. injection H. intros <- <-. clear H. apply remove_all_spec in Hrem.
      destruct Hrem as [Hthis (cs & a & Hcalls)]. rewrite Hcalls, last_last. exact Hthis. }
    apply remove_all_spec in Hrem. destruct Hrem as [Hthis _].
    cbn [AuthManager.this] in Hthis.
    unfold AuthManager.bind, AuthManager.clear, AuthManager.assign, AuthManager.try_catch,
      AuthManager.await, AuthManager.read, AuthManager.ret.
    cbn [AuthManager.sys AuthManager.calls AuthManager.this].
    rewrite Hthis. fold forgotten.
    destruct (AuthManager.deletePassword system (AuthManager.sys w2))
      as [[message | found] s3]; cbn [AuthManager.sys AuthManager.calls AuthManager.this].
    + destruct (AuthManager.existsSync system s3);
        cbn [AuthManager.sys AuthManager.calls AuthManager.this].
      * destruct (AuthManager.unlinkSync system s3) as [[message' | []] s4];
          intros H; injection H; intros <- <-; clear H; cbn [AuthManager.calls AuthManager.this].
        -- now rewrite last_last.
        -- repeat split. intros token forceRefresh H1 H2. now apply oauth_priority.
      * intros H; injection H as <- <-. repeat split.
        intros token forceRefresh H1 H2. now apply oauth_priority.
    + destruct (AuthManager.existsSync system s3);
        cbn [AuthManager.sys AuthManager.calls AuthManager.this].
      * destruct (AuthManager.unlinkSync system s3) as [[message' | []] s4];
          intros H; injection H; intros <- <-; clear H; cbn [AuthManager.calls AuthManager.this].
        -- now rewrite last_last.
        -- repeat split. intros token forceRefresh H1 H2. now apply oauth_priority.
      * intros H; injection H as <- <-. repeat split.
        intros token forceRefresh H1 H2. now apply oauth_priority.
  - intros accounts s1 w2 message s3 Hacc Hrem Hdel Hfile.
    pose proof (remove_all_spec _ _ _ _ _ Hrem) as [Hthis _].
    cbn [AuthManager.this] in Hthis.
    unfold AuthManager.logout. unfold AuthManager.bind at 1.
    unfold AuthManager.await at 1. rewrite Hacc.
    unfold AuthManager.bind at 1. rewrite Hrem.
    unfold AuthManager.bind, AuthManager.clear, AuthManager.assign, AuthManager.try_catch,
      AuthManager.await, AuthManager.read, AuthManager.ret.
    cbn [AuthManager.sys AuthManager.calls AuthManager.this].
    rewrite Hdel. cbn [AuthManager.sys AuthManager.calls AuthManager.this].
    rewrite Hfile, Hthis. reflexivity.
Qed.

Ltac run_auth :=
  unfold AuthManager.bind, AuthManager.try_catch, AuthManager.await, AuthManager.read,
    AuthManager.ret, AuthManager.throw, AuthManager.assign, AuthManager.self,
    AuthManager.settled;
  cbn beta iota;
  cbn [AuthManager.sys AuthManager.calls AuthManager.this fst snd].

(** X25.  [hasWorkAccountPermissions] never throws and leaves the object
    as it was: the token it acquires is not stored.  It asks for one scope
    at most: the first scope of the first endpoint of the catalog that
    requires a work account and lists a scope; none when there is no such
    endpoint.  Its answer is [true] exactly when the cache has an account
    and the silent acquisition for the first account, with that scope,
    does not throw; the response is not looked at, so a [null] response
    counts. *)
Theorem work_account_probe {Num : JSNumber} (system : AuthManager.System)
        (endpoints : list Auth.endpoint) (w : AuthManager.world system) :
  exists requested,
    ((forall e, In e endpoints -> Auth.requiresWorkAccount e = true ->
                Auth.scopes e = None \/ Auth.scopes e = Some []) ->
     requested = []) /\
    (forall before e after scope rest,
        endpoints = (before ++ e :: after)%list ->
        Auth.requiresWorkAccount e = true ->
        Auth.scopes e = Some (scope :: rest) ->
        (forall e', In e' before -> Auth.requiresWorkAccount e' = true ->
                    Auth.scopes e' = None \/ Auth.scopes e' = Some []) ->
        requested = [scope]) /\
    exists answer s cs,
      AuthManager.hasWorkAccountPermissions system endpoints w
      = (inr answer,
         {| AuthManager.this := AuthManager.this w; AuthManager.sys := s;
            AuthManager.calls := (AuthManager.calls w ++ cs)%list |}) /\
      (answer = true <->
       exists a rest s1 response,
         AuthManager.getAllAccounts system (AuthManager.sys w) = (inr (a :: rest), s1) /\
         AuthManager.acquireTokenSilent system requested a s1 = (inr response, s)) /\
      (cs = [AuthManager.GetAllAccounts] \/
       exists a,
         cs = [AuthManager.GetAllAccounts; AuthManager.AcquireTokenSilent requested a]).
Proof.
  exists (firstn 1 (AuthManager.workScopes endpoints)).
  split; [intros H; now rewrite (workScopes_none endpoints H) |].
  split; [intros before e after scope rest -> Hw Hs Hb;
          now apply (workScopes_first before after e scope rest) |].
  set (requested := firstn 1 (AuthManager.workScopes endpoints)).
  unfold AuthManager.hasWorkAccountPermissions. fold requested. run_auth.
  destruct (AuthManager.getAllAccounts system (AuthManager.sys w))
    as [[message | [| a rest]] s1] eqn:Hacc; run_auth.
  - exists false, s1, [AuthManager.GetAllAccounts]. repeat split; [discriminate | | now left].
    intros (a & rest & s1' & response & H & _). discriminate.
  - exists false, s1, [AuthManager.GetAllAccounts]. repeat split; [discriminate | | now left].
    intros (a & rest & s1' & response & H & _). discriminate.
  - destruct (AuthManager.acquireTokenSilent system requested a s1)
      as [[message | response] s2] eqn:Hsilent; run_auth.
    + exists false, s2,
        [AuthManager.GetAllAccounts; AuthManager.AcquireTokenSilent requested a].
      rewrite <- app_assoc. repeat split; [discriminate | | right; now exists a].
      intros (a' & rest' & s1' & response & H1 & H2).
      injection H1 as <- _ <-. rewrite Hsilent in H2. discriminate.
    + exists true, s2,
        [AuthManager.GetAllAccounts; AuthManager.AcquireTokenSilent requested a].
      rewrite <- app_assoc. repeat split; [| right; now exists a].
      intros _. now exists a, rest, s1, response.
Qed.

(** The second endpoint is the first that requires a work account and
    lists a scope: its first scope is asked for. *)
Lemma work_account_probe_witness :
  AuthManager.calls
    (snd (AuthManager.hasWorkAccountPermissions Samples.signed_in Samples.work_catalog
            (Samples.start Samples.signed_in tt ["User.Read"] None)))
  = [AuthManager.GetAllAccounts;
     AuthManager.AcquireTokenSilent ["Sites.Read.All"] Samples.ada].
Proof.
  destruct (work_account_probe Samples.signed_in Samples.work_catalog
              (Samples.start Samples.signed_in tt ["User.Read"] None))
    as [requested [_ [Hfirst [answer [s [cs [Heq [_ Hcs]]]]]]]].
  rewrite (Hfirst [Samples.mail_reader; Samples.work_without_scopes]
                  Samples.sites_reader [Samples.sites_writer]
                  "Sites.Read.All" ["Sites.ReadWrite.All"] eq_refl eq_refl eq_refl)
    in Hcs.
  - rewrite Heq. cbn [snd AuthManager.calls Samples.start app].
    destruct Hcs as [-> | [a ->]]; vm_compute in Heq; [discriminate |].
    inversion Heq. reflexivity.
  - intros e' [<- | [<- | []]]; [discriminate | intros _; now left].
Defined.

(** The cache found in the keychain is deserialized. *)
Lemma load_from_keychain {Num : JSNumber} (system : AuthManager.System)
      (w : AuthManager.world system) (d : string) (s1 : AuthManager.sys_state system) :
  AuthManager.getPassword system (AuthManager.sys w) = (inr (Some d), s1) ->
  d <> "" ->
  AuthManager.loadTokenCache system w
  = (inr tt,
     {| AuthManager.this := AuthManager.this w;
        AuthManager.sys := snd (AuthManager.deserialize system d s1);
        AuthManager.calls :=
          (AuthManager.calls w ++ [AuthManager.GetPassword; AuthManager.Deserialize d])%list |}).
Proof.
  intros Hget Hd. unfold AuthManager.loadTokenCache. run_auth. rewrite Hget. run_auth.
  rewrite (nonempty_some _ Hd). run_auth. rewrite (nonempty_some _ Hd). run_auth.
  destruct (AuthManager.deserialize system d s1) as [[message | []] s2];
    run_auth; now rewrite <- app_assoc.
Qed.

(** Without a cache in the keychain, the fallback file is read. *)
Lemma load_from_file {Num : JSNumber} (system : AuthManager.System)
      (w : AuthManager.world system) failure (d : string)
      (s1 s2 : AuthManager.sys_state system) :
  AuthManager.getPassword system (AuthManager.sys w) = (failure, s1) ->
  (forall d', failure = inr (Some d') -> d' = "") ->
  AuthManager.existsSync system s1 = true ->
  AuthManager.readFileSync system s1 = (inr d, s2) ->
  d <> "" ->
  AuthManager.loadTokenCache system w
  = (inr tt,
     {| AuthManager.this := AuthManager.this w;
        AuthManager.sys := snd (AuthManager.deserialize system d s2);
        AuthManager.calls :=
          (AuthManager.calls w
           ++ [AuthManager.GetPassword; AuthManager.ReadFile; AuthManager.Deserialize d])%list |}).
Proof.
  intros Hget Hfail Hfile Hread Hd. unfold AuthManager.loadTokenCache. run_auth.
  rewrite Hget. run_auth.
  assert (Hnone : match failure with
                  | inr cachedData => AuthManager.nonempty cachedData
                  | inl _ => None
                  end = None).
  { destruct failure as [message | [d' |]]; try reflexivity.
    now rewrite (Hfail d' eq_refl). }
  destruct failure as [message | cachedData]; run_auth.
  - rewrite Hfile. run_auth. rewrite Hread. run_auth. rewrite (nonempty_some _ Hd).
    run_auth. destruct (AuthManager.deserialize system d s2) as [[message' | []] s3];
      run_auth; now rewrite <- !app_assoc.
  - rewrite Hnone. run_auth. rewrite Hfile. run_auth. rewrite Hread. run_auth.
    rewrite (nonempty_some _ Hd).
    run_auth. destruct (AuthManager.deserialize system d s2) as [[message' | []] s3];
      run_auth; now rewrite <- !app_assoc.
Qed.

(** X26.  [loadTokenCache] never throws and leaves the object as it was.
    A cache found in the keychain is deserialized and the fallback file is
    not read; when the keychain throws or holds nothing, the fallback file
    is read if it exists, and its content deserialized; with neither,
    nothing is deserialized. *)
Theorem cache_is_loaded_from_keychain_first {Num : JSNumber}
        (system : AuthManager.System) (w : AuthManager.world system) :
  (exists s cs,
      AuthManager.loadTokenCache system w
      = (inr tt,
         {| AuthManager.this := AuthManager.this w; AuthManager.sys := s;
            AuthManager.calls := (AuthManager.calls w ++ cs)%list |})) /\
  (forall d s1,
      AuthManager.getPassword system (AuthManager.sys w) = (inr (Some d), s1) ->
      d <> "" ->
      AuthManager.loadTokenCache system w
      = (inr tt,
         {| AuthManager.this := AuthManager.this w;
            AuthManager.sys := snd (AuthManager.deserialize system d s1);
            AuthManager.calls :=
              (AuthManager.calls w
               ++ [AuthManager.GetPassword; AuthManager.Deserialize d])%list |})) /\
  (forall failure s1,
      AuthManager.getPassword system (AuthManager.sys w) = (failure, s1) ->
      (forall d', failure = inr (Some d') -> d' = "") ->
      (forall d s2,
          AuthManager.existsSync system s1 = true ->
          AuthManager.readFileSync system s1 = (inr d, s2) ->
          d <> "" ->
          AuthManager.loadTokenCache system w
          = (inr tt,
             {| AuthManager.this := AuthManager.this w;
                AuthManager.sys := snd (AuthManager.deserialize system d s2);
                AuthManager.calls :=
                  (AuthManager.calls w
                   ++ [AuthManager.GetPassword; AuthManager.ReadFile;
                       AuthManager.Deserialize d])%list |})) /\
      (AuthManager.existsSync system s1 = false ->
       AuthManager.loadTokenCache system w
       = (inr tt,
          {| AuthManager.this := AuthManager.this w; AuthManager.sys := s1;
             AuthManager.calls :=
               (AuthManager.calls w ++ [AuthManager.GetPassword])%list |}))).
Proof.
  split; [| split].
  - unfold AuthManager.loadTokenCache. run_auth.
    destruct (AuthManager.getPassword system (AuthManager.sys w))
      as [[message | cachedData] s1]; run_auth.
    + destruct (AuthManager.existsSync system s1); run_auth.
      * destruct (AuthManager.readFileSync system s1) as [[message' | d] s2]; run_auth.
        -- now exists s2, [AuthManager.GetPassword; AuthManager.ReadFile]; rewrite <- app_assoc.
        -- destruct (AuthManager.nonempty (Some d)); run_auth.
           ++ destruct (AuthManager.deserialize system s s2) as [[message' | []] s3];
                run_auth;
                exists s3, [AuthManager.GetPassword; AuthManager.ReadFile;
                            AuthManager.Deserialize s];
                now rewrite <- !app_assoc.
           ++ now exists s2, [AuthManager.GetPassword; AuthManager.ReadFile];
                rewrite <- app_assoc.
      * now exists s1, [AuthManager.GetPassword].
    + destruct (AuthManager.nonempty cachedData) as [d |]; run_auth.
      * destruct (AuthManager.nonempty (Some d)); run_auth.
        -- destruct (AuthManager.deserialize system s s1) as [[message' | []] s3];
             run_auth;
             exists s3, [AuthManager.GetPassword; AuthManager.Deserialize s];
             now rewrite <- !app_assoc.
        -- now exists s1, [AuthManager.GetPassword].
      * destruct (AuthManager.existsSync system s1); run_auth.
        -- destruct (AuthManager.readFileSync system s1) as [[message' | d] s2]; run_auth.
           ++ now exists s2, [AuthManager.GetPassword; AuthManager.ReadFile];
                rewrite <- app_assoc.
           ++ destruct (AuthManager.nonempty (Some d)); run_auth.
              ** destruct (AuthManager.deserialize system s s2) as [[message' | []] s3];
                   run_auth;
                   exists s3, [AuthManager.GetPassword; AuthManager.ReadFile;
                               AuthManager.Deserialize s];
                   now rewrite <- !app_assoc.
              ** now exists s2, [AuthManager.GetPassword; AuthManager.ReadFile];
                   rewrite <- app_assoc.
        -- now exists s1, [AuthManager.GetPassword].
  - intros d s1 Hget Hd. now apply load_from_keychain.
  - intros failure s1 Hget Hfail. split.
    + intros d s2 Hfile Hread Hd. now apply (load_from_file system w failure d s1 s2).
    + intros Hfile. unfold AuthManager.loadTokenCache. run_auth. rewrite Hget. run_auth.
      destruct failure as [message | [d' |]]; run_auth.
      * now rewrite Hfile.
      * rewrite (Hfail d' eq_refl). cbn. run_auth. now rewrite Hfile.
      * cbn. run_auth. now rewrite Hfile.
Qed.

(** What [saveTokenCache] does with the serialized cache. *)
Lemma save_to_keychain {Num : JSNumber} (system : AuthManager.System)
      (w : AuthManager.world system) (d : string) (s1 s2 : AuthManager.sys_state system) :
  AuthManager.serialize system (AuthManager.sys w) = (inr d, s1) ->
  AuthManager.setPassword system d s1 = (inr tt, s2) ->
  AuthManager.saveTokenCache system w
  = (inr tt,
     {| AuthManager.this := AuthManager.this w; AuthManager.sys := s2;
        AuthManager.calls :=
          (AuthManager.calls w ++ [AuthManager.Serialize; AuthManager.SetPassword d])%list |}).
Proof.
  intros Hser Hset. unfold AuthManager.saveTokenCache. run_auth. rewrite Hser. run_auth.
  rewrite Hset. now rewrite <- app_assoc.
Qed.

Lemma save_to_file {Num : JSNumber} (system : AuthManager.System)
      (w : AuthManager.world system) (d message : string)
      (s1 s2 s3 : AuthManager.sys_state system) outcome :
  AuthManager.serialize system (AuthManager.sys w) = (inr d, s1) ->
  AuthManager.setPassword system d s1 = (inl message, s2) ->
  AuthManager.writeFileSync system d s2 = (outcome, s3) ->
  AuthManager.saveTokenCache system w
  = (inr tt,
     {| AuthManager.this := AuthManager.this w; AuthManager.sys := s3;
        AuthManager.calls :=
          (AuthManager.calls w
           ++ [AuthManager.Serialize; AuthManager.SetPassword d;
               AuthManager.WriteFile d])%list |}).
Proof.
  intros Hser Hset Hwrite. unfold AuthManager.saveTokenCache. run_auth.
  rewrite Hser. run_auth. rewrite Hset. run_auth. rewrite Hwrite.
  destruct outcome as [message' | []]; now rewrite <- !app_assoc.
Qed.

(** X27.  What [saveTokenCache] saves is what [loadTokenCache] loads:
    when the keychain takes the serialized cache and gives it back, the
    cache is deserialized from the keychain; when the keychain refuses it,
    the cache is written to the fallback file, and, the keychain giving
    nothing, deserialized from that file.  Neither call throws or changes
    the object. *)
Theorem saved_cache_is_loaded {Num : JSNumber} (system : AuthManager.System)
        (w : AuthManager.world system) (d : string) (s1 : AuthManager.sys_state system) :
  AuthManager.serialize system (AuthManager.sys w) = (inr d, s1) ->
  d <> "" ->
  (forall s2 s3,
      AuthManager.setPassword system d s1 = (inr tt, s2) ->
      AuthManager.getPassword system s2 = (inr (Some d), s3) ->
      AuthManager.bind system (AuthManager.saveTokenCache system)
                       (fun _ => AuthManager.loadTokenCache system) w
      = (inr tt,
         {| AuthManager.this := AuthManager.this w;
            AuthManager.sys := snd (AuthManager.deserialize system d s3);
            AuthManager.calls :=
              (AuthManager.calls w
               ++ [AuthManager.Serialize; AuthManager.SetPassword d;
                   AuthManager.GetPassword; AuthManager.Deserialize d])%list |})) /\
  (forall message s2 s3 failure s4 s5,
      AuthManager.setPassword system d s1 = (inl message, s2) ->
      AuthManager.writeFileSync system d s2 = (inr tt, s3) ->
      AuthManager.getPassword system s3 = (failure, s4) ->
      (forall d', failure = inr (Some d') -> d' = "") ->
      AuthManager.existsSync system s4 = true ->
      AuthManager.readFileSync system s4 = (inr d, s5) ->
      AuthManager.bind system (AuthManager.saveTokenCache system)
                       (fun _ => AuthManager.loadTokenCache system) w
      = (inr tt,
         {| AuthManager.this := AuthManager.this w;
            AuthManager.sys := snd (AuthManager.deserialize system d s5);
            AuthManager.calls :=
              (AuthManager.calls w
               ++ [AuthManager.Serialize; AuthManager.SetPassword d;
                   AuthManager.WriteFile d; AuthManager.GetPassword;
                   AuthManager.ReadFile; AuthManager.Deserialize d])%list |})).
Proof.
  intros Hser Hd. split.
  - intros s2 s3 Hset Hget. unfold AuthManager.bind.
    rewrite (save_to_keychain system w d s1 s2 Hser Hset).
    rewrite (load_from_keychain system _ d s3); [| exact Hget | exact Hd].
    cbn [AuthManager.this AuthManager.calls]. now rewrite <- app_assoc.
  - intros message s2 s3 failure s4 s5 Hset Hwrite Hget Hfail Hfile Hread.
    unfold AuthManager.bind.
    rewrite (save_to_file system w d message s1 s2 s3 _ Hser Hset Hwrite).
    rewrite (load_from_file system _ failure d s4 s5); try assumption.
    cbn [AuthManager.this AuthManager.calls]. now rewrite <- app_assoc.
Qed.

Lemma saved_cache_is_loaded_witness :
  Samples.storage_loaded
    (AuthManager.sys
       (snd (AuthManager.bind (Samples.storing (inr Samples.me_ada))
               (AuthManager.saveTokenCache (Samples.storing (inr Samples.me_ada)))
               (fun _ => AuthManager.loadTokenCache (Samples.storing (inr Samples.me_ada)))
               (Samples.start (Samples.storing (inr Samples.me_ada))
                              (Samples.empty_storage false) ["User.Read"] None))))
  = Some "serialized cache" /\
  Samples.storage_loaded
    (AuthManager.sys
       (snd (AuthManager.bind (Samples.storing (inr Samples.me_ada))
               (AuthManager.saveTokenCache (Samples.storing (inr Samples.me_ada)))
               (fun _ => AuthManager.loadTokenCache (Samples.storing (inr Samples.me_ada)))
               (Samples.start (Samples.storing (inr Samples.me_ada))
                              (Samples.empty_storage true) ["User.Read"] None))))
  = Some "serialized cache".
Proof.
  pose (system := Samples.storing (inr Samples.me_ada)).
  split.
  - destruct (saved_cache_is_loaded system
                (Samples.start system (Samples.empty_storage false) ["User.Read"] None)
                "serialized cache" (Samples.empty_storage false) eq_refl)
      as [Hkeychain _]; [discriminate |].
    fold system. erewrite Hkeychain; reflexivity.
  - destruct (saved_cache_is_loaded system
                (Samples.start system (Samples.empty_storage true) ["User.Read"] None)
                "serialized cache" (Samples.empty_storage true) eq_refl)
      as [_ Hfile]; [discriminate |].
    fold system.
    erewrite Hfile; [reflexivity | reflexivity | reflexivity | reflexivity | | reflexivity
                     | reflexivity].
    intros d' H. discriminate.
Defined.

(** X28.  [verifyAccessToken] fetches the profile with the token.  When
    Graph answers [ok] with a document that is not [null], it puts the
    manager in OAuth mode with that token and returns the token, the
    client id and no scope; from then on [getToken] returns that token, if
    it is not empty, with no further call.  When the answer is not
    [ok] it throws [Token verification failed: <status>]; whenever it
    throws, the manager is as it was. *)
Theorem verified_token_is_used {Num : JSNumber} (system : AuthManager.System)
        (MS365_MCP_CLIENT_ID : option string) (token : string)
        (w : AuthManager.world system) :
  (forall response s1 data,
      AuthManager.fetch_me system token (AuthManager.sys w) = (inr response, s1) ->
      AuthManager.ok response = true ->
      AuthManager.body_json response = inr data ->
      data <> JNull ->
      let w' :=
        {| AuthManager.this :=
             {| AuthManager.scopes := AuthManager.scopes (AuthManager.this w);
                AuthManager.accessToken := AuthManager.accessToken (AuthManager.this w);
                AuthManager.tokenExpiry := AuthManager.tokenExpiry (AuthManager.this w);
                AuthManager.oauthToken := Some token;
                AuthManager.isOAuthMode := true |};
           AuthManager.sys := s1;
           AuthManager.calls := (AuthManager.calls w ++ [AuthManager.Fetch token])%list |} in
      AuthManager.verifyAccessToken system MS365_MCP_CLIENT_ID token w
      = (inr {| AuthManager.info_token := token;
                AuthManager.info_clientId := AuthManager.clientId MS365_MCP_CLIENT_ID;
                AuthManager.info_scopes := [] |}, w') /\
      (token <> "" ->
       forall forceRefresh,
         AuthManager.getToken system forceRefresh w' = (inr token, w'))) /\
  (forall response s1,
      AuthManager.fetch_me system token (AuthManager.sys w) = (inr response, s1) ->
      AuthManager.ok response = false ->
      AuthManager.verifyAccessToken system MS365_MCP_CLIENT_ID token w
      = (inl ("Token verification failed: "
              ++ AuthManager.decimal (AuthManager.status response)),
         {| AuthManager.this := AuthManager.this w; AuthManager.sys := s1;
            AuthManager.calls := (AuthManager.calls w ++ [AuthManager.Fetch token])%list |})) /\
  (forall message w',
      AuthManager.verifyAccessToken system MS365_MCP_CLIENT_ID token w = (inl message, w') ->
      AuthManager.this w' = AuthManager.this w).
Proof.
  split; [| split].
  - intros response s1 data Hfetch Hok Hjson Hdata w'. split.
    + unfold AuthManager.verifyAccessToken. run_auth. rewrite Hfetch. run_auth.
      rewrite Hok, Hjson. run_auth.
      destruct data; try contradiction; reflexivity.
    + intros Htoken forceRefresh. apply oauth_priority; [reflexivity |].
      now apply nonempty_some.
  - intros response s1 Hfetch Hok.
    unfold AuthManager.verifyAccessToken. run_auth. rewrite Hfetch. run_auth.
    now rewrite Hok.
  - intros message w'. unfold AuthManager.verifyAccessToken. run_auth.
    destruct (AuthManager.fetch_me system token (AuthManager.sys w))
      as [[message' | response] s1]; run_auth.
    + intros H. injection H. now intros <- _.
    + destruct (AuthManager.ok response).
      * destruct (AuthManager.body_json response) as [message' | data]; run_auth.
        -- intros H. injection H. now intros <- _.
        -- destruct data; cbn; intros H; try discriminate; injection H; now intros <- _.
      * intros H. injection H. now intros <- _.
Qed.

(** X29.  [testLogin] never throws.  When [getToken] throws, it reports
    [Login failed: ] and the message, with no request to Graph.  It reports
    success only after [getToken] gave a token that is not empty and Graph
    answered the request made with that token with [ok]; the message is
    then [Login successful].  Without success there is no user
    data. *)
Theorem login_test_reports {Num : JSNumber} (system : AuthManager.System)
        (w : AuthManager.world system) :
  exists r w',
    AuthManager.testLogin system w = (inr r, w') /\
    (forall message w1,
        AuthManager.getToken system false w = (inl message, w1) ->
        r = {| AuthManager.success := false;
               AuthManager.message := "Login failed: " ++ message;
               AuthManager.userData := None |} /\ w' = w1) /\
    (AuthManager.success r = true ->
     AuthManager.message r = "Login successful" /\
     exists token w1 response,
       AuthManager.getToken system false w = (inr token, w1) /\ token <> "" /\
       fst (AuthManager.fetch_me system token (AuthManager.sys w1)) = inr response /\
       AuthManager.ok response = true /\
       AuthManager.calls w' = (AuthManager.calls w1 ++ [AuthManager.Fetch token])%list) /\
    (AuthManager.success r = false -> AuthManager.userData r = None).
Proof.
  unfold AuthManager.testLogin. run_auth.
  destruct (AuthManager.getToken system false w) as [[message | token] w1] eqn:Htoken.
  { eexists _, _. split; [reflexivity |]. repeat split; try discriminate.
    - injection H. now intros _ <-.
    - now injection H. }
  destruct (String.eqb token "") eqn:Hempty.
  { eexists _, _. split; [reflexivity |]. repeat split; discriminate. }
  apply String.eqb_neq in Hempty.
  destruct (AuthManager.fetch_me system token (AuthManager.sys w1))
    as [[message | response] s2] eqn:Hfetch; run_auth.
  { eexists _, _. split; [reflexivity |]. repeat split; discriminate. }
  destruct (AuthManager.ok response) eqn:Hok; run_auth.
  - destruct (AuthManager.body_json response) as [message | data]; run_auth.
    { eexists _, _. split; [reflexivity |]. repeat split; discriminate. }
    destruct data; cbn;
      (eexists _, _; split; [reflexivity |]; repeat split; try discriminate;
       exists token, w1, response; rewrite ?Hfetch; now repeat split).
  - destruct (AuthManager.body_text response) as [message | text]; run_auth;
      eexists _, _; (split; [reflexivity |]); repeat split; discriminate.
Qed.

(** The keychain is locked and there is no fallback file: [logout]
    returns [true]. *)
Lemma logout_forgets_acquired_token_witness :
  fst (AuthManager.logout Samples.signed_in
         (Samples.start Samples.signed_in tt ["User.Read"] None))
  = inr true.
Proof.
  destruct (logout_forgets_acquired_token Samples.signed_in
              (Samples.start Samples.signed_in tt ["User.Read"] None)) as [_ H].
  now rewrite (H [Samples.ada] tt _ "keychain locked" tt eq_refl eq_refl eq_refl eq_refl).
Defined.

(** The keychain holds a cache and the fallback file exists: the file is
    not read. *)
Lemma cache_is_loaded_from_keychain_first_witness :
  AuthManager.calls
    (snd (AuthManager.loadTokenCache Samples.signed_out
            (Samples.start Samples.signed_out tt ["User.Read"] None)))
  = [AuthManager.GetPassword; AuthManager.Deserialize "keychain cache"].
Proof.
  destruct (cache_is_loaded_from_keychain_first Samples.signed_out
              (Samples.start Samples.signed_out tt ["User.Read"] None)) as [_ [H _]].
  rewrite (H "keychain cache" tt eq_refl); [reflexivity | discriminate].
Defined.

(** Graph answers with a user: the token verified is the token used. *)
Lemma verified_token_is_used_witness :
  fst (AuthManager.bind Samples.signed_out
         (AuthManager.verifyAccessToken Samples.signed_out None "verified")
         (fun _ => AuthManager.getToken Samples.signed_out true)
         (Samples.start Samples.signed_out tt ["User.Read"] None))
  = inr "verified".
Proof.
  destruct (verified_token_is_used Samples.signed_out None "verified"
              (Samples.start Samples.signed_out tt ["User.Read"] None)) as [H _].
  destruct (H Samples.me_ada tt _ eq_refl eq_refl eq_refl) as [Hverify Htoken];
    [discriminate |].
  unfold AuthManager.bind. rewrite Hverify. rewrite Htoken; [reflexivity | discriminate].
Defined.
